(** * Concall transcript downloader: period resolution, descriptor
    extraction, listing crawl and the fetch-and-store pipeline

    A shallow embedding of [transcript_downloader.py].

    Conventions of the embedding.
    - A Python [str] is a Rocq [string]; its characters are the code points
      0..255.  On that range Python's [\d] is the ASCII digits, [\s] and
      [str.strip] use the white space of [isspace] below, and
      [re.IGNORECASE] relates a letter only to its other case.
    - A descriptor (a Python [dict] with string keys and string values) is a
      [gmap string string].
    - [datetime.now()] is an input of the functions that read it, and
      [datetime.strptime] is modelled after CPython's [_strptime].
    - The browser, the HTTP session and the Drive service are collaborators:
      the browser is a function from page numbers to what the selectors
      return, the session a function from URLs to an optional body, and the
      Drive service a list of stored files together with a fault oracle that
      says which API calls raise.  A Drive query is the filter it spells:
      the name, the parent and the other fields of the query are compared
      as they are, and a file created by a call is put after the files that
      are there.
    - An exception of [driver.get] in a crawl is an input of [main]: its
      environment says on which pages of a listing the call raises, and the
      crawl is cut at the first page it requests among them.
    - A [while True] loop takes fuel; the theorems give the fuel that is
      enough for it to return. *)

From Stdlib Require Import NArith Ascii String Bool Lia.
From stdpp Require Import base option list strings gmap pretty.

Local Open Scope N_scope.

(** ** Characters and the pieces of Python's [re] the program uses *)

Module Chars.

Definition code (c : ascii) : N := N_of_ascii c.

Definition between (lo hi : N) (c : ascii) : bool :=
  (lo <=? code c) && (code c <=? hi).

(** [\d] *)
Definition isdecimal (c : ascii) : bool := between 48 57 c.

(** [\s], and the characters [str.strip()] removes *)
Definition isspace (c : ascii) : bool :=
  between 9 13 c || between 28 32 c || (code c =? 133) || (code c =? 160).

Definition chr (x c : ascii) : bool := Ascii.eqb x c.

(** a literal letter of a pattern compiled with [re.IGNORECASE];
    [up] and [low] are its two cases *)
Definition is_nocase (up low c : ascii) : bool := chr up c || chr low c.

Definition digit_value (c : ascii) : N := code c - 48.

End Chars.
Import Chars.

(** ** The [str] methods the program uses *)

Module Str.

(** [s[:n]] *)
Fixpoint take (n : nat) (s : string) : string :=
  match n, s with
  | S n', String c rest => String c (take n' rest)
  | _, _ => EmptyString
  end.

(** [s.startswith(p)] *)
Definition startswith (p s : string) : bool := String.prefix p s.

(** [sub in s] *)
Fixpoint contains (sub s : string) : bool :=
  String.prefix sub s
  || match s with
     | EmptyString => false
     | String _ rest => contains sub rest
     end.

Definition lower_char (c : ascii) : ascii :=
  if between 65 90 c || between 192 214 c || between 216 222 c
  then ascii_of_N (code c + 32) else c.

(** [s.lower()] *)
Fixpoint lower (s : string) : string :=
  match s with
  | EmptyString => EmptyString
  | String c rest => String (lower_char c) (lower rest)
  end.

Fixpoint lstrip (s : string) : string :=
  match s with
  | String c rest => if isspace c then lstrip rest else s
  | EmptyString => EmptyString
  end.

(** [s.strip()] *)
Definition strip (s : string) : string :=
  String.rev (lstrip (String.rev (lstrip s))).

(** [s.replace(old, "")] for a non-empty [old]: the occurrences are removed
    from the left, without overlap; [skip] counts the characters of the
    current occurrence that are still to be dropped. *)
Fixpoint remove_from (old : string) (skip : nat) (s : string) : string :=
  match s with
  | EmptyString => EmptyString
  | String c rest =>
      match skip with
      | S k => remove_from old k rest
      | O =>
          if String.prefix old s
          then remove_from old (String.length old - 1) rest
          else String c (remove_from old 0 rest)
      end
  end.
Definition remove (old s : string) : string := remove_from old 0 s.

(** [re.sub(cls, '', s)] for a character class [cls] *)
Fixpoint delete_chars (cls : ascii → bool) (s : string) : string :=
  match s with
  | EmptyString => EmptyString
  | String c rest =>
      if cls c then delete_chars cls rest
      else String c (delete_chars cls rest)
  end.

(** truth value of a [str] *)
Definition truthy (s : string) : bool :=
  match s with EmptyString => false | _ => true end.

(** [a or b] on strings *)
Definition or_else (a b : string) : string := if truthy a then a else b.

(** every character of [s] is in the class *)
Fixpoint all (cls : ascii → bool) (s : string) : bool :=
  match s with
  | EmptyString => true
  | String c rest => cls c && all cls rest
  end.

(** [s] does not begin with a character of the class *)
Definition not_next (cls : ascii → bool) (s : string) : bool :=
  match s with
  | EmptyString => true
  | String c _ => negb (cls c)
  end.

End Str.

Module Re.

(** [re.search]: the pattern is tried at every start position from the
    left, the empty suffix included; [m] is the pattern anchored at the
    start of its argument. *)
Fixpoint search {A} (m : string → option A) (s : string) : option A :=
  match m s with
  | Some r => Some r
  | None => match s with
            | EmptyString => None
            | String _ rest => search m rest
            end
  end.

(** [\s*], greedy *)
Fixpoint skip_spaces (s : string) : string :=
  match s with
  | String c rest => if isspace c then skip_spaces rest else s
  | EmptyString => EmptyString
  end.

(** [\d{0,n}], greedy: the digits taken and what follows them *)
Fixpoint take_digits (n : nat) (s : string) : string * string :=
  match n, s with
  | S n', String c rest =>
      if isdecimal c
      then let '(ds, r) := take_digits n' rest in (String c ds, r)
      else (EmptyString, s)
  | _, _ => (EmptyString, s)
  end.

(** A branch of an alternation is a sequence of character classes. *)
Definition branch := list (ascii → bool).

(** the text a branch matches at the start of [s], and the rest *)
Fixpoint match_branch (b : branch) (s : string) : option (string * string) :=
  match b with
  | [] => Some (EmptyString, s)
  | cls :: b' =>
      match s with
      | String c rest =>
          if cls c
          then match match_branch b' rest with
               | Some (m, r) => Some (String c m, r)
               | None => None
               end
          else None
      | EmptyString => None
      end
  end.

(** Alternation with backtracking: the branches are tried in order, each
    followed by the rest of the pattern [k]; the first branch that lets
    the whole pattern match is taken. *)
Fixpoint first_branch {A} (bs : list branch) (s : string)
    (k : string → string → option A) : option A :=
  match bs with
  | [] => None
  | b :: bs' =>
      match match_branch b s with
      | Some (m, r) =>
          match k m r with
          | Some a => Some a
          | None => first_branch bs' s k
          end
      | None => first_branch bs' s k
      end
  end.

(** [Q(\d)] with [re.IGNORECASE]; the result is group 1 *)
Definition quarter_at (s : string) : option ascii :=
  match s with
  | String q (String d _) =>
      if is_nocase "Q" "q" q && isdecimal d then Some d else None
  | _ => None
  end.

(** [FY\s*(\d{2,4})] with [re.IGNORECASE]; the result is group 1 *)
Definition fy_at (s : string) : option string :=
  match s with
  | String f (String y rest) =>
      if is_nocase "F" "f" f && is_nocase "Y" "y" y then
        let ds := (take_digits 4 (skip_spaces rest)).1 in
        if (2 <=? String.length ds)%nat then Some ds else None
      else None
  | _ => None
  end.

Definition is_sep (c : ascii) : bool := chr "-" c || chr "/" c.

Definition digits12 : list branch := [ [isdecimal; isdecimal]; [isdecimal] ].

(** [(\d{1,2}[-/]\d{1,2}[-/]\d{2,4})]; the result is group 1 *)
Definition date_at (s : string) : option string :=
  first_branch digits12 s (λ m1 r1,
  first_branch [ [is_sep] ] r1 (λ m2 r2,
  first_branch digits12 r2 (λ m3 r3,
  first_branch [ [is_sep] ] r3 (λ m4 r4,
    let ds := (take_digits 4 r4).1 in
    if (2 <=? String.length ds)%nat
    then Some (m1 +:+ m2 +:+ m3 +:+ m4 +:+ ds) else None)))).

(** [\d|Q\d|FY], case-sensitive, anchored *)
Definition name_end_at (s : string) : bool :=
  match s with
  | String c rest =>
      isdecimal c
      || (chr "Q" c && match rest with
                       | String d _ => isdecimal d
                       | EmptyString => false
                       end)
      || (chr "F" c && match rest with
                       | String y _ => chr "Y" y
                       | EmptyString => false
                       end)
  | EmptyString => false
  end.

(** [re.split(p, s)[0]]: the text before the leftmost match of [p] *)
Fixpoint before_first (m : string → bool) (s : string) : string :=
  if m s then EmptyString
  else match s with
       | EmptyString => EmptyString
       | String c rest => String c (before_first m rest)
       end.

Definition search_quarter : string → option ascii := search quarter_at.
Definition search_fy : string → option string := search fy_at.
Definition search_date : string → option string := search date_at.

End Re.

(** ** [datetime.strptime] for the five formats of the program

    CPython translates a format into a regular expression, one group per
    directive, matches it at the start of the input, rejects input that is
    left over, converts the groups and builds the date, which checks the
    ranges.  Every failure is a [ValueError]. *)

Module Strptime.
Import Re.

Inductive directive :=
| dir_d                 (* %d *)
| dir_m                 (* %m *)
| dir_Y                 (* %Y *)
| dir_y                 (* %y *)
| lit (c : ascii).

Definition format := list directive.

Record date := { year : N; month : N; day : N }.

Definition one_of (lo hi : ascii) : ascii → bool :=
  between (code lo) (code hi).

(** The groups, branches in the order of CPython's [TimeRE]:
    d = 3[0-1]|[1-2]\d|0[1-9]|[1-9]| [1-9];  m = 1[0-2]|0[1-9]|[1-9];
    Y = \d\d\d\d;  y = \d\d. *)
Definition branches (d : directive) : list branch :=
  match d with
  | dir_d => [ [chr "3"; one_of "0" "1"]; [one_of "1" "2"; isdecimal];
               [chr "0"; one_of "1" "9"]; [one_of "1" "9"];
               [chr " "; one_of "1" "9"] ]
  | dir_m => [ [chr "1"; one_of "0" "2"]; [chr "0"; one_of "1" "9"];
               [one_of "1" "9"] ]
  | dir_Y => [ [isdecimal; isdecimal; isdecimal; isdecimal] ]
  | dir_y => [ [isdecimal; isdecimal] ]
  | lit c => [ [chr c] ]
  end.

(** [int(s)] on an optional leading blank followed by digits *)
Fixpoint int_from (acc : N) (s : string) : N :=
  match s with
  | EmptyString => acc
  | String c rest =>
      if isdecimal c then int_from (10 * acc + digit_value c) rest
      else int_from acc rest
  end.
Definition int (s : string) : N := int_from 0 s.

(** the conversion of a group's text *)
Definition convert (d : directive) (text : string) (acc : date) : date :=
  match d with
  | dir_d => {| year := year acc; month := month acc; day := int text |}
  | dir_m => {| year := year acc; month := int text; day := day acc |}
  | dir_Y => {| year := int text; month := month acc; day := day acc |}
  | dir_y =>
      let y := int text in
      {| year := if y <=? 68 then y + 2000 else y + 1900;
         month := month acc; day := day acc |}
  | lit _ => acc
  end.

(** The format is matched with backtracking over the branches of its
    groups. *)
Fixpoint match_format (fmt : format) (s : string) (acc : date)
    : option (date * string) :=
  match fmt with
  | [] => Some (acc, s)
  | d :: fmt' =>
      first_branch (branches d) s
        (λ m r, match_format fmt' r (convert d m acc))
  end.

Definition is_leap (y : N) : bool :=
  (y mod 4 =? 0) && (negb (y mod 100 =? 0) || (y mod 400 =? 0)).

Definition days_in_month (y m : N) : N :=
  if m =? 2 then (if is_leap y then 29 else 28)
  else if (m =? 4) || (m =? 6) || (m =? 9) || (m =? 11) then 30
  else 31.

(** the range checks of the [date] constructor *)
Definition valid_date (d : date) : bool :=
  (1 <=? year d) && (year d <=? 9999) &&
  (1 <=? month d) && (month d <=? 12) &&
  (1 <=? day d) && (day d <=? days_in_month (year d) (month d)).

(** [None] stands for [ValueError]. *)
Definition strptime (s : string) (fmt : format) : option date :=
  match match_format fmt s {| year := 1900; month := 1; day := 1 |} with
  | Some (d, EmptyString) => if valid_date d then Some d else None
  | _ => None
  end.

Definition fmt_dmY_dash : format := [dir_d; lit "-"; dir_m; lit "-"; dir_Y].
Definition fmt_dmY_slash : format := [dir_d; lit "/"; dir_m; lit "/"; dir_Y].
Definition fmt_Ymd_dash : format := [dir_Y; lit "-"; dir_m; lit "-"; dir_d].
Definition fmt_dmy_dash : format := [dir_d; lit "-"; dir_m; lit "-"; dir_y].
Definition fmt_dmy_slash : format := [dir_d; lit "/"; dir_m; lit "/"; dir_y].

End Strptime.
Import Strptime.

(** ** [determine_quarter_fy] *)

(** the labels [f"Q{digit}"] and [f"FY{digits}"] *)
Definition quarter_label (d : ascii) : string := "Q" +:+ String d "".
Definition fy_label (digits : string) : string := "FY" +:+ digits.

(** the formats in the order the program tries them *)
Definition date_formats : list format :=
  [fmt_dmY_dash; fmt_dmY_slash; fmt_Ymd_dash; fmt_dmy_dash; fmt_dmy_slash].

(** Indian fiscal year, April to March: the quarter and the fiscal year of a
    calendar month and year.  The program writes this chain twice, once for
    the parsed date and once for the current date. *)
Definition fiscal_period (m y : N) : string * string :=
  if (4 <=? m) && (m <=? 6) then ("Q1", fy_label (pretty (y + 1)))
  else if (7 <=? m) && (m <=? 9) then ("Q2", fy_label (pretty (y + 1)))
  else if (10 <=? m) && (m <=? 12) then ("Q3", fy_label (pretty (y + 1)))
  else ("Q4", fy_label (pretty y)).

(** the [for fmt in ...: try ... except ValueError: continue] loop *)
Fixpoint first_parse (fmts : list format) (date_str : string) : option date :=
  match fmts with
  | [] => None
  | fmt :: fmts' =>
      match strptime date_str fmt with
      | Some d => Some d
      | None => first_parse fmts' date_str
      end
  end.

Definition determine_quarter_fy (now : date) (date_str text : string)
    : string * string :=
  match Re.search_quarter text, Re.search_fy text with
  | Some q, Some fy =>
      (quarter_label q,
       fy_label (if (String.length fy =? 2)%nat then "20" +:+ fy else fy))
  | _, _ =>
      match (if Str.truthy date_str then first_parse date_formats date_str
             else None) with
      | Some d => fiscal_period (month d) (year d)
      | None => fiscal_period (month now) (year now)
      end
  end.


(** ** Descriptor extraction *)

(** A descriptor is the [dict] the extraction functions build. *)
Abbreviation descriptor := (gmap string string).

Definition site_root : string := "https://www.screener.in".

(** What BeautifulSoup gives for a listing row: the [href] values of
    [row.find_all("a", href=True)], in document order, and
    [row.get_text(strip=True)]. *)
Record row := { row_hrefs : list string; row_text : string }.

Definition is_document_link (href : string) : bool :=
  Str.contains ".pdf" (Str.lower href)
  || Str.contains "transcript" (Str.lower href).

(** [None] is the program's [return None]. *)
Definition parse_transcript_row (r : row) : option descriptor :=
  match List.find is_document_link (row_hrefs r) with
  | None => None
  | Some href =>
      if negb (Str.truthy href) then None else
      let pdf_link :=
        if Str.startswith "/" href then site_root +:+ href
        else if negb (Str.startswith "http" href)
             then site_root +:+ "/" +:+ href
             else href in
      let text := row_text r in
      let date_str := default "" (Re.search_date text) in
      let quarter := default "" (quarter_label <$> Re.search_quarter text) in
      let fiscal_year := default "" (fy_label <$> Re.search_fy text) in
      let company_name := Str.strip (Re.before_first Re.name_end_at text) in
      let company_name := Str.strip (Str.remove "Transcript" company_name) in
      Some (<["company" := Str.take 50 company_name]>
           (<["pdf_url" := pdf_link]>
           (<["date" := date_str]>
           (<["quarter" := quarter]>
           (<["fiscal_year" := fiscal_year]>
           (<["raw_text" := Str.take 100 text]> ∅))))))
  end.

(** An anchor of a company page: its [href] and [get_text(strip=True)]. *)
Record anchor := { href : string; anchor_text : string }.

(** the CSS selector [a[href*='transcript'], a[href*='.pdf']] *)
Definition selects_document (a : anchor) : bool :=
  Str.contains "transcript" (href a) || Str.contains ".pdf" (href a).

Definition company_link_descriptor (a : anchor) : option descriptor :=
  let text := anchor_text a in
  if Str.contains "transcript" (Str.lower (href a))
     || Str.contains "transcript" (Str.lower text)
  then
    let url :=
      if negb (Str.startswith "http" (href a))
      then (if Str.startswith "/" (href a) then site_root +:+ href a
            else href a)
      else href a in
    Some (<["pdf_url" := url]>
         (<["quarter" :=
              default "Unknown" (quarter_label <$> Re.search_quarter text)]>
         (<["fiscal_year" :=
              default "Unknown" (fy_label <$> Re.search_fy text)]>
         (<["text" := text]> ∅))))
  else None.

(** [page] is what the browser renders for the company URL: the anchors of
    the page in document order, or [None] when loading it raises. *)
Definition get_company_transcripts (page : option (list anchor))
    : list descriptor :=
  match page with
  | None => []
  | Some anchors =>
      omap company_link_descriptor (List.filter selects_document anchors)
  end.

(** ** The listing crawlers *)

(** What the browser renders for page [n] of the transcripts listing: the
    result of the row selector, the result of the alternative selector, and
    whether the selector for the next-page link finds one. *)
Record listing_page := {
  rows : list row;
  alt_rows : list row;
  has_next : bool
}.

Definition is_empty {A} (l : list A) : bool :=
  match l with [] => true | _ => false end.

(** the rows of a page: the alternative selector is used when the first one
    finds nothing *)
Definition listing_rows (view : listing_page) : list row :=
  if is_empty (rows view) then alt_rows view else rows view.

(** The [while True] loop of [scrape_transcripts_page].  [fuel] bounds the
    number of iterations of the model and [None] says it ran out; the
    result is the descriptors and the pages requested, in order. *)
Fixpoint scrape_loop (fuel : nat) (site : nat → listing_page) (page : nat)
    (transcripts : list descriptor) (requested : list nat)
    : option (list descriptor * list nat) :=
  match fuel with
  | O => None
  | S fuel' =>
      let view := site page in
      let requested := requested ++ [page] in
      let rows := listing_rows view in
      if is_empty rows then Some (transcripts, requested)
      else
        let transcripts := transcripts ++ omap parse_transcript_row rows in
        if negb (has_next view) then Some (transcripts, requested)
        else
          let page := (page + 1)%nat in
          if (200 <? page)%nat then Some (transcripts, requested)
          else scrape_loop fuel' site page transcripts requested
  end.

Definition scrape_transcripts_page (fuel : nat) (site : nat → listing_page)
    : option (list descriptor * list nat) :=
  scrape_loop fuel site 1%nat [] [].

Record company := { name : string; url : string }.

(** What the browser renders for page [n] of the company screen: the anchors
    the selector [a[href*='/company/']] returns and whether a next-page
    button is found. *)
Record company_page := {
  company_links : list anchor;
  next_button : bool
}.

Definition company_of_link (a : anchor) : option company :=
  if Str.contains "/company/" (href a) && Str.truthy (anchor_text a)
  then Some {| name := anchor_text a;
               url := if Str.startswith "/" (href a)
                      then site_root +:+ href a else href a |}
  else None.

Fixpoint companies_loop (fuel : nat) (site : nat → company_page) (page : nat)
    (companies : list company) (requested : list nat)
    : option (list company * list nat) :=
  match fuel with
  | O => None
  | S fuel' =>
      let view := site page in
      let requested := requested ++ [page] in
      if is_empty (company_links view) then Some (companies, requested)
      else
        let companies :=
          companies ++ omap company_of_link (company_links view) in
        if negb (next_button view) && (50 <? page)%nat
        then Some (companies, requested)
        else
          let page := (page + 1)%nat in
          if (100 <? page)%nat then Some (companies, requested)
          else companies_loop fuel' site page companies requested
  end.

(** the removal of duplicates by URL, keeping the first *)
Fixpoint unique_by_url (seen : gset string) (cs : list company) : list company :=
  match cs with
  | [] => []
  | c :: cs' =>
      if bool_decide (url c ∈ seen) then unique_by_url seen cs'
      else c :: unique_by_url ({[url c]} ∪ seen) cs'
  end.

Definition get_all_companies (fuel : nat) (site : nat → company_page)
    : option (list company * list nat) :=
  match companies_loop fuel site 1%nat [] [] with
  | Some (cs, requested) => Some (unique_by_url ∅ cs, requested)
  | None => None
  end.

(** where the two crawls stop *)
Definition scrape_stops (site : nat → listing_page) (k : nat) : Prop :=
  listing_rows (site k) = [] ∨ has_next (site k) = false ∨ k = 200%nat.

Definition companies_stop (site : nat → company_page) (k : nat) : Prop :=
  company_links (site k) = []
  ∨ (next_button (site k) = false ∧ (50 < k)%nat)
  ∨ k = 100%nat.

(** what the pages [p], [p+1], ..., [k] contribute *)
Definition scraped (site : nat → listing_page) (p k : nat) : list descriptor :=
  flat_map (λ j, omap parse_transcript_row (listing_rows (site j)))
    (seq p (S k - p)).

Definition listed (site : nat → company_page) (p k : nat) : list company :=
  flat_map (λ j, omap company_of_link (company_links (site j)))
    (seq p (S k - p)).

(** ** The Drive service *)

Definition folder_mime : string := "application/vnd.google-apps.folder".
Definition pdf_mime : string := "application/pdf".

Record drive_file := {
  file_id : string;
  file_name : string;
  file_mime : string;
  file_parents : list string;
  file_trashed : bool;
  file_content : string
}.

(** The state of the service: the stored files, oldest first, and the number
    of API calls it has received. *)
Record drive := { files : list drive_file; calls : nat }.

(** The counters of a run. *)
Record stats := { downloaded : nat; skipped : nat; failed : nat }.

(** What a run cannot control: the clock, the root folder of the
    configuration, the answer of the HTTP session ([None] when [get] or
    [raise_for_status] raises), the API calls that raise, numbered from the
    first call the service ever received, and the identifier the service
    gives to the file created by a call. *)
Record world := {
  now : date;
  DRIVE_FOLDER_ID : string;
  session_get : string → option string;
  api_fault : nat → bool;
  new_id : nat → string
}.

(** the query [name='..' and mimeType='..folder' and '..' in parents and
    trashed=false] *)
Definition is_folder_named (folder_name parent_id : string) (f : drive_file)
    : bool :=
  String.eqb (file_name f) folder_name
  && String.eqb (file_mime f) folder_mime
  && bool_decide (parent_id ∈ file_parents f)
  && negb (file_trashed f).

(** the query [name='..' and '..' in parents and trashed=false] *)
Definition is_file_named (filename folder_id : string) (f : drive_file)
    : bool :=
  String.eqb (file_name f) filename
  && bool_decide (folder_id ∈ file_parents f)
  && negb (file_trashed f).

(** ** Computations of the pipeline: state, exceptions and [continue] *)

Inductive flow (A : Type) :=
| Val (a : A)      (* normal completion *)
| Raise            (* an exception *)
| Continue.        (* the [continue] statement *)
Arguments Val {A} a.
Arguments Raise {A}.
Arguments Continue {A}.

Definition M (A : Type) : Type := drive * stats → (drive * stats) * flow A.

#[global] Instance M_ret : MRet M := λ A a s, (s, Val a).
#[global] Instance M_bind : MBind M := λ A B f m s,
  match m s with
  | (s', Val a) => f a s'
  | (s', Raise) => (s', Raise)
  | (s', Continue) => (s', Continue)
  end.

Definition raise {A} : M A := λ s, (s, Raise).
Definition continue {A} : M A := λ s, (s, Continue).

(** the service has received one more call *)
Definition tick (d : drive) : drive :=
  {| files := files d; calls := S (calls d) |}.

(** One call of the Drive API: it raises when the oracle says so, and
    otherwise answers [op] on the stored files. *)
Definition api_call {A} (w : world)
    (op : nat → list drive_file → list drive_file * A) : M A :=
  λ '(d, st),
    let n := calls d in
    if api_fault w n
    then ((tick d, st), Raise)
    else let '(fs, a) := op n (files d) in
         (({| files := fs; calls := S n |}, st), Val a).

(** [files().list(q=...).execute()] *)
Definition files_list (w : world) (q : drive_file → bool) : M (list drive_file) :=
  api_call w (λ _ fs, (fs, List.filter q fs)).

(** [files().create(body=..., media_body=...).execute()] *)
Definition files_create (w : world) (fname mime : string)
    (parents : list string) (content : string) : M string :=
  api_call w (λ n fs,
    let f := {| file_id := new_id w n; file_name := fname; file_mime := mime;
                file_parents := parents; file_trashed := false;
                file_content := content |} in
    (fs ++ [f], file_id f)).

Definition get_or_create_folder (w : world) (folder_name parent_id : string)
    : M string :=
  found ← files_list w (is_folder_named folder_name parent_id);
  match found : list drive_file with
  | f :: _ => mret (file_id f)
  | [] => files_create w folder_name folder_mime [parent_id] ""
  end.

Definition file_exists_in_drive (w : world) (filename folder_id : string)
    : M bool :=
  found ← files_list w (is_file_named filename folder_id);
  mret (negb (is_empty found)).

(** the result is the new identifier, [None] when the file exists *)
Definition upload_to_drive (w : world) (content filename folder_id : string)
    : M (option string) :=
  exists_ ← file_exists_in_drive w filename folder_id;
  if exists_ : bool then mret (M := M) None
  else id ← files_create w filename pdf_mime [folder_id] content;
       mret (M := M) (Some id).

(** ** [download_and_upload_transcripts] *)

(** the characters the file name drops: less-than, greater-than, colon,
    double quote, slash, backslash, bar, question mark and star *)
Definition is_unsafe (c : ascii) : bool :=
  existsb (N.eqb (code c)) [60; 62; 58; 34; 47; 92; 124; 63; 42].

Definition count_downloaded (st : stats) : stats :=
  {| downloaded := S (downloaded st); skipped := skipped st;
     failed := failed st |}.
Definition count_skipped (st : stats) : stats :=
  {| downloaded := downloaded st; skipped := S (skipped st);
     failed := failed st |}.
Definition count_failed (st : stats) : stats :=
  {| downloaded := downloaded st; skipped := skipped st;
     failed := S (failed st) |}.

Definition add_downloaded : M unit :=
  λ '(d, st), ((d, count_downloaded st), Val ()).
Definition add_skipped : M unit :=
  λ '(d, st), ((d, count_skipped st), Val ()).
Definition add_failed (s : drive * stats) : drive * stats :=
  (s.1, count_failed s.2).

(** a hint of the descriptor wins over the resolved value unless it is
    missing, empty or "Unknown" *)
Definition with_hint (hint : option string) (resolved : string) : string :=
  match hint with
  | Some h => if Str.truthy h && negb (String.eqb h "Unknown") then h
              else resolved
  | None => resolved
  end.

(** the quarter and the fiscal year the pipeline files a descriptor under *)
Definition period_of (w : world) (t : descriptor) : string * string :=
  let '(quarter, fiscal_year) :=
    determine_quarter_fy (now w) (default "" (t !! "date"))
      (Str.or_else (default "" (t !! "raw_text")) (default "" (t !! "text"))) in
  (with_hint (t !! "quarter") quarter,
   with_hint (t !! "fiscal_year") fiscal_year).

Definition filename_of (company fiscal_year quarter : string) : string :=
  Str.delete_chars is_unsafe company
  +:+ " - " +:+ fiscal_year +:+ " " +:+ quarter +:+ " Transcript.pdf".

(** the body of the [try] for one descriptor *)
Definition process (w : world) (t : descriptor) : M unit :=
  let company := default "Unknown" (t !! "company") in
  match t !! "pdf_url" with
  | None => continue
  | Some pdf_url =>
      if negb (Str.truthy pdf_url) then continue else
      let '(quarter, fiscal_year) := period_of w t in
      fy_folder_id ← get_or_create_folder w fiscal_year (DRIVE_FOLDER_ID w);
      quarter_folder_id ← get_or_create_folder w quarter fy_folder_id;
      let filename := filename_of company fiscal_year quarter in
      exists_ ← file_exists_in_drive w filename quarter_folder_id;
      if exists_ : bool then (add_skipped;; continue)
      else
        match session_get w pdf_url with
        | None => raise
        | Some content =>
            (upload_to_drive w content filename quarter_folder_id;;
             add_downloaded)
        end
  end.

(** one iteration of the [for] loop: [except Exception] counts a failure *)
Definition iteration (w : world) (s : drive * stats) (t : descriptor)
    : drive * stats :=
  match process w t s with
  | (s', Raise) => add_failed s'
  | (s', _) => s'
  end.

Definition run_from (w : world) (s : drive * stats) (ts : list descriptor)
    : drive * stats :=
  foldl (iteration w) s ts.

Definition no_stats : stats := {| downloaded := 0; skipped := 0; failed := 0 |}.

(** The run on the storage state [d]: the state it leaves and the counters
    it returns. *)
Definition download_and_upload_transcripts (w : world) (ts : list descriptor)
    (d : drive) : drive * stats :=
  run_from w (d, no_stats) ts.

(** ** Markers in a text, in the words of the specification *)

(** A quarter marker: [Q] or [q] followed by a digit [d], after [pre]. *)
Definition quarter_marker_at (text pre : string) (d : ascii) : Prop :=
  ∃ q post,
    text = pre +:+ String q (String d post)
    ∧ (q = "Q" ∨ q = "q")%char
    ∧ isdecimal d = true.

(** A fiscal-year marker: [FY] in either case, white space if any, and the
    longest run [ds] of two to four digits, after [pre]. *)
Definition fy_marker_at (text pre ds : string) : Prop :=
  ∃ f y ws post,
    text = pre +:+ String f (String y (ws +:+ ds +:+ post))
    ∧ (f = "F" ∨ f = "f")%char ∧ (y = "Y" ∨ y = "y")%char
    ∧ Str.all isspace ws = true
    ∧ Str.all isdecimal ds = true
    ∧ (2 ≤ String.length ds ≤ 4)%nat
    ∧ (String.length ds = 4%nat ∨ Str.not_next isdecimal post = true).

(** the leftmost marker of each kind *)
Definition first_quarter_marker (text : string) (d : ascii) : Prop :=
  ∃ pre, quarter_marker_at text pre d
    ∧ ∀ pre' d', quarter_marker_at text pre' d' →
        (String.length pre ≤ String.length pre')%nat.

Definition first_fy_marker (text ds : string) : Prop :=
  ∃ pre, fy_marker_at text pre ds
    ∧ ∀ pre' ds', fy_marker_at text pre' ds' →
        (String.length pre ≤ String.length pre')%nat.

(** the text carries a marker of each kind *)
Definition has_both_markers (text : string) : Prop :=
  (∃ pre d, quarter_marker_at text pre d)
  ∧ (∃ pre ds, fy_marker_at text pre ds).

(** ** The shapes of the date formats

    What a format can match, character kind by character kind. *)

Inductive kind := K_digit | K_dash | K_slash | K_blank | K_other.

#[global] Instance kind_eq_dec : EqDecision kind.
Proof. solve_decision. Defined.

Definition kind_of (c : ascii) : kind :=
  if isdecimal c then K_digit
  else if chr "-" c then K_dash
  else if chr "/" c then K_slash
  else if chr " " c then K_blank
  else K_other.

Fixpoint kinds (s : string) : list kind :=
  match s with
  | EmptyString => []
  | String c rest => kind_of c :: kinds rest
  end.

(** the kinds of the branches of a group, in the order of [branches] *)
Definition branch_kinds (d : directive) : list (list kind) :=
  match d with
  | dir_d => [ [K_digit; K_digit]; [K_digit; K_digit]; [K_digit; K_digit];
               [K_digit]; [K_blank; K_digit] ]
  | dir_m => [ [K_digit; K_digit]; [K_digit; K_digit]; [K_digit] ]
  | dir_Y => [ [K_digit; K_digit; K_digit; K_digit] ]
  | dir_y => [ [K_digit; K_digit] ]
  | lit c => [ [kind_of c] ]
  end.

Fixpoint shapes (fmt : format) : list (list kind) :=
  match fmt with
  | [] => [ [] ]
  | d :: fmt' =>
      flat_map (λ ks, List.map (app ks) (shapes fmt')) (branch_kinds d)
  end.

(** no string has a shape of both formats *)
Definition disjoint_shapes (f1 f2 : format) : bool :=
  forallb (λ ks, negb (bool_decide (ks ∈ shapes f2))) (shapes f1).

(** ** What a run leaves in the Drive, in the words of the specification *)

(** the folder [get_or_create_folder] finds *)
Definition first_folder (fs : list drive_file) (folder_name parent_id : string)
    : option string :=
  file_id <$> head (List.filter (is_folder_named folder_name parent_id) fs).

(** the answer of [file_exists_in_drive] *)
Definition has_file (fs : list drive_file) (filename folder_id : string)
    : bool :=
  negb (is_empty (List.filter (is_file_named filename folder_id) fs)).

Definition has_url (t : descriptor) : bool :=
  match t !! "pdf_url" with
  | Some u => Str.truthy u
  | None => false
  end.

Definition filename_for (w : world) (t : descriptor) : string :=
  filename_of (default "Unknown" (t !! "company"))
    (period_of w t).2 (period_of w t).1.

(** the quarter folder of a descriptor, when the two folders exist *)
Definition quarter_folder (w : world) (t : descriptor)
    (fs : list drive_file) : option string :=
  fy_id ← first_folder fs (period_of w t).2 (DRIVE_FOLDER_ID w);
  first_folder fs (period_of w t).1 fy_id.

(** the file of a descriptor is in its quarter folder *)
Definition stored (w : world) (t : descriptor) (fs : list drive_file) : bool :=
  match quarter_folder w t fs with
  | Some q_id => has_file fs (filename_for w t) q_id
  | None => false
  end.

(** A descriptor a run without API faults has nothing left to do for: it
    has no URL, or its folders exist and either its file is stored or its
    download fails. *)
Definition settled (w : world) (t : descriptor) (fs : list drive_file) : Prop :=
  has_url t = false
  ∨ (is_Some (quarter_folder w t fs)
     ∧ (stored w t fs = true
        ∨ ∃ u, t !! "pdf_url" = Some u ∧ session_get w u = None)).

(** the files one API call may add: a folder that is not there under its
    parent, or a PDF *)
Inductive created (fs : list drive_file) : drive_file → Prop :=
| created_folder id folder_name parent_id :
    first_folder fs folder_name parent_id = None →
    created fs {| file_id := id; file_name := folder_name;
                  file_mime := folder_mime; file_parents := [parent_id];
                  file_trashed := false; file_content := "" |}
| created_pdf id filename folder_id content :
    created fs {| file_id := id; file_name := filename;
                  file_mime := pdf_mime; file_parents := [folder_id];
                  file_trashed := false; file_content := content |}.

(** the stored files after some calls: nothing is removed or changed *)
Inductive grows (fs : list drive_file) : list drive_file → Prop :=
| grows_refl : grows fs fs
| grows_step fs' f : grows fs fs' → created fs' f → grows fs (fs' ++ [f]).



(** the fallback period of a run *)
Definition current_period (w : world) : string * string :=
  fiscal_period (month (now w)) (year (now w)).

(** the state before the descriptor of index [i] is processed *)
Definition before (w : world) (ts : list descriptor) (d : drive) (i : nat)
    : drive * stats :=
  run_from w (d, no_stats) (take i ts).

Definition no_faults (w : world) : Prop := ∀ n, api_fault w n = false.

(** the descriptors a run has counted *)
Definition total (st : stats) : nat :=
  (downloaded st + skipped st + failed st)%nat.

(** ** [login_to_screener] and [main] *)

(** What the browser does with the login: [driver.get] of the login page
    raises, which is before the [try] of [login_to_screener]; or a step of
    the form raises, inside that [try]; or the form is submitted and the
    browser lands on a page. *)
Inductive login_page :=
| login_get_raises
| login_raises
| landed (current_url : string).

(** [None] says that the exception of [driver.get] leaves the function. *)
Definition login_to_screener (p : login_page) : option bool :=
  match p with
  | login_get_raises => None
  | login_raises => Some false
  | landed current_url =>
      Some (negb (Str.contains "login" (Str.lower current_url)))
  end.

(** What [main] finds around it: the two variables of the environment,
    whether [get_drive_service] returns (it raises when no credentials are
    found or when they do not decode), the login, the two listings with the
    pages on which [driver.get] raises, the pages of the companies by URL
    ([None] when loading raises, which [get_company_transcripts] catches),
    and the collaborators of the pipeline. *)
Record environment := {
  SCREENER_USERNAME : option string;
  SCREENER_PASSWORD : option string;
  drive_service_ok : bool;
  login : login_page;
  listing : nat → listing_page;
  listing_raises : nat → bool;
  screen : nat → company_page;
  screen_raises : nat → bool;
  company_pages : string → option (list anchor);
  services : world
}.

(** truth value of [os.getenv(..)] *)
Definition is_set (v : option string) : bool :=
  match v with
  | Some s => Str.truthy s
  | None => false
  end.

(** How [main] ends: normally, or with the exception that leaves it.  An
    exception of [driver.get] in [login_to_screener] or in a crawl is a
    [WebDriverException]. *)
Inductive exit :=
| Done (st : stats)
| ValueError
| RuntimeError
| WebDriverException.

(** what happens to the browser: [create_webdriver()], [driver.get(url)]
    and [driver.quit()] *)
Inductive browser_event :=
| browser_start
| browser_get (url : string)
| browser_quit.

(** how [main] ends: its exit, what happened to the browser, in order, and
    the storage state *)
Record main_result := {
  exit_of : exit;
  browser_log : list browser_event;
  drive_after : drive
}.

(** the URLs of the pages *)
Definition login_url : string := "https://www.screener.in/login/".

Definition transcripts_url (page : nat) : string :=
  "https://www.screener.in/transcripts/?page=" +:+ pretty page.

Definition companies_url (page : nat) : string :=
  "https://www.screener.in/screens/71064/all-companies/?page=" +:+ pretty page.

(** A crawl requests its pages in order and [driver.get] may raise on one of
    them, which ends the crawl there: the pages requested up to the first
    one that raises, that one included; [None] when none of them raises. *)
Fixpoint first_raise (raises : nat → bool) (requested : list nat)
    : option (list nat) :=
  match requested with
  | [] => None
  | page :: rest =>
      if raises page then Some [page]
      else match first_raise raises rest with
           | Some made => Some (page :: made)
           | None => None
           end
  end.

(** [t["company"] = company["name"]] *)
Definition with_company (c : company) (t : descriptor) : descriptor :=
  <["company" := name c]> t.

(** the company-wise collection over [companies[:100]] *)
Definition company_wise (env : environment) (cs : list company)
    : list descriptor :=
  flat_map
    (λ c, with_company c <$> get_company_transcripts (company_pages env (url c)))
    (take 100 cs).

(** the descriptors [main] hands to the pipeline when no page load raises *)
Definition collect (fuel : nat) (env : environment) : option (list descriptor) :=
  match scrape_transcripts_page fuel (listing env) with
  | None => None
  | Some (transcripts, _) =>
      if is_empty transcripts then
        match get_all_companies fuel (screen env) with
        | None => None
        | Some (companies, _) => Some (company_wise env companies)
        end
      else Some transcripts
  end.

(** The body of the [try] of [main]: how it ends, the URLs the browser was
    sent to, in order, and the storage state.  [None] says that a crawl ran
    out of fuel. *)
Definition main_try (fuel : nat) (env : environment) (d : drive)
    : option (exit * list string * drive) :=
  match login_to_screener (login env) with
  | None => Some (WebDriverException, [login_url], d)
  | Some false => Some (RuntimeError, [login_url], d)
  | Some true =>
      match scrape_transcripts_page fuel (listing env) with
      | None => None
      | Some (transcripts, requested) =>
          match first_raise (listing_raises env) requested with
          | Some made =>
              Some (WebDriverException,
                    login_url :: (transcripts_url <$> made), d)
          | None =>
              let gets := login_url :: (transcripts_url <$> requested) in
              if is_empty transcripts then
                match get_all_companies fuel (screen env) with
                | None => None
                | Some (companies, requested') =>
                    match first_raise (screen_raises env) requested' with
                    | Some made =>
                        Some (WebDriverException,
                              gets ++ (companies_url <$> made), d)
                    | None =>
                        let gets :=
                          gets ++ (companies_url <$> requested')
                               ++ (url <$> take 100 companies) in
                        let '(d', st) :=
                          download_and_upload_transcripts (services env)
                            (company_wise env companies) d in
                        Some (Done st, gets, d')
                    end
                end
              else
                let '(d', st) :=
                  download_and_upload_transcripts (services env)
                    transcripts d in
                Some (Done st, gets, d')
          end
      end
  end.

(** [main]; the session and the browser are taken to start.  The check of
    the two variables comes before the browser is started, and
    [get_drive_service] after the start and before the [try]; whatever way
    the body of the [try] ends, [finally] runs [driver.quit()]. *)
Definition main (fuel : nat) (env : environment) (d : drive)
    : option main_result :=
  if negb (is_set (SCREENER_USERNAME env))
     || negb (is_set (SCREENER_PASSWORD env))
  then Some {| exit_of := ValueError; browser_log := []; drive_after := d |}
  else
    let log := [browser_start] in
    if negb (drive_service_ok env)
    then Some {| exit_of := ValueError; browser_log := log; drive_after := d |}
    else
      match main_try fuel env d with
      | None => None
      | Some (e, gets, d') =>
          Some {| exit_of := e;
                  browser_log := log ++ (browser_get <$> gets) ++ [browser_quit];
                  drive_after := d' |}
      end.

(** ** More words for the properties *)

(** the period of a date string, the fallback period when it does not
    parse *)
Definition dated_period (w : world) (date_str : string) : string * string :=
  match first_parse date_formats date_str with
  | Some d => fiscal_period (month d) (year d)
  | None => current_period w
  end.

(** the PDF files of a storage state *)
Definition pdf_count (fs : list drive_file) : nat :=
  length (List.filter (λ f, String.eqb (file_mime f) pdf_mime) fs).

(** the descriptors of a list that have a URL *)
Definition with_url (ts : list descriptor) : list descriptor :=
  List.filter has_url ts.

(** [sub] occurs in [s], as written *)
Definition occurs_in (sub s : string) : Prop :=
  ∃ pre post, s = pre +:+ sub +:+ post.

(** [word], which is in lower case, occurs in [s] in some case of its
    letters *)
Definition mentions (word s : string) : Prop :=
  ∃ pre m post, s = pre +:+ m +:+ post ∧ Str.lower m = word.

(** the nine characters a file name drops: less-than, greater-than, colon,
    double quote, slash, backslash, bar, question mark and star *)
Definition dropped_characters : list ascii :=
  ["<"; ">"; ":"; "034"; "/"; "092"; "|"; "?"; "*"]%char.

Definition not_decimal (c : ascii) : bool := negb (isdecimal c).

(** ** Example inputs *)

(** a listing whose every page has one row and whose first page has no
    next-page link, and a company screen without links *)
Definition one_page_listing (n : nat) : listing_page :=
  {| rows := [ {| row_hrefs := ["/files/acme.pdf"];
                  row_text := "Acme Corp Q2 FY2024" |} ];
     alt_rows := [];
     has_next := (1 <? n)%nat |}.

Definition empty_screen (n : nat) : company_page :=
  {| company_links := []; next_button := false |}.

(** a listing that always has a row and a next-page link, and a company
    screen that always has a link and a next button *)
Definition endless_listing (n : nat) : listing_page :=
  {| rows := [ {| row_hrefs := ["/files/acme.pdf"];
                  row_text := "Acme Corp Q2 FY2024" |} ];
     alt_rows := [];
     has_next := true |}.

Definition endless_screen (n : nat) : company_page :=
  {| company_links := [ {| href := "/company/ACME/"; anchor_text := "Acme" |} ];
     next_button := true |}.

(** a company screen that always has a link and never a next button *)
Definition buttonless_screen (n : nat) : company_page :=
  {| company_links := [ {| href := "/company/ACME/"; anchor_text := "Acme" |} ];
     next_button := false |}.

(** a world without API faults whose session cannot fetch URLs that contain
    "missing" *)
Definition example_world (y m : N) : world :=
  {| now := {| year := y; month := m; day := 1 |};
     DRIVE_FOLDER_ID := "root";
     session_get := λ u, if Str.contains "missing" u then None
                         else Some "%PDF-1.4";
     api_fault := λ _, false;
     new_id := λ n, "id" +:+ pretty n |}.

Definition empty_drive : drive := {| files := []; calls := 0 |}.

Definition acme_row : row :=
  {| row_hrefs := ["/company/ACME/"; "/files/acme-q2.pdf"];
     row_text := "Acme Corp Q2 FY24 Transcript 15-07-2024" |}.

(** the descriptor extracted from [acme_row] *)
Definition acme : descriptor := default ∅ (parse_transcript_row acme_row).

(** a descriptor whose download fails *)
Definition broken : descriptor :=
  <["pdf_url" := "https://www.screener.in/missing.pdf"]>
    (<["company" := "Beta"]> ∅).

(** a row without date or markers, and the descriptor extracted from it *)
Definition plain_row : row :=
  {| row_hrefs := ["/files/gamma-concall.pdf"];
     row_text := "Gamma Industries Transcript" |}.

Definition plain : descriptor := default ∅ (parse_transcript_row plain_row).

(** a listing without rows, a company screen with one company on its first
    page, and the page of that company *)
Definition empty_listing (n : nat) : listing_page :=
  {| rows := []; alt_rows := []; has_next := false |}.

Definition one_company_screen (n : nat) : company_page :=
  {| company_links :=
       if (n =? 1)%nat
       then [ {| href := "/company/ACME/"; anchor_text := "Acme Corp" |} ]
       else [];
     next_button := false |}.

Definition acme_page (company_url : string) : option (list anchor) :=
  if String.eqb company_url "https://www.screener.in/company/ACME/"
  then Some [ {| href := "/docs/acme-transcript-q1.pdf";
                 anchor_text := "Concall Q1 FY2025" |};
              {| href := "/docs/annual-report.pdf";
                 anchor_text := "Annual report" |} ]
  else None.

(** an environment with both login variables set; the listing is empty, so
    the company pages are used *)
Definition example_environment (service_ok : bool) : environment :=
  {| SCREENER_USERNAME := Some "user";
     SCREENER_PASSWORD := Some "secret";
     drive_service_ok := service_ok;
     login := landed "https://www.screener.in/dash/";
     listing := empty_listing;
     listing_raises := λ _, false;
     screen := one_company_screen;
     screen_raises := λ _, false;
     company_pages := acme_page;
     services := example_world 2024 3 |}.

(** an environment whose listing has rows on every page and whose third
    page does not load *)
Definition timeout_environment : environment :=
  {| SCREENER_USERNAME := Some "user";
     SCREENER_PASSWORD := Some "secret";
     drive_service_ok := true;
     login := landed "https://www.screener.in/dash/";
     listing := endless_listing;
     listing_raises := λ page, (page =? 3)%nat;
     screen := one_company_screen;
     screen_raises := λ _, false;
     company_pages := acme_page;
     services := example_world 2024 3 |}.

(** * Properties *)

(** ** Period resolution *)

Section PeriodResolution.

Implicit Types (now d : date) (date_str text : string).

Lemma first_parse_valid fmts date_str d :
  first_parse fmts date_str = Some d → valid_date d = true.
Proof.
  induction fmts as [|fmt fmts IH]; simpl; [done|].
  unfold strptime.
  destruct (match_format fmt date_str _) as [[d' [|? ?]]|]; auto.
  destruct (valid_date d') eqn:Hv; auto.
  intros [= <-]. exact Hv.
Qed.

Lemma valid_date_month d :
  valid_date d = true → 1 ≤ month d ≤ 12.
Proof.
  unfold valid_date. rewrite !andb_true_iff, !N.leb_le. lia.
Qed.

(** without both markers in the text, the date string decides when it
    parses *)
Lemma determine_quarter_fy_parsed now date_str text d :
  Re.search_quarter text = None ∨ Re.search_fy text = None →
  first_parse date_formats date_str = Some d →
  determine_quarter_fy now date_str text = fiscal_period (month d) (year d).
Proof.
  intros Hno Hp. unfold determine_quarter_fy.
  assert (Str.truthy date_str = true) as ->.
  { destruct date_str; [|done]. vm_compute in Hp. discriminate. }
  rewrite Hp.
  destruct (Re.search_quarter text), (Re.search_fy text);
    destruct Hno; congruence.
Qed.

(** and the clock decides when it does not *)
Lemma determine_quarter_fy_fallback now date_str text :
  Re.search_quarter text = None ∨ Re.search_fy text = None →
  first_parse date_formats date_str = None →
  determine_quarter_fy now date_str text
  = fiscal_period (month now) (year now).
Proof.
  intros Hno Hp. unfold determine_quarter_fy. rewrite Hp.
  destruct (Str.truthy date_str);
    destruct (Re.search_quarter text), (Re.search_fy text);
    destruct Hno; congruence.
Qed.

Lemma fiscal_period_cases m y :
  (4 ≤ m ≤ 6 → fiscal_period m y = ("Q1", fy_label (pretty (y + 1)))) ∧
  (7 ≤ m ≤ 9 → fiscal_period m y = ("Q2", fy_label (pretty (y + 1)))) ∧
  (10 ≤ m ≤ 12 → fiscal_period m y = ("Q3", fy_label (pretty (y + 1)))) ∧
  (1 ≤ m ≤ 3 → fiscal_period m y = ("Q4", fy_label (pretty y))).
Proof.
  unfold fiscal_period.
  repeat split; intros H;
    repeat match goal with
    | |- context [(?a <=? ?b)] =>
        destruct (N.leb_spec a b); simpl; try lia
    end; reflexivity.
Qed.

End PeriodResolution.

(** the resolver on some inputs; the clock is 3 November 2026 *)
Example resolve_text_wins :
  determine_quarter_fy {| year := 2026; month := 11; day := 3 |}
    "15-07-2024" "Acme Corp q3 fy 2023 call" = ("Q3", "FY2023").
Proof. vm_compute. reflexivity. Qed.

Example resolve_slash_date :
  determine_quarter_fy {| year := 2026; month := 11; day := 3 |}
    "5/11/2024" "Acme Corp" = ("Q3", "FY2025").
Proof. vm_compute. reflexivity. Qed.

Example resolve_iso_date :
  determine_quarter_fy {| year := 2026; month := 11; day := 3 |}
    "2024-03-31" "Acme Corp Q1" = ("Q4", "FY2024").
Proof. vm_compute. reflexivity. Qed.

Example resolve_invalid_date_uses_clock :
  determine_quarter_fy {| year := 2026; month := 11; day := 3 |}
    "29-02-2023" "Acme Corp" = ("Q3", "FY2027").
Proof. vm_compute. reflexivity. Qed.

(** ** Strings and leftmost matches *)

Section Strings.

Implicit Types (s t pre suf : string) (c : ascii).

Lemma app_cons c s t : String c s +:+ t = String c (s +:+ t).
Proof. reflexivity. Qed.

Lemma app_nil_l s : "" +:+ s = s.
Proof. reflexivity. Qed.

Lemma app_empty_r s : s +:+ "" = s.
Proof. induction s as [|c s IH]; [done|]. by rewrite app_cons, IH. Qed.

Lemma app_length s t :
  String.length (s +:+ t) = (String.length s + String.length t)%nat.
Proof. induction s as [|c s IH]; [done|]. rewrite app_cons. simpl. lia. Qed.

Lemma app_assoc' s t u : (s +:+ t) +:+ u = s +:+ (t +:+ u).
Proof.
  induction s as [|c s IH]; [done|]. rewrite !app_cons. by rewrite IH.
Qed.

(** a match of [re.search] is a match of the pattern at some position,
    and the pattern fails at every position to the left of it *)
Lemma search_Some {A} (m : string → option A) s r :
  Re.search m s = Some r ↔
  ∃ pre suf, s = pre +:+ suf ∧ m suf = Some r ∧
    ∀ pre' suf', s = pre' +:+ suf' →
      (String.length pre' < String.length pre)%nat → m suf' = None.
Proof.
  split.
  - induction s as [|c s IH]; simpl.
    + destruct (m "") eqn:Hm; [|done]. intros [= ->].
      exists "", "". repeat split; [done|]. intros ?? _ Hl. simpl in Hl. lia.
    + destruct (m (String c s)) eqn:Hm.
      * intros [= ->]. exists "", (String c s). repeat split; [done|].
        intros ?? _ Hl. simpl in Hl. lia.
      * intros (pre & suf & -> & Hsuf & Hmin)%IH.
        exists (String c pre), suf. rewrite app_cons.
        repeat split; [done|].
        intros [|c' pre'] suf' Heq Hl.
        -- rewrite app_nil_l in Heq. by subst suf'.
        -- rewrite app_cons in Heq. injection Heq as -> Heq.
           apply (Hmin pre'); [done|]. simpl in Hl. lia.
  - intros (pre & suf & -> & Hsuf & Hmin).
    induction pre as [|c pre IH].
    + rewrite app_nil_l. destruct suf; simpl; by rewrite Hsuf.
    + rewrite app_cons. simpl.
      rewrite (Hmin "" (String c (pre +:+ suf))); [|done|simpl; lia].
      apply IH. intros pre' suf' Heq Hl.
      apply (Hmin (String c pre')); [by rewrite app_cons, Heq|simpl; lia].
Qed.

Lemma search_None {A} (m : string → option A) s :
  Re.search m s = None ↔ ∀ pre suf, s = pre +:+ suf → m suf = None.
Proof.
  split.
  - induction s as [|c s IH]; simpl.
    + destruct (m "") eqn:Hm; [done|]. intros _ [|? ?] suf Heq.
      * rewrite app_nil_l in Heq. by subst.
      * by rewrite app_cons in Heq.
    + destruct (m (String c s)) eqn:Hm; [done|]. intros Hs [|c' pre] suf Heq.
      * rewrite app_nil_l in Heq. by subst.
      * rewrite app_cons in Heq. injection Heq as -> Heq. by eapply IH.
  - intros Hall. destruct (Re.search m s) eqn:Hs; [|done].
    apply search_Some in Hs as (pre & suf & Heq & Hsuf & _).
    rewrite (Hall _ _ Heq) in Hsuf. done.
Qed.

Lemma digit_not_space c : isdecimal c = true → isspace c = false.
Proof.
  unfold isdecimal, isspace, between.
  rewrite andb_true_iff, !N.leb_le. intros [? ?].
  repeat match goal with
  | |- context [(?a <=? ?b)] => destruct (N.leb_spec a b); simpl; try lia
  | |- context [(?a =? ?b)] => destruct (N.eqb_spec a b); simpl; try lia
  end; reflexivity.
Qed.

Lemma skip_spaces_spec s :
  ∃ ws, s = ws +:+ Re.skip_spaces s ∧ Str.all isspace ws = true
        ∧ Str.not_next isspace (Re.skip_spaces s) = true.
Proof.
  induction s as [|c s (ws & Heq & Hws & Hnext)]; simpl.
  - by exists "".
  - destruct (isspace c) eqn:Hc.
    + exists (String c ws). rewrite app_cons, <- Heq. simpl.
      by rewrite Hc, Hws.
    + exists "". simpl. by rewrite Hc.
Qed.

Lemma skip_spaces_app ws s :
  Str.all isspace ws = true → Str.not_next isspace s = true →
  Re.skip_spaces (ws +:+ s) = s.
Proof.
  intros Hws Hs. induction ws as [|c ws IH].
  - rewrite app_nil_l. destruct s as [|c s]; [done|]. simpl in *.
    by destruct (isspace c).
  - simpl in Hws. apply andb_true_iff in Hws as [Hc Hws].
    rewrite app_cons. simpl. rewrite Hc. auto.
Qed.

Lemma take_digits_spec n s :
  let ds := (Re.take_digits n s).1 in
  let r := (Re.take_digits n s).2 in
  s = ds +:+ r ∧ Str.all isdecimal ds = true ∧ (String.length ds ≤ n)%nat
  ∧ (String.length ds = n ∨ Str.not_next isdecimal r = true).
Proof.
  revert s. induction n as [|n IH]; intros s; simpl.
  - destruct s; repeat split; auto.
  - destruct s as [|c s]; simpl; [repeat split; auto; lia|].
    destruct (isdecimal c) eqn:Hc; simpl.
    + specialize (IH s). destruct (Re.take_digits n s) as [ds r]. simpl in *.
      destruct IH as (Heq & Hall & Hlen & Hend).
      rewrite app_cons, <- Heq, Hc, Hall. repeat split; [lia|].
      destruct Hend; [left; lia|by right].
    + rewrite Hc. repeat split; [lia|by right].
Qed.

Lemma take_digits_app n ds r :
  Str.all isdecimal ds = true → (String.length ds ≤ n)%nat →
  (String.length ds = n ∨ Str.not_next isdecimal r = true) →
  Re.take_digits n (ds +:+ r) = (ds, r).
Proof.
  revert ds. induction n as [|n IH]; intros ds Hall Hlen Hend.
  - destruct ds; [|simpl in Hlen; lia]. rewrite app_nil_l. by destruct r.
  - destruct ds as [|c ds].
    + rewrite app_nil_l. destruct Hend as [|Hend]; [done|].
      destruct r as [|c r]; [done|]. simpl in *. by destruct (isdecimal c).
    + simpl in Hall. apply andb_true_iff in Hall as [Hc Hall].
      rewrite app_cons. simpl. rewrite Hc.
      rewrite IH; [done|done|simpl in Hlen; lia|].
      destruct Hend as [Hend|]; [left|by right]. simpl in Hend. lia.
Qed.

End Strings.

(** ** The markers the resolver finds are the leftmost markers *)

Section Markers.

Implicit Types (text pre suf ds : string) (d : ascii).

Lemma is_nocase_iff up low c :
  is_nocase up low c = true ↔ c = up ∨ c = low.
Proof.
  unfold is_nocase, chr. rewrite orb_true_iff, !Ascii.eqb_eq.
  split; (intros [->| ->]; [by left|by right]).
Qed.

Lemma quarter_at_iff suf d :
  Re.quarter_at suf = Some d ↔
  ∃ q post, suf = String q (String d post)
    ∧ (q = "Q" ∨ q = "q")%char ∧ isdecimal d = true.
Proof.
  unfold Re.quarter_at. split.
  - destruct suf as [|q [|d' post]]; try done.
    destruct (is_nocase "Q" "q" q) eqn:Hq; [|done].
    destruct (isdecimal d') eqn:Hd; [|done].
    intros [= ->]. exists q, post. by apply is_nocase_iff in Hq.
  - intros (q & post & -> & Hq%is_nocase_iff & Hd). by rewrite Hq, Hd.
Qed.

Lemma fy_at_iff suf ds :
  Re.fy_at suf = Some ds ↔
  ∃ f y ws post, suf = String f (String y (ws +:+ ds +:+ post))
    ∧ (f = "F" ∨ f = "f")%char ∧ (y = "Y" ∨ y = "y")%char
    ∧ Str.all isspace ws = true ∧ Str.all isdecimal ds = true
    ∧ (2 ≤ String.length ds ≤ 4)%nat
    ∧ (String.length ds = 4%nat ∨ Str.not_next isdecimal post = true).
Proof.
  unfold Re.fy_at. split.
  - destruct suf as [|f [|y rest]]; try done.
    destruct (is_nocase "F" "f" f) eqn:Hf; [|done].
    destruct (is_nocase "Y" "y" y) eqn:Hy; [|done]. cbn [andb]. cbv zeta.
    destruct (skip_spaces_spec rest) as (ws & Hrest & Hws & _).
    pose proof (take_digits_spec 4 (Re.skip_spaces rest)) as Htd.
    destruct (Re.take_digits 4 (Re.skip_spaces rest)) as [ds' post].
    cbn [fst snd] in *. destruct Htd as (Heq & Hall & Hlen & Hend).
    destruct (Nat.leb_spec 2 (String.length ds')); [|done].
    intros [= <-]. exists f, y, ws, post.
    apply is_nocase_iff in Hf. apply is_nocase_iff in Hy.
    split; [by rewrite <- Heq, <- Hrest|]. repeat split; auto.
  - intros (f & y & ws & post & -> & Hf%is_nocase_iff & Hy%is_nocase_iff
            & Hws & Hds & [Hlo Hhi] & Hend).
    rewrite Hf, Hy. cbn [andb]. cbv zeta.
    rewrite skip_spaces_app, take_digits_app; try done.
    + cbn [fst]. by destruct (Nat.leb_spec 2 (String.length ds)); [|lia].
    + destruct ds as [|c ds]; [simpl in Hlo; lia|].
      rewrite app_cons. simpl in *. apply andb_true_iff in Hds as [Hc _].
      by rewrite (digit_not_space c Hc).
Qed.

Lemma search_quarter_first text d :
  Re.search_quarter text = Some d ↔ first_quarter_marker text d.
Proof.
  unfold Re.search_quarter. rewrite search_Some. split.
  - intros (pre & suf & -> & Hat & Hmin). exists pre. split.
    + apply quarter_at_iff in Hat as (q & post & -> & ? & ?).
      by exists q, post.
    + intros pre' d' (q & post & Heq & Hq & Hd).
      destruct (decide (String.length pre' < String.length pre)%nat) as [Hlt|];
        [|lia].
      assert (Re.quarter_at (String q (String d' post)) = Some d') as Hs
        by (apply quarter_at_iff; eauto).
      rewrite (Hmin _ _ Heq Hlt) in Hs. done.
  - intros (pre & (q & post & -> & Hq & Hd) & Hmin).
    exists pre, (String q (String d post)). split; [done|]. split.
    + apply quarter_at_iff. eauto.
    + intros pre' suf' Heq Hlt.
      destruct (Re.quarter_at suf') as [d'|] eqn:Hat; [|done].
      apply quarter_at_iff in Hat as (q' & post' & -> & ? & ?).
      assert (String.length pre ≤ String.length pre')%nat; [|lia].
      apply (Hmin pre' d'). by exists q', post'.
Qed.

Lemma search_fy_first text ds :
  Re.search_fy text = Some ds ↔ first_fy_marker text ds.
Proof.
  unfold Re.search_fy. rewrite search_Some. split.
  - intros (pre & suf & -> & Hat & Hmin). exists pre. split.
    + apply fy_at_iff in Hat as (f & y & ws & post & -> & ?).
      by exists f, y, ws, post.
    + intros pre' ds' (f & y & ws & post & Heq & Hrest).
      destruct (decide (String.length pre' < String.length pre)%nat) as [Hlt|];
        [|lia].
      assert (Re.fy_at (String f (String y (ws +:+ ds' +:+ post))) = Some ds')
        as Hs by (apply fy_at_iff; by exists f, y, ws, post).
      rewrite (Hmin _ _ Heq Hlt) in Hs. done.
  - intros (pre & (f & y & ws & post & -> & Hrest) & Hmin).
    exists pre, (String f (String y (ws +:+ ds +:+ post))).
    split; [done|]. split.
    + apply fy_at_iff. by exists f, y, ws, post.
    + intros pre' suf' Heq Hlt.
      destruct (Re.fy_at suf') as [ds'|] eqn:Hat; [|done].
      apply fy_at_iff in Hat as (f' & y' & ws' & post' & -> & ?).
      assert (String.length pre ≤ String.length pre')%nat; [|lia].
      apply (Hmin pre' ds'). by exists f', y', ws', post'.
Qed.

(** a text with a marker has a leftmost one *)
Lemma quarter_marker_first text pre d :
  quarter_marker_at text pre d → ∃ d', first_quarter_marker text d'.
Proof.
  intros (q & post & Heq & Hq & Hd).
  destruct (Re.search_quarter text) as [d'|] eqn:Hs.
  - exists d'. by apply search_quarter_first.
  - unfold Re.search_quarter in Hs.
    rewrite search_None in Hs. specialize (Hs _ _ Heq).
    assert (Re.quarter_at (String q (String d post)) = Some d) as Hat
      by (apply quarter_at_iff; eauto).
    congruence.
Qed.

Lemma fy_marker_first text pre ds :
  fy_marker_at text pre ds → ∃ ds', first_fy_marker text ds'.
Proof.
  intros (f & y & ws & post & Heq & Hrest).
  destruct (Re.search_fy text) as [ds'|] eqn:Hs.
  - exists ds'. by apply search_fy_first.
  - unfold Re.search_fy in Hs.
    rewrite search_None in Hs. specialize (Hs _ _ Heq).
    assert (Re.fy_at (String f (String y (ws +:+ ds +:+ post))) = Some ds)
      as Hat by (apply fy_at_iff; by exists f, y, ws, post).
    congruence.
Qed.

Lemma search_quarter_None text :
  Re.search_quarter text = None ↔ ∀ pre d, ¬ quarter_marker_at text pre d.
Proof.
  split.
  - intros Hs pre d [d' Hd]%quarter_marker_first.
    apply search_quarter_first in Hd. congruence.
  - intros Hno. destruct (Re.search_quarter text) as [d|] eqn:Hs; [|done].
    apply search_quarter_first in Hs as (pre & Hm & _).
    destruct (Hno _ _ Hm).
Qed.

Lemma search_fy_None text :
  Re.search_fy text = None ↔ ∀ pre ds, ¬ fy_marker_at text pre ds.
Proof.
  split.
  - intros Hs pre ds [ds' Hd]%fy_marker_first.
    apply search_fy_first in Hd. congruence.
  - intros Hno. destruct (Re.search_fy text) as [ds|] eqn:Hs; [|done].
    apply search_fy_first in Hs as (pre & Hm & _).
    destruct (Hno _ _ Hm).
Qed.

Lemma not_both_markers text :
  ¬ has_both_markers text →
  Re.search_quarter text = None ∨ Re.search_fy text = None.
Proof.
  intros Hno.
  destruct (Re.search_quarter text) as [d|] eqn:Hq; [|by left].
  destruct (Re.search_fy text) as [ds|] eqn:Hfy; [|by right].
  destruct Hno. split.
  - apply search_quarter_first in Hq as (pre & Hm & _). eauto.
  - apply search_fy_first in Hfy as (pre & Hm & _). eauto.
Qed.

End Markers.

(** C2. A text that contains a quarter marker and a fiscal-year marker
    resolves to its leftmost quarter marker and its leftmost fiscal-year
    marker, whatever the date string and the clock are: the quarter is the
    letter Q and the digit of the marker, the fiscal year the letters FY and
    the digits of the marker, two digits yy written 20yy. *)
Theorem determine_quarter_fy_from_markers text pre1 d1 pre2 ds2 :
  quarter_marker_at text pre1 d1 →
  fy_marker_at text pre2 ds2 →
  ∃ d ds,
    first_quarter_marker text d ∧ first_fy_marker text ds ∧
    ∀ now date_str,
      determine_quarter_fy now date_str text
      = ("Q" +:+ String d "",
         if (String.length ds =? 2)%nat then "FY20" +:+ ds else "FY" +:+ ds).
Proof.
  intros [d Hq]%quarter_marker_first [ds Hfy]%fy_marker_first.
  exists d, ds. split; [done|]. split; [done|].
  intros now date_str. unfold determine_quarter_fy.
  apply search_quarter_first in Hq. apply search_fy_first in Hfy.
  rewrite Hq, Hfy. f_equal.
  by destruct (String.length ds =? 2)%nat.
Qed.

Lemma determine_quarter_fy_from_markers_witness :
  ∃ d ds,
    first_quarter_marker "Acme q3 FY 25 call" d
    ∧ first_fy_marker "Acme q3 FY 25 call" ds
    ∧ ∀ now date_str,
        determine_quarter_fy now date_str "Acme q3 FY 25 call"
        = ("Q" +:+ String d "",
           if (String.length ds =? 2)%nat then "FY20" +:+ ds else "FY" +:+ ds).
Proof.
  apply (determine_quarter_fy_from_markers
           "Acme q3 FY 25 call" "Acme " "3" "Acme q3 " "25").
  - exists "q"%char, " FY 25 call". repeat split; auto.
  - exists "F"%char, "Y"%char, " ", " call". repeat split; auto; simpl; lia.
Defined.

(** C3. A date string that parses, in a call whose text does not carry both
    markers, resolves by its calendar month: April to June give Q1, July to
    September Q2 and October to December Q3, each of the fiscal year after
    the calendar year, and January to March give Q4 of the calendar year
    itself; "01-02-2023" resolves to Q4 of FY2023. *)
Theorem determine_quarter_fy_by_month now date_str text d :
  ¬ has_both_markers text →
  first_parse date_formats date_str = Some d →
  (4 ≤ month d ≤ 6 →
     determine_quarter_fy now date_str text
     = ("Q1", fy_label (pretty (year d + 1)))) ∧
  (7 ≤ month d ≤ 9 →
     determine_quarter_fy now date_str text
     = ("Q2", fy_label (pretty (year d + 1)))) ∧
  (10 ≤ month d ≤ 12 →
     determine_quarter_fy now date_str text
     = ("Q3", fy_label (pretty (year d + 1)))) ∧
  (1 ≤ month d ≤ 3 →
     determine_quarter_fy now date_str text
     = ("Q4", fy_label (pretty (year d)))) ∧
  1 ≤ month d ≤ 12 ∧
  determine_quarter_fy now "01-02-2023" "" = ("Q4", "FY2023").
Proof.
  intros Hno%not_both_markers Hp.
  rewrite (determine_quarter_fy_parsed now date_str text d Hno Hp).
  destruct (fiscal_period_cases (month d) (year d)) as (H1 & H2 & H3 & H4).
  pose proof (valid_date_month d (first_parse_valid _ _ _ Hp)) as Hm.
  split; [exact H1|]. split; [exact H2|]. split; [exact H3|].
  split; [exact H4|]. split; [exact Hm|].
  vm_compute. reflexivity.
Qed.

Lemma determine_quarter_fy_by_month_witness :
  determine_quarter_fy {| year := 2026; month := 11; day := 3 |}
    "15/05/2024" "Acme Q1 results" = ("Q1", "FY2025").
Proof.
  pose proof (determine_quarter_fy_by_month
                {| year := 2026; month := 11; day := 3 |}
                "15/05/2024" "Acme Q1 results"
                {| year := 2024; month := 5; day := 15 |}) as H.
  destruct H as (H1 & _).
  - intros [_ (pre & ds & Hfy)].
    apply (proj1 (search_fy_None "Acme Q1 results")) in Hfy; [done|].
    vm_compute. reflexivity.
  - vm_compute. reflexivity.
  - apply H1. simpl. lia.
Defined.


(** ** The shape of a resolved period *)

Section ResolvedPeriod.

Lemma pretty_N_char_digit x : isdecimal (pretty_N_char x) = true.
Proof. unfold pretty_N_char. by repeat case_match. Qed.

Lemma pretty_N_go_digits x s :
  Str.all isdecimal s = true → s ≠ "" →
  Str.all isdecimal (pretty_N_go x s) = true ∧ pretty_N_go x s ≠ "".
Proof.
  revert s. induction (N.lt_wf_0 x) as [x _ IH]; intros s Hs Hne.
  destruct (decide (x = 0)) as [->|Hx].
  - by rewrite pretty_N_go_0.
  - rewrite pretty_N_go_step by lia. apply IH.
    + apply N.div_lt; lia.
    + simpl. by rewrite pretty_N_char_digit, Hs.
    + done.
Qed.

(** the decimal form of a number is a non-empty run of digits *)
Lemma pretty_N_digits (x : N) :
  Str.all isdecimal (pretty x) = true ∧ pretty x ≠ "".
Proof.
  unfold pretty, pretty_N. case_decide as Hx; [done|].
  rewrite pretty_N_go_step by lia.
  apply pretty_N_go_digits; [|done].
  simpl. by rewrite pretty_N_char_digit.
Qed.

(** a period that comes from a calendar month *)
Lemma fiscal_period_shape m y :
  (fiscal_period m y).1 ∈ ["Q1"; "Q2"; "Q3"; "Q4"]
  ∧ ∃ digits, (fiscal_period m y).2 = fy_label digits
      ∧ Str.all isdecimal digits = true ∧ digits ≠ "".
Proof.
  unfold fiscal_period.
  repeat case_match; simpl; (split; [set_solver|]);
    eexists; (split; [reflexivity|]); apply pretty_N_digits.
Qed.

Lemma search_fy_digits text ds :
  Re.search_fy text = Some ds →
  Str.all isdecimal ds = true ∧ (2 ≤ String.length ds ≤ 4)%nat.
Proof.
  intros (pre & (f & y & ws & post & _ & _ & _ & _ & ? & ? & _) & _)
    %search_fy_first. done.
Qed.

Lemma search_quarter_digit text d :
  Re.search_quarter text = Some d → isdecimal d = true.
Proof.
  intros (pre & (q & post & _ & _ & ?) & _)%search_quarter_first. done.
Qed.

End ResolvedPeriod.

(** C5, as the code has it.  The result is always fully resolved: the
    quarter is the letter Q and one decimal digit, the fiscal year is the
    letters FY and a non-empty run of decimal digits.  The quarter is one of
    Q1, Q2, Q3 and Q4 unless the text carries both markers and the digit of
    its leftmost quarter marker is none of 1, 2, 3 and 4: without both
    markers the period comes from the date string or from the clock and its
    quarter is one of the four; with both markers the quarter is Q and the
    digit of the leftmost quarter marker, one of the four exactly when that
    digit is one of 1, 2, 3 and 4. *)
Theorem determine_quarter_fy_resolved now date_str text :
  (∃ d, isdecimal d = true
        ∧ (determine_quarter_fy now date_str text).1 = "Q" +:+ String d "")
  ∧ (∃ digits, Str.all isdecimal digits = true ∧ digits ≠ ""
        ∧ (determine_quarter_fy now date_str text).2 = "FY" +:+ digits)
  ∧ (¬ has_both_markers text →
       (determine_quarter_fy now date_str text).1 ∈ ["Q1"; "Q2"; "Q3"; "Q4"])
  ∧ (∀ d, has_both_markers text → first_quarter_marker text d →
       (determine_quarter_fy now date_str text).1 = "Q" +:+ String d ""
       ∧ ((determine_quarter_fy now date_str text).1
            ∈ ["Q1"; "Q2"; "Q3"; "Q4"]
          ↔ d ∈ ["1"; "2"; "3"; "4"]%char)).
Proof.
  assert (∀ m y, ∃ d, isdecimal d = true
                      ∧ (fiscal_period m y).1 = "Q" +:+ String d "") as Hq.
  { intros m y. unfold fiscal_period.
    repeat case_match; simpl;
      [by exists "1"%char|by exists "2"%char|by exists "3"%char
      |by exists "4"%char]. }
  assert (∀ m y, ∃ digits, Str.all isdecimal digits = true ∧ digits ≠ ""
                      ∧ (fiscal_period m y).2 = "FY" +:+ digits) as Hfy.
  { intros m y.
    destruct (fiscal_period_shape m y) as (_ & digits & ? & ? & ?). eauto. }
  assert (∀ d, "Q" +:+ String d "" ∈ ["Q1"; "Q2"; "Q3"; "Q4"]
               ↔ d ∈ ["1"; "2"; "3"; "4"]%char) as Hin.
  { intros d. change ("Q" +:+ String d "") with (String "Q" (String d "")).
    rewrite !elem_of_cons, !elem_of_nil.
    split; intros [H|[H|[H|[H|[]]]]];
      first [injection H as ->|subst d]; auto. }
  assert (∀ d, has_both_markers text → first_quarter_marker text d →
               ∃ ds, Re.search_quarter text = Some d
                     ∧ Re.search_fy text = Some ds) as Hboth.
  { intros d [_ (pre & ds & [ds' Hds]%fy_marker_first)] Hd.
    exists ds'. split; [by apply search_quarter_first|].
    by apply search_fy_first. }
  unfold determine_quarter_fy.
  destruct (Re.search_quarter text) as [d|] eqn:Hsq;
    [destruct (Re.search_fy text) as [ds|] eqn:Hsfy|].
  - split; [|split; [|split]].
    + exists d. split; [|done]. by eapply search_quarter_digit.
    + destruct (search_fy_digits _ _ Hsfy) as [Hds Hlen]. simpl.
      destruct (Nat.eqb_spec (String.length ds) 2).
      * exists ("20" +:+ ds). repeat split; [|done]. simpl. exact Hds.
      * exists ds. repeat split; [done|]. intros ->. simpl in Hlen. lia.
    + intros Hno%not_both_markers. destruct Hno; congruence.
    + intros d' Hb Hd'. destruct (Hboth d' Hb Hd') as (? & [= ->] & _).
      split; [done|]. apply Hin.
  - split; [|split; [|split]].
    + case_match; auto.
    + case_match; auto.
    + intros _. case_match; apply fiscal_period_shape.
    + intros d' Hb Hd'. destruct (Hboth d' Hb Hd') as (? & _ & [=]).
  - split; [|split; [|split]].
    + case_match; auto.
    + case_match; auto.
    + intros _. case_match; apply fiscal_period_shape.
    + intros d' Hb Hd'. destruct (Hboth d' Hb Hd') as (? & [=] & _).
Qed.

Lemma determine_quarter_fy_resolved_witness :
  (determine_quarter_fy {| year := 2026; month := 11; day := 3 |}
     "" "Acme FY24").1 ∈ ["Q1"; "Q2"; "Q3"; "Q4"]
  ∧ ((determine_quarter_fy {| year := 2026; month := 11; day := 3 |}
        "15-07-2024" "Acme Q2 FY24").1 = "Q2"
     ∧ ((determine_quarter_fy {| year := 2026; month := 11; day := 3 |}
           "15-07-2024" "Acme Q2 FY24").1 ∈ ["Q1"; "Q2"; "Q3"; "Q4"]
        ↔ "2"%char ∈ ["1"; "2"; "3"; "4"]%char)).
Proof.
  split.
  - apply (determine_quarter_fy_resolved
             {| year := 2026; month := 11; day := 3 |} "" "Acme FY24").
    intros [(pre & d & Hq) _].
    apply (proj1 (search_quarter_None "Acme FY24")) in Hq; [done|].
    vm_compute. reflexivity.
  - apply (determine_quarter_fy_resolved
             {| year := 2026; month := 11; day := 3 |}
             "15-07-2024" "Acme Q2 FY24").
    + split.
      * exists "Acme ", "2"%char, "Q"%char, " FY24". repeat split; auto.
      * exists "Acme Q2 ", "24", "F"%char, "Y"%char, "", "".
        repeat split; auto; simpl; lia.
    + apply search_quarter_first. vm_compute. reflexivity.
Defined.

(** A text with the markers [Q7] and [FY2024] resolves to the quarter [Q7],
    which is none of Q1, Q2, Q3 and Q4. *)
Lemma determine_quarter_fy_quarter_counterexample :
  determine_quarter_fy {| year := 2026; month := 11; day := 3 |}
    "15-07-2024" "Acme Q7 FY2024" = ("Q7", "FY2024")
  ∧ "Q7" ∉ ["Q1"; "Q2"; "Q3"; "Q4"].
Proof.
  split; [vm_compute; reflexivity|].
  rewrite !elem_of_cons, elem_of_nil. intros [?|[?|[?|[?|[]]]]]; discriminate.
Qed.

(** ** Which format parses a date string *)

Section Formats.

Import Re.
Implicit Types (s m r : string) (fmt : format) (d acc : date).

Lemma match_branch_app b s m r :
  match_branch b s = Some (m, r) → s = m +:+ r.
Proof.
  revert s m r. induction b as [|cls b IH]; intros s m r; simpl.
  - by intros [= <- <-].
  - destruct s as [|c s]; [done|]. destruct (cls c); [|done].
    destruct (match_branch b s) as [[m' r']|] eqn:Hb; [|done].
    intros [= <- <-]. by rewrite app_cons, (IH _ _ _ Hb).
Qed.

Lemma first_branch_Some {A} bs s (k : string → string → option A) a :
  first_branch bs s k = Some a →
  ∃ b m r, b ∈ bs ∧ match_branch b s = Some (m, r) ∧ k m r = Some a.
Proof.
  induction bs as [|b bs IH]; simpl; [done|].
  destruct (match_branch b s) as [[m r]|] eqn:Hb.
  - destruct (k m r) as [a'|] eqn:Hk.
    + intros [= ->]. exists b, m, r. split; [left|done].
    + intros (b' & m' & r' & ? & ?)%IH. exists b', m', r'.
      split; [by right|done].
  - intros (b' & m' & r' & ? & ?)%IH. exists b', m', r'.
    split; [by right|done].
Qed.

Lemma kinds_app s t : kinds (s +:+ t) = kinds s ++ kinds t.
Proof.
  induction s as [|c s IH]; [done|]. rewrite app_cons. simpl. by rewrite IH.
Qed.

Lemma one_of_digit lo hi c :
  isdecimal lo = true → isdecimal hi = true →
  one_of lo hi c = true → isdecimal c = true.
Proof.
  unfold one_of, isdecimal, between.
  rewrite !andb_true_iff, !N.leb_le. lia.
Qed.

Lemma kind_of_digit c : isdecimal c = true → kind_of c = K_digit.
Proof. unfold kind_of. by intros ->. Qed.

Lemma kind_of_chr x c : chr x c = true → kind_of c = kind_of x.
Proof. unfold chr. by intros ->%Ascii.eqb_eq. Qed.

(** a character class of the formats fixes the kind of the character *)
Ltac class_kind :=
  match goal with
  | H : chr _ ?c = true |- context [kind_of ?c] =>
      rewrite (kind_of_chr _ c H)
  | H : isdecimal ?c = true |- context [kind_of ?c] =>
      rewrite (kind_of_digit c H)
  | H : one_of ?lo ?hi ?c = true |- context [kind_of ?c] =>
      rewrite (kind_of_digit c (one_of_digit lo hi c eq_refl eq_refl H))
  end.

Ltac branch_case :=
  intros s m r; cbn [match_branch];
  repeat match goal with
  | |- context [match ?x with EmptyString => _ | String _ _ => _ end] =>
      is_var x; destruct x; [done|]
  | |- context [if ?cls ?c then _ else _] =>
      let H := fresh "Hc" in destruct (cls c) eqn:H; [|done]
  end;
  intros [= <- <-]; cbn [kinds]; repeat class_kind; reflexivity.

Lemma branch_kinds_sound (dir : directive) :
  Forall2 (λ b ks, ∀ s m r, match_branch b s = Some (m, r) → kinds m = ks)
    (branches dir) (branch_kinds dir).
Proof.
  destruct dir; cbn [branches branch_kinds];
    repeat (constructor 2; [|]); try constructor 1; branch_case.
Qed.

Lemma match_format_shape fmt s acc d r :
  match_format fmt s acc = Some (d, r) →
  ∃ m, s = m +:+ r ∧ kinds m ∈ shapes fmt.
Proof.
  revert s acc. induction fmt as [|dir fmt IH]; intros s acc; simpl.
  - intros [= <- <-]. exists "". split; [done|]. by left.
  - intros (b & m1 & r1 & Hb & Hm & Hk)%first_branch_Some.
    apply IH in Hk as (m2 & -> & Hin).
    exists (m1 +:+ m2). split.
    + by rewrite app_assoc', <- (match_branch_app _ _ _ _ Hm).
    + apply list_elem_of_lookup in Hb as [i Hi].
      destruct (Forall2_lookup_l _ _ _ _ _ (branch_kinds_sound dir) Hi)
        as (ks & Hks & Hsound).
      rewrite kinds_app, (Hsound _ _ _ Hm).
      apply list_elem_of_In, in_flat_map. exists ks. split.
      * apply list_elem_of_In. by eapply list_elem_of_lookup_2.
      * apply in_map, list_elem_of_In, Hin.
Qed.

Lemma strptime_shape s fmt d :
  strptime s fmt = Some d → kinds s ∈ shapes fmt.
Proof.
  unfold strptime.
  destruct (match_format fmt s _) as [[d' [|? ?]]|] eqn:Hm; try done.
  intros _. apply match_format_shape in Hm as (m & -> & Hin).
  revert Hin. replace (m +:+ "") with m; [done|].
  clear. induction m as [|c m IH]; [done|]. by rewrite app_cons, <- IH.
Qed.

(** formats without a common shape never parse the same string *)
Lemma strptime_disjoint f1 f2 s d :
  disjoint_shapes f1 f2 = true →
  strptime s f1 = Some d → strptime s f2 = None.
Proof.
  intros Hdis H1. destruct (strptime s f2) as [d2|] eqn:H2; [|done].
  apply strptime_shape in H1, H2.
  unfold disjoint_shapes in Hdis. rewrite forallb_forall in Hdis.
  apply list_elem_of_In, Hdis in H1.
  apply negb_true_iff, bool_decide_eq_false in H1. done.
Qed.

End Formats.

(** ** What a parsed date is made of *)

Section Fields.

Import Re.

Lemma match_lit c s m r :
  match_branch [chr c] s = Some (m, r) → m = String c "" ∧ s = String c r.
Proof.
  cbn [match_branch]. destruct s as [|c' s]; [done|].
  destruct (chr c c') eqn:Hc; [|done]. intros [= <- <-].
  apply Ascii.eqb_eq in Hc as <-. done.
Qed.

Ltac next_group H :=
  cbn [match_format] in H;
  let Hb := fresh "Hb" in
  let Hm := fresh "Hm" in
  apply first_branch_Some in H as (? & ? & ? & Hb & Hm & H);
  first [ cbn [branches] in Hb; apply list_elem_of_singleton in Hb as ->;
          apply match_lit in Hm as [-> ->]
        | apply match_branch_app in Hm as -> ].

(** a string that [%d<sep>%m<sep>%Y] parses is a day, the separator, a
    month, the separator and a year, and the date has their values *)
Lemma strptime_dmY s sep d :
  strptime s [dir_d; lit sep; dir_m; lit sep; dir_Y] = Some d →
  ∃ D M Y, s = D +:+ String sep (M +:+ String sep Y)
    ∧ day d = int D ∧ month d = int M ∧ year d = int Y.
Proof.
  unfold strptime.
  destruct (match_format _ s _) as [[d' [|? ?]]|] eqn:Hm; try done.
  destruct (valid_date d'); [|done]. intros [= <-].
  do 5 next_group Hm. injection Hm as <- ->.
  eexists _, _, _. split; [|done].
  by rewrite app_empty_r.
Qed.

(** the same for the ISO format *)
Lemma strptime_Ymd s sep d :
  strptime s [dir_Y; lit sep; dir_m; lit sep; dir_d] = Some d →
  ∃ Y M D, s = Y +:+ String sep (M +:+ String sep D)
    ∧ day d = int D ∧ month d = int M ∧ year d = int Y.
Proof.
  unfold strptime.
  destruct (match_format _ s _) as [[d' [|? ?]]|] eqn:Hm; try done.
  destruct (valid_date d'); [|done]. intros [= <-].
  do 5 next_group Hm. injection Hm as <- ->.
  eexists _, _, _. split; [|done].
  by rewrite app_empty_r.
Qed.

(** and for a two-digit year, read in the century [%y] gives it *)
Lemma strptime_dmy s sep d :
  strptime s [dir_d; lit sep; dir_m; lit sep; dir_y] = Some d →
  ∃ D M Y, s = D +:+ String sep (M +:+ String sep Y)
    ∧ day d = int D ∧ month d = int M
    ∧ year d = if int Y <=? 68 then int Y + 2000 else int Y + 1900.
Proof.
  unfold strptime.
  destruct (match_format _ s _) as [[d' [|? ?]]|] eqn:Hm; try done.
  destruct (valid_date d'); [|done]. intros [= <-].
  do 5 next_group Hm. injection Hm as <- ->.
  eexists _, _, _. split; [|done].
  by rewrite app_empty_r.
Qed.

(** the year of [%y] written out on its two digits *)
Lemma strptime_dmy_digits s sep d :
  strptime s [dir_d; lit sep; dir_m; lit sep; dir_y] = Some d →
  ∃ D M y1 y2,
    s = D +:+ String sep (M +:+ String sep (String y1 (String y2 "")))
    ∧ 48 ≤ N_of_ascii y1 ≤ 57 ∧ 48 ≤ N_of_ascii y2 ≤ 57
    ∧ year d
      = let yy := 10 * (N_of_ascii y1 - 48) + (N_of_ascii y2 - 48) in
        if yy <=? 68 then 2000 + yy else 1900 + yy.
Proof.
  unfold strptime.
  destruct (match_format _ s _) as [[d' [|? ?]]|] eqn:Hm; try done.
  destruct (valid_date d'); [|done]. intros [= <-].
  do 4 next_group Hm.
  cbn [match_format] in Hm.
  apply first_branch_Some in Hm as (b & m & r & Hby & Hmb & Hm).
  cbn [branches] in Hby. apply list_elem_of_singleton in Hby as ->.
  injection Hm as <- ->.
  cbn [match_branch] in Hmb.
  match type of Hmb with
  | match ?t with _ => _ end = _ => destruct t as [|y1 [|y2 rest]] eqn:Ht
  end; try done.
  { by destruct (isdecimal y1). }
  destruct (isdecimal y1) eqn:H1; [|done].
  destruct (isdecimal y2) eqn:H2; [|done].
  injection Hmb as <- ->.
  eexists _, _, y1, y2. split; [by rewrite Ht|].
  assert (∀ c, isdecimal c = true → 48 ≤ N_of_ascii c ≤ 57) as Hdig.
  { intros c. unfold isdecimal, between, code.
    rewrite andb_true_iff, !N.leb_le. lia. }
  split; [by apply Hdig|]. split; [by apply Hdig|].
  unfold convert, int. cbn [year int_from]. rewrite H1, H2. cbn [int_from].
  unfold digit_value, code. cbv zeta.
  replace (10 * (10 * 0 + (N_of_ascii y1 - 48)) + (N_of_ascii y2 - 48))
    with (10 * (N_of_ascii y1 - 48) + (N_of_ascii y2 - 48)) by lia.
  destruct (_ <=? 68); lia.
Qed.

End Fields.

Section TwoDigitYears.

Import Re.
Implicit Types (s m r : string) (fmt : format) (d acc : date).

Lemma digit_value_le c : isdecimal c = true → digit_value c ≤ 9.
Proof.
  unfold isdecimal, between, digit_value.
  rewrite andb_true_iff, !N.leb_le. lia.
Qed.

(** [%y] reads its two digits in 1969..2068 *)
Lemma convert_y_year m r s acc :
  match_branch [isdecimal; isdecimal] s = Some (m, r) →
  1969 ≤ year (convert dir_y m acc) ≤ 2068.
Proof.
  cbn [match_branch]. destruct s as [|c1 [|c2 s]]; try done.
  - by destruct (isdecimal c1).
  - destruct (isdecimal c1) eqn:H1; [|done].
    destruct (isdecimal c2) eqn:H2; [|done].
    intros [= <- <-]. unfold convert, int. cbn [year int_from].
    rewrite H1, H2. cbn [int_from].
    pose proof (digit_value_le c1 H1). pose proof (digit_value_le c2 H2).
    destruct (N.leb_spec (10 * (10 * 0 + digit_value c1) + digit_value c2) 68);
      lia.
Qed.

Lemma match_format_last_y fmt s acc d r :
  match_format (fmt ++ [dir_y]) s acc = Some (d, r) →
  1969 ≤ year d ≤ 2068.
Proof.
  revert s acc. induction fmt as [|dir fmt IH]; intros s acc;
    cbn [app match_format];
    intros (b & m1 & r1 & Hb & Hm & Hk)%first_branch_Some.
  - injection Hk as <- <-. cbn [branches] in Hb.
    apply list_elem_of_singleton in Hb as ->. by eapply convert_y_year.
  - by eapply IH.
Qed.

Lemma strptime_y_year s fmt d :
  strptime s (fmt ++ [dir_y]) = Some d → 1969 ≤ year d ≤ 2068.
Proof.
  unfold strptime.
  destruct (match_format _ s _) as [[d' [|? ?]]|] eqn:Hm; try done.
  destruct (valid_date d'); [|done]. intros [= <-].
  by eapply match_format_last_y.
Qed.

End TwoDigitYears.

(** C10, as the code has it.  A date string in day-month order with a
    two-digit year, one that [%d-%m-%y] or [%d/%m/%y] parses, is rejected by
    the two four-digit-year formats and by the ISO format, because [%Y]
    takes exactly four digits; the two-digit-year format is reached.  The
    string ends in the separator and two digits yy, and the year read is
    2000 + yy when yy is at most 68 and 1900 + yy otherwise, a year in
    1969..2068; without both markers in the text the period is the one of
    that date.  So "01-02-23" is the first of February 2023, in Q4 of
    FY2023, and "31/12/99" is in 1999, in Q3 of FY2000. *)
Theorem two_digit_year_reaches_its_format date_str d :
  strptime date_str fmt_dmy_dash = Some d
  ∨ strptime date_str fmt_dmy_slash = Some d →
  strptime date_str fmt_dmY_dash = None
  ∧ strptime date_str fmt_dmY_slash = None
  ∧ strptime date_str fmt_Ymd_dash = None
  ∧ first_parse date_formats date_str = Some d
  ∧ 1969 ≤ year d ≤ 2068
  ∧ (∀ now text, ¬ has_both_markers text →
      determine_quarter_fy now date_str text
      = fiscal_period (month d) (year d))
  ∧ (∃ D M sep y1 y2,
      date_str = D +:+ String sep (M +:+ String sep (String y1 (String y2 "")))
      ∧ (sep = "-" ∨ sep = "/")%char
      ∧ 48 ≤ N_of_ascii y1 ≤ 57 ∧ 48 ≤ N_of_ascii y2 ≤ 57
      ∧ year d
        = let yy := 10 * (N_of_ascii y1 - 48) + (N_of_ascii y2 - 48) in
          if yy <=? 68 then 2000 + yy else 1900 + yy)
  ∧ (∀ now, determine_quarter_fy now "01-02-23" "" = ("Q4", "FY2023"))
  ∧ (∀ now, determine_quarter_fy now "31/12/99" "" = ("Q3", "FY2000")).
Proof.
  intros Hp.
  assert (strptime date_str fmt_dmY_dash = None
          ∧ strptime date_str fmt_dmY_slash = None
          ∧ strptime date_str fmt_Ymd_dash = None
          ∧ first_parse date_formats date_str = Some d) as (H1 & H2 & H3 & H4).
  { destruct Hp as [Hp|Hp].
    - pose proof (strptime_disjoint fmt_dmy_dash fmt_dmY_dash _ _ eq_refl Hp) as H1.
      pose proof (strptime_disjoint fmt_dmy_dash fmt_dmY_slash _ _ eq_refl Hp) as H2.
      pose proof (strptime_disjoint fmt_dmy_dash fmt_Ymd_dash _ _ eq_refl Hp) as H3.
      repeat split; try done.
      unfold date_formats. cbn [first_parse]. by rewrite H1, H2, H3, Hp.
    - pose proof (strptime_disjoint fmt_dmy_slash fmt_dmY_dash _ _ eq_refl Hp) as H1.
      pose proof (strptime_disjoint fmt_dmy_slash fmt_dmY_slash _ _ eq_refl Hp) as H2.
      pose proof (strptime_disjoint fmt_dmy_slash fmt_Ymd_dash _ _ eq_refl Hp) as H3.
      pose proof (strptime_disjoint fmt_dmy_slash fmt_dmy_dash _ _ eq_refl Hp) as H4.
      repeat split; try done.
      unfold date_formats. cbn [first_parse]. by rewrite H1, H2, H3, H4, Hp. }
  split; [done|]. split; [done|]. split; [done|]. split; [done|].
  split; [|split; [|split; [|split]]].
  - destruct Hp as [Hp|Hp];
      apply (strptime_y_year _ [dir_d; lit _; dir_m; lit _] _ Hp).
  - intros now text Hno%not_both_markers.
    by apply determine_quarter_fy_parsed.
  - destruct Hp as [Hp|Hp];
      apply strptime_dmy_digits in Hp as (D & M & y1 & y2 & -> & ? & ? & ?);
      eexists D, M, _, y1, y2; (split; [reflexivity|]); auto.
  - intros now. reflexivity.
  - intros now. reflexivity.
Qed.

Lemma two_digit_year_reaches_its_format_witness :
  first_parse date_formats "31/12/99"
  = Some {| year := 1999; month := 12; day := 31 |}
  ∧ ∃ D M sep y1 y2,
      "31/12/99" = D +:+ String sep (M +:+ String sep (String y1 (String y2 "")))
      ∧ (sep = "-" ∨ sep = "/")%char
      ∧ 48 ≤ N_of_ascii y1 ≤ 57 ∧ 48 ≤ N_of_ascii y2 ≤ 57
      ∧ 1999
        = let yy := 10 * (N_of_ascii y1 - 48) + (N_of_ascii y2 - 48) in
          if yy <=? 68 then 2000 + yy else 1900 + yy.
Proof.
  split.
  - apply (two_digit_year_reaches_its_format "31/12/99"
             {| year := 1999; month := 12; day := 31 |}).
    right. vm_compute. reflexivity.
  - apply (two_digit_year_reaches_its_format "31/12/99"
             {| year := 1999; month := 12; day := 31 |}).
    right. vm_compute. reflexivity.
Defined.

(** For "01-02-23" the four-digit-year format does not accept the value: the
    format [%d-%m-%y] is reached, the calendar year is 2023 and the period
    is Q4 of FY2023, neither FY23 nor FY24. *)
Lemma two_digit_year_counterexample :
  strptime "01-02-23" fmt_dmY_dash = None
  ∧ strptime "01-02-23" fmt_dmy_dash
    = Some {| year := 2023; month := 2; day := 1 |}
  ∧ determine_quarter_fy {| year := 2026; month := 11; day := 3 |}
      "01-02-23" "" = ("Q4", "FY2023").
Proof. repeat split; vm_compute; reflexivity. Qed.

(** ** Two-digit fiscal years *)

(** C4, as the code has it.  When the text carries a quarter marker and its
    leftmost fiscal-year marker has two digits, the resolver returns the
    fiscal year with [20] put before the two digits, whatever the date
    string and the clock are; for the text "Acme Corp Q2 FY24 Transcript
    15-07-2024" the resolver returns Q2 and FY2024. *)
Theorem determine_quarter_fy_two_digit_year text pre d ds :
  quarter_marker_at text pre d →
  first_fy_marker text ds →
  String.length ds = 2%nat →
  (∀ now date_str,
     (determine_quarter_fy now date_str text).2 = "FY20" +:+ ds)
  ∧ ∀ now date_str,
      determine_quarter_fy now date_str
        "Acme Corp Q2 FY24 Transcript 15-07-2024" = ("Q2", "FY2024").
Proof.
  intros [d' Hq]%quarter_marker_first Hfy%search_fy_first Hlen. split.
  - intros now date_str. unfold determine_quarter_fy.
    apply search_quarter_first in Hq. rewrite Hq, Hfy, Hlen. reflexivity.
  - intros now date_str. reflexivity.
Qed.

Lemma determine_quarter_fy_two_digit_year_witness :
  (determine_quarter_fy {| year := 2026; month := 11; day := 3 |}
     "15-07-2022" "Beta q1 fy 25").2 = "FY2025".
Proof.
  apply (determine_quarter_fy_two_digit_year "Beta q1 fy 25" "Beta " "1" "25").
  - exists "q"%char, " fy 25". repeat split; auto.
  - apply search_fy_first. vm_compute. reflexivity.
  - reflexivity.
Defined.

(** A text with the marker [FY24] and no quarter marker: the fiscal year
    comes from the date string, here FY2023.  And the descriptor extracted
    from the row "Acme Corp Q2 FY24 Transcript 15-07-2024" carries the hint
    FY24, which wins over the resolver in the pipeline: the run files it
    under the folder FY24. *)
Lemma two_digit_year_not_expanded_counterexample :
  fy_marker_at "Acme FY24 results" "Acme " "24"
  ∧ determine_quarter_fy {| year := 2026; month := 11; day := 3 |}
      "15-07-2022" "Acme FY24 results" = ("Q2", "FY2023")
  ∧ parse_transcript_row
      {| row_hrefs := ["/company/ACME/"; "/files/acme-q2.pdf"];
         row_text := "Acme Corp Q2 FY24 Transcript 15-07-2024" |} = Some acme
  ∧ period_of (example_world 2026 11) acme = ("Q2", "FY24")
  ∧ file_name <$> files (download_and_upload_transcripts
                           (example_world 2026 11) [acme] empty_drive).1
    = ["FY24"; "Q2"; "Acme Corp - FY24 Q2 Transcript.pdf"].
Proof.
  split; [|repeat split; vm_compute; reflexivity].
  exists "F"%char, "Y"%char, "", " results". repeat split; auto; simpl; lia.
Qed.

(** ** The URL of an extracted descriptor *)

Section DescriptorUrl.

Lemma site_root_http s : Str.startswith "http" (site_root +:+ s) = true.
Proof. reflexivity. Qed.

(** a descriptor of [parse_transcript_row] has an absolute URL *)
Lemma parse_transcript_row_url_absolute r t :
  parse_transcript_row r = Some t →
  ∃ u, t !! "pdf_url" = Some u ∧ Str.startswith "http" u = true.
Proof.
  unfold parse_transcript_row.
  destruct (List.find is_document_link (row_hrefs r)) as [href|]; [|done].
  destruct (negb (Str.truthy href)); [done|]. intros [= <-].
  eexists. split.
  - rewrite lookup_insert_ne by done. apply lookup_insert_eq.
  - destruct (Str.startswith "/" href); [apply site_root_http|].
    destruct (Str.startswith "http" href) eqn:Hh; cbn [negb];
      [exact Hh|apply site_root_http].
Qed.

(** a root-relative or absolute link of a company page gives an absolute
    URL as well *)
Lemma company_link_descriptor_url_absolute a t :
  Str.startswith "http" (href a) = true ∨ Str.startswith "/" (href a) = true →
  company_link_descriptor a = Some t →
  ∃ u, t !! "pdf_url" = Some u ∧ Str.startswith "http" u = true.
Proof.
  unfold company_link_descriptor. intros Hre.
  case_match; [|done]. intros [= <-].
  eexists. split; [apply lookup_insert_eq|].
  destruct (Str.startswith "http" (href a)) eqn:Hh; cbn [negb]; [exact Hh|].
  destruct Hre as [Hr|Hr]; [congruence|]. rewrite Hr. apply site_root_http.
Qed.

End DescriptorUrl.

(** the extraction on the row of the specification's example *)
Example parse_acme_row :
  acme !! "company" = Some "Acme Corp"
  ∧ acme !! "quarter" = Some "Q2"
  ∧ acme !! "fiscal_year" = Some "FY24"
  ∧ acme !! "date" = Some "15-07-2024"
  ∧ acme !! "pdf_url" = Some "https://www.screener.in/files/acme-q2.pdf".
Proof. repeat split; vm_compute; reflexivity. Qed.

Example parse_row_without_document :
  parse_transcript_row
    {| row_hrefs := ["/company/ACME/"]; row_text := "Acme Corp" |} = None.
Proof. reflexivity. Qed.

Example filename_is_sanitized :
  filename_of "A/B: Corp*" "FY2024" "Q2" = "AB Corp - FY2024 Q2 Transcript.pdf".
Proof. vm_compute. reflexivity. Qed.

(** C6 at the input that breaks it.  On a company page, a link whose target
    is neither absolute nor root-relative is stored as it is:
    [get_company_transcripts] gives a descriptor whose URL is the relative
    "docs/transcript-q1.pdf", which does not start with "http". *)
Theorem get_company_transcripts_relative_url :
  ∃ t,
    get_company_transcripts
      (Some [ {| href := "docs/transcript-q1.pdf";
                 anchor_text := "Concall Q1 FY2024" |} ]) = [t]
    ∧ t !! "pdf_url" = Some "docs/transcript-q1.pdf"
    ∧ Str.startswith "http" "docs/transcript-q1.pdf" = false.
Proof.
  eexists. split; [reflexivity|]. split; [|reflexivity].
  vm_compute. reflexivity.
Qed.

(** ** The listing crawlers: where they stop *)

Section Crawl.

Local Open Scope nat_scope.

Lemma is_empty_true {A} (l : list A) : is_empty l = true ↔ l = [].
Proof. by destruct l. Qed.

Lemma seq_from p k : p ≤ k → seq p (S k - p) = p :: seq (S p) (S k - S p).
Proof. intros. by replace (S k - p) with (S (S k - S p)) by lia. Qed.

(** From page [p] the transcript crawl requests the pages up to the first
    one where it stops, and collects the rows of all of them. *)
Lemma scrape_loop_spec site fuel p ts req :
  1 ≤ p ≤ 200 → 201 - p ≤ fuel →
  ∃ k, p ≤ k ≤ 200
    ∧ scrape_loop fuel site p ts req
      = Some (ts ++ scraped site p k, req ++ seq p (S k - p))
    ∧ scrape_stops site k
    ∧ ∀ j, p ≤ j < k → ¬ scrape_stops site j.
Proof.
  revert p ts req. induction fuel as [|fuel IH]; intros p ts req Hp Hfuel;
    [lia|].
  cbn [scrape_loop]. cbv zeta.
  assert (seq p (S p - p) = [p]) as Hone
    by (by replace (S p - p) with 1 by lia).
  destruct (is_empty (listing_rows (site p))) eqn:Hrows.
  { apply is_empty_true in Hrows. exists p. split; [lia|].
    unfold scraped. rewrite Hone. cbn [flat_map]. rewrite Hrows.
    cbn [omap]. rewrite !app_nil_r. repeat split.
    - by left.
    - intros j ?; lia. }
  assert (listing_rows (site p) ≠ []) as Hne
    by (intros Hnil%is_empty_true; congruence).
  destruct (has_next (site p)) eqn:Hnext; cbn [negb].
  2:{ exists p. split; [lia|]. unfold scraped. rewrite Hone.
      cbn [flat_map]. rewrite app_nil_r. repeat split.
      - right. by left.
      - intros j ?; lia. }
  destruct (Nat.ltb_spec 200 (p + 1)) as [Hcap|Hcap].
  { exists p. split; [lia|]. unfold scraped. rewrite Hone.
    cbn [flat_map]. rewrite app_nil_r. repeat split.
    - right. right. lia.
    - intros j ?; lia. }
  destruct (IH (p + 1) (ts ++ omap parse_transcript_row (listing_rows (site p)))
              (req ++ [p])) as (k & Hk & Hrun & Hstop & Hmin); [lia|lia|].
  exists k. split; [lia|]. rewrite Hrun. repeat split.
  - unfold scraped. rewrite (seq_from p k) by lia.
    replace (p + 1) with (S p) by lia. cbn [flat_map].
    by rewrite <- !(assoc_L (++)).
  - done.
  - intros j Hj [Hs|[Hs|Hs]].
    + destruct (decide (j = p)) as [->|]; [done|].
      apply (Hmin j); [lia|by left].
    + destruct (decide (j = p)) as [->|]; [congruence|].
      apply (Hmin j); [lia|right; by left].
    + lia.
Qed.

Lemma companies_loop_spec site fuel p cs req :
  1 ≤ p ≤ 100 → 101 - p ≤ fuel →
  ∃ k, p ≤ k ≤ 100
    ∧ companies_loop fuel site p cs req
      = Some (cs ++ listed site p k, req ++ seq p (S k - p))
    ∧ companies_stop site k
    ∧ ∀ j, p ≤ j < k → ¬ companies_stop site j.
Proof.
  revert p cs req. induction fuel as [|fuel IH]; intros p cs req Hp Hfuel;
    [lia|].
  cbn [companies_loop]. cbv zeta.
  assert (seq p (S p - p) = [p]) as Hone
    by (by replace (S p - p) with 1 by lia).
  destruct (is_empty (company_links (site p))) eqn:Hrows.
  { apply is_empty_true in Hrows. exists p. split; [lia|].
    unfold listed. rewrite Hone. cbn [flat_map]. rewrite Hrows.
    cbn [omap]. rewrite !app_nil_r. repeat split.
    - by left.
    - intros j ?; lia. }
  assert (company_links (site p) ≠ []) as Hne
    by (intros Hnil%is_empty_true; congruence).
  destruct (negb (next_button (site p)) && (50 <? p)) eqn:Hsoft.
  { apply andb_true_iff in Hsoft as [Hnb Hp50].
    apply negb_true_iff in Hnb. apply Nat.ltb_lt in Hp50.
    exists p. split; [lia|]. unfold listed. rewrite Hone.
    cbn [flat_map]. rewrite app_nil_r. repeat split.
    - right. by left.
    - intros j ?; lia. }
  destruct (Nat.ltb_spec 100 (p + 1)) as [Hcap|Hcap].
  { exists p. split; [lia|]. unfold listed. rewrite Hone.
    cbn [flat_map]. rewrite app_nil_r. repeat split.
    - right. right. lia.
    - intros j ?; lia. }
  destruct (IH (p + 1) (cs ++ omap company_of_link (company_links (site p)))
              (req ++ [p])) as (k & Hk & Hrun & Hstop & Hmin); [lia|lia|].
  exists k. split; [lia|]. rewrite Hrun. repeat split.
  - unfold listed. rewrite (seq_from p k) by lia.
    replace (p + 1) with (S p) by lia. cbn [flat_map].
    by rewrite <- !(assoc_L (++)).
  - done.
  - intros j Hj [Hs|[[Hs Hj50]|Hs]].
    + destruct (decide (j = p)) as [->|]; [done|].
      apply (Hmin j); [lia|by left].
    + destruct (decide (j = p)) as [->|].
      * apply andb_false_iff in Hsoft as [Hsoft|Hsoft].
        -- apply negb_false_iff in Hsoft. congruence.
        -- apply Nat.ltb_ge in Hsoft. lia.
      * apply (Hmin j); [lia|right; by left].
    + lia.
Qed.

End Crawl.

(** C7, as the code has it.  The transcript crawl requests the pages 1, 2,
    ... in order and collects their rows; the last page it requests is the
    first page that yields no row, or that has no next-page link, or page
    200: a missing link does stop it.  The company crawl stops at the first
    page that has no company link, or that has no next button and a number
    above 50, or page 100: up to page 50 a missing button does not stop
    it. *)
Theorem crawl_stop_conditions (listing : nat → listing_page)
    (screen : nat → company_page) (fuel : nat) :
  (200 ≤ fuel)%nat →
  (∃ k, (1 ≤ k ≤ 200)%nat
     ∧ scrape_transcripts_page fuel listing
       = Some (scraped listing 1 k, seq 1 k)
     ∧ scrape_stops listing k
     ∧ ∀ j, (1 ≤ j < k)%nat → ¬ scrape_stops listing j)
  ∧ (∃ k, (1 ≤ k ≤ 100)%nat
     ∧ get_all_companies fuel screen
       = Some (unique_by_url ∅ (listed screen 1 k), seq 1 k)
     ∧ companies_stop screen k
     ∧ ∀ j, (1 ≤ j < k)%nat → ¬ companies_stop screen j).
Proof.
  intros Hfuel. split.
  - destruct (scrape_loop_spec listing fuel 1 [] []) as (k & Hk & Hrun & Hs);
      [lia|lia|].
    exists k. split; [done|]. split; [|done].
    unfold scrape_transcripts_page. rewrite Hrun.
    by replace (S k - 1)%nat with k by lia.
  - destruct (companies_loop_spec screen fuel 1 [] []) as (k & Hk & Hrun & Hs);
      [lia|lia|].
    exists k. split; [done|]. split; [|done].
    unfold get_all_companies. rewrite Hrun.
    by replace (S k - 1)%nat with k by lia.
Qed.

Lemma crawl_stop_conditions_witness :
  (∃ k, (1 ≤ k ≤ 200)%nat
     ∧ scrape_transcripts_page 200 one_page_listing
       = Some (scraped one_page_listing 1 k, seq 1 k)
     ∧ scrape_stops one_page_listing k
     ∧ ∀ j, (1 ≤ j < k)%nat → ¬ scrape_stops one_page_listing j)
  ∧ (∃ k, (1 ≤ k ≤ 100)%nat
     ∧ get_all_companies 200 empty_screen
       = Some (unique_by_url ∅ (listed empty_screen 1 k), seq 1 k)
     ∧ companies_stop empty_screen k
     ∧ ∀ j, (1 ≤ j < k)%nat → ¬ companies_stop empty_screen j).
Proof.
  apply (crawl_stop_conditions one_page_listing empty_screen 200). lia.
Defined.

(** The first page has a row and no next-page link, and page 2 has rows as
    well: the crawl requests page 1 only, although that page yielded a row
    and the cap of 200 pages is far. *)
Lemma next_link_stops_counterexample :
  (∃ ts, scrape_transcripts_page 200 one_page_listing = Some (ts, [1%nat]))
  ∧ listing_rows (one_page_listing 1) ≠ []
  ∧ listing_rows (one_page_listing 2) ≠ []
  ∧ has_next (one_page_listing 1) = false.
Proof.
  split; [eexists; vm_compute; reflexivity|]. by repeat split.
Qed.

(** C8, as the code has it.  Whatever the listing source answers, each
    crawl returns, given fuel for its cap, after at most 200 page requests
    for the transcript listing and at most 100 for the company screen; a
    source with rows and a next-page link on every page is requested exactly
    200, respectively 100, times.  A company screen that never shows a next
    button is requested at most 51 times, and exactly 51 times when every
    page has links: the test [page > 50] is made after the page was
    fetched, so page 51 is the first page it can stop at. *)
Theorem crawl_terminates (listing : nat → listing_page)
    (screen : nat → company_page) (fuel_t fuel_c : nat) :
  (200 ≤ fuel_t)%nat → (100 ≤ fuel_c)%nat →
  (∃ ts req, scrape_transcripts_page fuel_t listing = Some (ts, req)
     ∧ (length req ≤ 200)%nat)
  ∧ (∃ cs req, get_all_companies fuel_c screen = Some (cs, req)
     ∧ (length req ≤ 100)%nat
     ∧ ((∀ n, next_button (screen n) = false) → (length req ≤ 51)%nat))
  ∧ ((∀ n, listing_rows (listing n) ≠ [] ∧ has_next (listing n) = true) →
     ∃ ts, scrape_transcripts_page fuel_t listing = Some (ts, seq 1 200))
  ∧ ((∀ n, company_links (screen n) ≠ [] ∧ next_button (screen n) = true) →
     ∃ cs, get_all_companies fuel_c screen = Some (cs, seq 1 100))
  ∧ ((∀ n, company_links (screen n) ≠ [] ∧ next_button (screen n) = false) →
     ∃ cs, get_all_companies fuel_c screen = Some (cs, seq 1 51)).
Proof.
  intros Ht Hc.
  destruct (scrape_loop_spec listing fuel_t 1 [] [])
    as (k & Hk & Hrun & Hstop & Hmin); [lia|lia|].
  destruct (companies_loop_spec screen fuel_c 1 [] [])
    as (k' & Hk' & Hrun' & Hstop' & Hmin'); [lia|lia|].
  unfold scrape_transcripts_page, get_all_companies.
  rewrite Hrun, Hrun'. cbn [app].
  replace (S k - 1)%nat with k by lia. replace (S k' - 1)%nat with k' by lia.
  split; [|split; [|split; [|split]]].
  - eexists _, _. split; [done|]. rewrite length_seq. lia.
  - eexists _, _. split; [done|]. rewrite length_seq. split; [lia|].
    intros Hnever.
    destruct (decide (k' ≤ 51)%nat) as [|Hgt]; [done|].
    destruct (Hmin' 51%nat); [lia|]. right. left. split; [done|lia].
  - intros Hall. eexists.
    destruct Hstop as [Hs|[Hs|Hs]]; [by destruct (Hall k)| |by subst].
    destruct (Hall k). congruence.
  - intros Hall. eexists.
    destruct Hstop' as [Hs|[[Hs _]|Hs]]; [by destruct (Hall k')| |by subst].
    destruct (Hall k'). congruence.
  - intros Hall. eexists.
    assert (50 < k')%nat as Hlo.
    { destruct Hstop' as [Hs|[[_ Hs]|Hs]]; [by destruct (Hall k')|done|lia]. }
    destruct (decide (k' ≤ 51)%nat) as [Hle|Hgt].
    + by replace k' with 51%nat by lia.
    + destruct (Hmin' 51%nat); [lia|]. right. left.
      split; [apply Hall|lia].
Qed.

Lemma crawl_terminates_witness :
  (∃ ts, scrape_transcripts_page 200 endless_listing = Some (ts, seq 1 200))
  ∧ (∃ cs, get_all_companies 100 endless_screen = Some (cs, seq 1 100)).
Proof.
  split.
  - apply (crawl_terminates endless_listing endless_screen 200 100);
      [lia|lia|].
    intros n. split; [discriminate|reflexivity].
  - apply (crawl_terminates endless_listing endless_screen 200 100);
      [lia|lia|].
    intros n. split; [discriminate|reflexivity].
Defined.

(** A company screen whose pages all have a link and never a next button is
    requested 51 times, one page more than the cap of 50 that the loop tests
    for such a screen: the pages 1 to 51 are fetched, and the company of
    page 51 is collected. *)
Lemma get_all_companies_cap_counterexample :
  get_all_companies 100 buttonless_screen
  = Some ([ {| name := "Acme"; url := "https://www.screener.in/company/ACME/" |} ],
          seq 1 51)
  ∧ (∀ n, next_button (buttonless_screen n) = false)
  ∧ (50 < length (seq 1 51))%nat.
Proof.
  split; [vm_compute; reflexivity|]. split; [done|]. vm_compute. lia.
Qed.

(** ** The Drive operations *)

Section DriveOperations.

Local Open Scope nat_scope.
Implicit Types (w : world) (d : drive) (st : stats)
  (fs : list drive_file) (f : drive_file).

Lemma bind_run {A B} (m : M A) (k : A → M B) s :
  (m ≫= k) s = match m s with
               | (s', Val a) => k a s'
               | (s', Raise) => (s', Raise)
               | (s', Continue) => (s', Continue)
               end.
Proof. reflexivity. Qed.

Lemma files_list_run w q d st :
  files_list w q (d, st)
  = if api_fault w (calls d) then ((tick d, st), Raise)
    else ((tick d, st), Val (List.filter q (files d))).
Proof. unfold files_list, api_call. by destruct (api_fault w (calls d)). Qed.

Lemma files_create_run w fname mime parents content d st :
  files_create w fname mime parents content (d, st)
  = if api_fault w (calls d) then ((tick d, st), Raise)
    else let f := {| file_id := new_id w (calls d); file_name := fname;
                     file_mime := mime; file_parents := parents;
                     file_trashed := false; file_content := content |} in
         (({| files := files d ++ [f]; calls := S (calls d) |}, st),
          Val (new_id w (calls d))).
Proof. unfold files_create, api_call. by destruct (api_fault w (calls d)). Qed.

Lemma file_exists_in_drive_run w filename folder_id d st :
  file_exists_in_drive w filename folder_id (d, st)
  = if api_fault w (calls d) then ((tick d, st), Raise)
    else ((tick d, st), Val (has_file (files d) filename folder_id)).
Proof.
  unfold file_exists_in_drive. rewrite bind_run, files_list_run.
  by destruct (api_fault w (calls d)).
Qed.

(** *** What is stored stays stored *)

Lemma grows_prefix fs fs' : grows fs fs' → fs `prefix_of` fs'.
Proof.
  induction 1 as [|fs' f _ IH _]; [done|].
  by apply prefix_app_r.
Qed.

Lemma grows_trans fs1 fs2 fs3 : grows fs1 fs2 → grows fs2 fs3 → grows fs1 fs3.
Proof. intros H12. induction 1; [done|]. by constructor. Qed.

Lemma grows_one fs f : created fs f → grows fs (fs ++ [f]).
Proof. intros. constructor; [constructor|done]. Qed.

Lemma first_folder_prefix fs fs' folder_name parent_id id :
  fs `prefix_of` fs' →
  first_folder fs folder_name parent_id = Some id →
  first_folder fs' folder_name parent_id = Some id.
Proof.
  intros [l ->]. unfold first_folder. rewrite List.filter_app.
  by destruct (List.filter _ fs).
Qed.

Lemma has_file_prefix fs fs' filename folder_id :
  fs `prefix_of` fs' →
  has_file fs filename folder_id = true →
  has_file fs' filename folder_id = true.
Proof.
  intros [l ->]. unfold has_file. rewrite List.filter_app.
  by destruct (List.filter _ fs).
Qed.

Lemma first_folder_None fs folder_name parent_id :
  first_folder fs folder_name parent_id = None ↔
  List.filter (is_folder_named folder_name parent_id) fs = [].
Proof. unfold first_folder. by destruct (List.filter _ fs). Qed.

Lemma is_folder_named_new id folder_name parent_id :
  is_folder_named folder_name parent_id
    {| file_id := id; file_name := folder_name; file_mime := folder_mime;
       file_parents := [parent_id]; file_trashed := false;
       file_content := "" |} = true.
Proof.
  unfold is_folder_named. cbn [file_name file_mime file_parents file_trashed].
  rewrite !String.eqb_refl, bool_decide_eq_true_2; [done|]. by left.
Qed.

Lemma is_file_named_new id filename mime folder_id content :
  is_file_named filename folder_id
    {| file_id := id; file_name := filename; file_mime := mime;
       file_parents := [folder_id]; file_trashed := false;
       file_content := content |} = true.
Proof.
  unfold is_file_named. cbn [file_name file_parents file_trashed].
  rewrite String.eqb_refl, bool_decide_eq_true_2; [done|]. by left.
Qed.

(** *** [get_or_create_folder] *)

Lemma get_or_create_folder_spec w folder_name parent_id d st :
  ∃ d' r,
    get_or_create_folder w folder_name parent_id (d, st) = ((d', st), r)
    ∧ grows (files d) (files d')
    ∧ match r with
      | Val id =>
          first_folder (files d') folder_name parent_id = Some id
          ∧ (is_Some (first_folder (files d) folder_name parent_id) →
             d' = tick d)
      | Raise => ∃ n, api_fault w n = true
      | Continue => False
      end.
Proof.
  unfold get_or_create_folder. rewrite bind_run, files_list_run.
  destruct (api_fault w (calls d)) eqn:Hf1.
  { eexists _, _. split; [done|]. split; [constructor|eauto]. }
  destruct (List.filter _ (files d)) as [|f found] eqn:Hfound.
  - rewrite files_create_run. cbn [tick calls files].
    destruct (api_fault w (S (calls d))) eqn:Hf2.
    { eexists _, _. split; [done|]. split; [constructor|eauto]. }
    eexists _, _. split; [done|]. cbn [files]. split; [|split].
    + apply grows_one. constructor. by apply first_folder_None.
    + unfold first_folder. rewrite List.filter_app, Hfound. cbn [List.filter].
      by rewrite is_folder_named_new.
    + intros [id Hid]. apply first_folder_None in Hfound. congruence.
  - eexists _, _. split; [done|]. split; [constructor|].
    cbn [tick files]. unfold first_folder. rewrite Hfound. by split.
Qed.


(** *** [upload_to_drive] *)

Lemma upload_to_drive_spec w content filename folder_id d st :
  ∃ d' r,
    upload_to_drive w content filename folder_id (d, st) = ((d', st), r)
    ∧ grows (files d) (files d')
    ∧ match r with
      | Val _ => has_file (files d') filename folder_id = true
      | Raise => ∃ n, api_fault w n = true
      | Continue => False
      end.
Proof.
  unfold upload_to_drive. rewrite bind_run, file_exists_in_drive_run.
  destruct (api_fault w (calls d)) eqn:Hf1.
  { eexists _, _. split; [done|]. split; [constructor|eauto]. }
  destruct (has_file (files d) filename folder_id) eqn:Hex.
  { eexists _, _. split; [done|]. split; [constructor|done]. }
  rewrite bind_run, files_create_run. cbn [tick calls files].
  destruct (api_fault w (S (calls d))) eqn:Hf2.
  { eexists _, _. split; [done|]. split; [constructor|eauto]. }
  eexists _, _. split; [done|]. cbn [files]. split.
  - apply grows_one. constructor.
  - unfold has_file. rewrite List.filter_app. cbn [List.filter].
    rewrite is_file_named_new. by destruct (List.filter _ (files d)).
Qed.

End DriveOperations.

(** ** One descriptor *)

Section OneDescriptor.

Local Open Scope nat_scope.
Implicit Types (w : world) (d : drive) (st : stats) (t : descriptor)
  (fs : list drive_file).

Lemma stored_quarter_folder w t fs :
  stored w t fs = true → is_Some (quarter_folder w t fs).
Proof. unfold stored. by destruct (quarter_folder w t fs). Qed.

Lemma quarter_folder_prefix w t fs fs' q_id :
  fs `prefix_of` fs' →
  quarter_folder w t fs = Some q_id → quarter_folder w t fs' = Some q_id.
Proof.
  intros Hpre. unfold quarter_folder.
  destruct (first_folder fs _ (DRIVE_FOLDER_ID w)) as [fy_id|] eqn:Hfy;
    [|done].
  rewrite (first_folder_prefix _ _ _ _ _ Hpre Hfy). cbn.
  by apply first_folder_prefix.
Qed.

Lemma stored_prefix w t fs fs' :
  fs `prefix_of` fs' → stored w t fs = true → stored w t fs' = true.
Proof.
  intros Hpre. unfold stored.
  destruct (quarter_folder w t fs) as [q_id|] eqn:Hq; [|done].
  rewrite (quarter_folder_prefix _ _ _ _ _ Hpre Hq).
  by apply has_file_prefix.
Qed.


(** what processing one descriptor does, whatever the collaborators
    answer *)
Lemma process_spec w t d st :
  ∃ d' st' r,
    process w t (d, st) = ((d', st'), r)
    ∧ grows (files d) (files d')
    ∧ match r with
      | Val _ =>
          has_url t = true ∧ st' = count_downloaded st
          ∧ stored w t (files d') = true
      | Continue =>
          (has_url t = false ∧ d' = d ∧ st' = st)
          ∨ (has_url t = true ∧ st' = count_skipped st
             ∧ stored w t (files d') = true)
      | Raise =>
          has_url t = true ∧ st' = st
          ∧ ((∃ n, api_fault w n = true)
             ∨ (is_Some (quarter_folder w t (files d'))
                ∧ ∃ u, t !! "pdf_url" = Some u ∧ session_get w u = None))
      end.
Proof.
  unfold process, has_url, stored, quarter_folder, filename_for.
  destruct (t !! "pdf_url") as [u|] eqn:Hu.
  2:{ eexists _, _, _. split; [done|]. split; [constructor|by left]. }
  destruct (Str.truthy u) eqn:Htru; cbn [negb].
  2:{ eexists _, _, _. split; [done|]. split; [constructor|by left]. }
  destruct (period_of w t) as [q fy] eqn:Hp. cbn [fst snd].
  rewrite bind_run.
  destruct (get_or_create_folder_spec w fy (DRIVE_FOLDER_ID w) d st)
    as (d1 & r1 & -> & G1 & P1).
  destruct r1 as [fy_id| |]; [|by eexists _, _, _; eauto 10|done].
  destruct P1 as [F1 _]. rewrite bind_run.
  destruct (get_or_create_folder_spec w q fy_id d1 st)
    as (d2 & r2 & -> & G2 & P2).
  pose proof (grows_trans _ _ _ G1 G2) as G12.
  destruct r2 as [q_id| |]; [|by eexists _, _, _; eauto 10|done].
  destruct P2 as [F2 _].
  apply (first_folder_prefix _ _ _ _ _ (grows_prefix _ _ G2)) in F1.
  rewrite bind_run, file_exists_in_drive_run.
  destruct (api_fault w (calls d2)) eqn:Hf3.
  { eexists _, _, _. split; [done|]. cbn [tick files]. eauto 10. }
  destruct (has_file (files d2) _ q_id) eqn:Hex.
  { eexists _, _, _. split; [done|]. cbn [tick files]. split; [done|].
    right. rewrite F1. cbn. rewrite F2. done. }
  destruct (session_get w u) as [content|] eqn:Hget.
  2:{ eexists _, _, _. split; [done|]. cbn [tick files]. split; [done|].
      split; [done|]. split; [done|]. right. rewrite F1. cbn. rewrite F2.
      split; [done|]. by exists u. }
  rewrite bind_run.
  destruct (upload_to_drive_spec w content
              (filename_of (default "Unknown" (t !! "company")) fy q) q_id
              (tick d2) st) as (d3 & r3 & -> & G3 & P3).
  cbn [tick files] in G3.
  pose proof (grows_trans _ _ _ G12 G3) as G123.
  destruct r3 as [id| |]; [|by eexists _, _, _; eauto 10|done].
  eexists _, _, _. split; [done|]. split; [done|]. split; [done|].
  split; [done|].
  rewrite (first_folder_prefix _ _ _ _ _ (grows_prefix _ _ G3) F1). cbn.
  rewrite (first_folder_prefix _ _ _ _ _ (grows_prefix _ _ G3) F2).
  done.
Qed.

End OneDescriptor.

(** ** The run *)

Section Run.

Local Open Scope nat_scope.
Implicit Types (w : world) (d : drive) (st : stats) (t : descriptor)
  (ts : list descriptor) (s : drive * stats).

(** an iteration adds one to exactly one counter when the descriptor has
    a URL and changes nothing when it has none, and it never removes a
    file *)
Lemma iteration_spec w t s :
  grows (files s.1) (files (iteration w s t).1)
  ∧ total (iteration w s t).2
    = total s.2 + (if has_url t then 1 else 0).
Proof.
  destruct s as [d st]. unfold iteration.
  destruct (process_spec w t d st) as (d' & st' & r & -> & G & P).
  destruct r as [[]| |]; cbn [fst snd add_failed].
  - destruct P as (-> & -> & _). split; [done|].
    unfold total, count_downloaded; simpl; lia.
  - destruct P as (-> & -> & _). split; [done|].
    unfold total, count_failed; simpl; lia.
  - destruct P as [(-> & -> & ->)|(-> & -> & _)]; (split; [done|]);
      unfold total, count_skipped; simpl; lia.
Qed.

Lemma run_from_app w s ts1 ts2 :
  run_from w s (ts1 ++ ts2) = run_from w (run_from w s ts1) ts2.
Proof. apply foldl_app. Qed.

Lemma run_from_spec w ts s :
  grows (files s.1) (files (run_from w s ts).1)
  ∧ total (run_from w s ts).2
    = total s.2 + length (List.filter has_url ts).
Proof.
  revert s. induction ts as [|t ts IH]; intros s.
  - split; [constructor|]. simpl. lia.
  - cbn [run_from foldl List.filter].
    destruct (iteration_spec w t s) as [G1 T1].
    destruct (IH (iteration w s t)) as [G2 T2]. unfold run_from in *.
    split; [by eapply grows_trans|]. rewrite T2, T1.
    destruct (has_url t); simpl; lia.
Qed.

End Run.

(** C9. When processing a descriptor raises, whatever raised, the run goes
    on with the next descriptor from the state the failed one left: only
    the failed counter moved, by one, and every file that was stored when
    the exception came is still stored, then and at the end of the run.
    Every descriptor with a URL is counted once, as downloaded, skipped or
    failed. *)
Theorem failure_is_counted_and_the_run_continues
    (w : world) (ts1 : list descriptor) (t : descriptor)
    (ts2 : list descriptor) (d : drive) (s' : drive * stats) :
  process w t (run_from w (d, no_stats) ts1) = (s', Raise) →
  let s := run_from w (d, no_stats) ts1 in
  let final := download_and_upload_transcripts w (ts1 ++ t :: ts2) d in
  final = run_from w (s'.1, count_failed s.2) ts2
  ∧ s'.2 = s.2
  ∧ files s.1 `prefix_of` files s'.1
  ∧ files s'.1 `prefix_of` files final.1
  ∧ (total final.2 = length (List.filter has_url (ts1 ++ t :: ts2)))%nat.
Proof.
  intros Hraise. cbv zeta. unfold download_and_upload_transcripts.
  pose proof (proj2 (run_from_spec w (ts1 ++ t :: ts2) (d, no_stats))) as Htot.
  rewrite run_from_app in *.
  destruct (run_from w (d, no_stats) ts1) as [d0 st0] eqn:Hs.
  destruct (process_spec w t d0 st0) as (d1 & st1 & r & Hp & G & P).
  rewrite Hp in Hraise. injection Hraise as <- ->.
  destruct P as (_ & -> & _).
  assert (run_from w (d0, st0) (t :: ts2)
          = run_from w (d1, count_failed st0) ts2) as Hrun.
  { cbn [run_from foldl]. unfold iteration at 2. by rewrite Hp. }
  cbn [fst snd] in *. rewrite Hrun in *.
  split; [done|]. split; [done|]. split; [by apply grows_prefix|]. split.
  - apply grows_prefix, (run_from_spec w ts2 (d1, count_failed st0)).
  - exact Htot.
Qed.

(** ** A second run *)

Section SecondRun.

Local Open Scope nat_scope.
Implicit Types (w : world) (d : drive) (st : stats) (t : descriptor)
  (ts : list descriptor) (s : drive * stats) (fs : list drive_file).





Lemma get_or_create_folder_found w folder_name parent_id d st id :
  no_faults w →
  first_folder (files d) folder_name parent_id = Some id →
  get_or_create_folder w folder_name parent_id (d, st)
  = ((tick d, st), Val id).
Proof.
  intros Hnf. unfold first_folder, get_or_create_folder.
  rewrite bind_run, files_list_run, Hnf.
  destruct (List.filter _ (files d)) as [|f found]; [done|].
  by intros [= <-].
Qed.

(** without API faults, a descriptor whose folders exist is skipped when
    its file is stored and fails, touching nothing, when its download
    fails *)
Lemma process_settled w t d st :
  no_faults w → has_url t = true → settled w t (files d) →
  ∃ r, process w t (d, st)
       = ((tick (tick (tick d)),
           if stored w t (files d) then count_skipped st else st), r)
    ∧ r = if stored w t (files d) then Continue else Raise.
Proof.
  intros Hnf Hurl [Hno|[[q_id Hq] Hrest]]; [congruence|].
  unfold process, has_url, stored, quarter_folder, filename_for in *.
  rewrite Hq in *.
  destruct (t !! "pdf_url") as [u|]; [|done]. rewrite Hurl. cbn [negb].
  destruct (period_of w t) as [q fy]. cbn [fst snd] in *.
  destruct (first_folder (files d) fy (DRIVE_FOLDER_ID w)) as [fy_id|] eqn:Hfy;
    [|done].
  cbn in Hq.
  rewrite bind_run, (get_or_create_folder_found _ _ _ _ _ fy_id Hnf Hfy).
  rewrite bind_run,
    (get_or_create_folder_found w q fy_id (tick d) st q_id Hnf Hq).
  rewrite bind_run, file_exists_in_drive_run, Hnf. cbn [tick files].
  destruct (has_file (files d) _ q_id) eqn:Hex.
  - eexists. split; reflexivity.
  - destruct Hrest as [?|(u' & [= <-] & ->)]; [done|].
    eexists. split; reflexivity.
Qed.



(** an iteration that counted a download or a skip has its file stored *)
Lemma iteration_counted w t s :
  downloaded (iteration w s t).2 = S (downloaded s.2)
  ∨ skipped (iteration w s t).2 = S (skipped s.2) →
  has_url t = true ∧ stored w t (files (iteration w s t).1) = true.
Proof.
  destruct s as [d st]. unfold iteration.
  destruct (process_spec w t d st) as (d' & st' & r & -> & _ & P).
  destruct r as [[]| |]; cbn [fst snd add_failed].
  - by destruct P as (? & _ & ?).
  - destruct P as (_ & -> & _). simpl. lia.
  - destruct P as [(_ & _ & ->)|(? & _ & ?)]; [lia|done].
Qed.



(** *** Folders are not duplicated *)



End SecondRun.

Lemma failure_is_counted_and_the_run_continues_witness :
  (download_and_upload_transcripts (example_world 2024 3) [broken; acme]
     empty_drive).2
  = {| downloaded := 1; skipped := 0; failed := 1 |}.
Proof.
  pose proof (failure_is_counted_and_the_run_continues
                (example_world 2024 3) [] broken [acme] empty_drive
                (process (example_world 2024 3) broken
                   (empty_drive, no_stats)).1) as H.
  cbv zeta in H. destruct H as (H & _).
  - vm_compute. reflexivity.
  - change ([broken; acme]) with ([] ++ broken :: [acme]).
    rewrite H. vm_compute. reflexivity.
Defined.





(** * Further properties *)

(** ** The date formats and the clock *)

(** The five formats exclude one another: a date string that one of them
    parses is rejected by the other four, so the loop returns that parse
    whatever the order of the list is. *)
Theorem date_formats_exclusive (i : nat) (fmt : format) (date_str : string)
    (d : date) :
  date_formats !! i = Some fmt →
  strptime date_str fmt = Some d →
  first_parse date_formats date_str = Some d
  ∧ ∀ j fmt', date_formats !! j = Some fmt' → j ≠ i →
      strptime date_str fmt' = None.
Proof.
  intros Hi Hp.
  assert (∀ j fmt', date_formats !! j = Some fmt' → j ≠ i →
            strptime date_str fmt' = None) as Hothers.
  { intros j fmt' Hj Hne.
    destruct i as [|[|[|[|[|i]]]]]; try discriminate Hi;
      injection Hi as <-;
      destruct j as [|[|[|[|[|j]]]]]; try discriminate Hj; try done;
      injection Hj as <-;
      (eapply strptime_disjoint; [|exact Hp]; reflexivity). }
  split; [|done].
  pose proof (Hothers 0%nat fmt_dmY_dash eq_refl) as H0.
  pose proof (Hothers 1%nat fmt_dmY_slash eq_refl) as H1.
  pose proof (Hothers 2%nat fmt_Ymd_dash eq_refl) as H2.
  pose proof (Hothers 3%nat fmt_dmy_dash eq_refl) as H3.
  unfold date_formats. cbn [first_parse].
  destruct i as [|[|[|[|[|i]]]]]; try discriminate Hi; injection Hi as <-.
  - by rewrite Hp.
  - by rewrite H0, Hp.
  - by rewrite H0, H1, Hp.
  - by rewrite H0, H1, H2, Hp.
  - by rewrite H0, H1, H2, H3, Hp.
Qed.

Lemma date_formats_exclusive_witness :
  first_parse date_formats "2024-07-15"
  = Some {| year := 2024; month := 7; day := 15 |}.
Proof.
  apply (date_formats_exclusive 2 fmt_Ymd_dash "2024-07-15"
           {| year := 2024; month := 7; day := 15 |}).
  - reflexivity.
  - vm_compute. reflexivity.
Defined.

(** The clock is read only as a last resort: when the text carries both
    markers or the date string parses, two calls at different times give
    the same period. *)
Theorem determine_quarter_fy_clock_free (date_str text : string) :
  has_both_markers text ∨ is_Some (first_parse date_formats date_str) →
  ∀ now1 now2,
    determine_quarter_fy now1 date_str text
    = determine_quarter_fy now2 date_str text.
Proof.
  intros Hsig now1 now2. unfold determine_quarter_fy.
  destruct (Re.search_quarter text) as [q|] eqn:Hq;
    [destruct (Re.search_fy text) as [fy|] eqn:Hfy; [done|]|].
  - destruct Hsig as [[_ (pre & ds & Hm)]|[d Hd]].
    + by apply (proj1 (search_fy_None text)) in Hm.
    + destruct date_str; [by vm_compute in Hd|]. cbn [Str.truthy].
      by rewrite Hd.
  - destruct Hsig as [[(pre & d & Hm) _]|[d Hd]].
    + by apply (proj1 (search_quarter_None text)) in Hm.
    + destruct date_str; [by vm_compute in Hd|]. cbn [Str.truthy].
      by rewrite Hd.
Qed.

Lemma determine_quarter_fy_clock_free_witness :
  determine_quarter_fy {| year := 2024; month := 1; day := 1 |}
    "15/08/2023" "Acme"
  = determine_quarter_fy {| year := 2031; month := 6; day := 30 |}
    "15/08/2023" "Acme".
Proof.
  apply (determine_quarter_fy_clock_free "15/08/2023" "Acme").
  right. vm_compute. eexists. reflexivity.
Defined.

(** ** [parse_transcript_row] *)

Section Extraction.

Implicit Types (s t : string) (c : ascii).

Lemma is_document_link_truthy h :
  is_document_link h = true → Str.truthy h = true.
Proof. by destruct h. Qed.

Lemma take_length n s : (String.length (Str.take n s) ≤ n)%nat.
Proof.
  revert s. induction n as [|n IH]; intros [|c s]; simpl; try lia.
  specialize (IH s). lia.
Qed.

Lemma take_prefix n s : String.prefix (Str.take n s) s = true.
Proof.
  revert s. induction n as [|n IH]; intros [|c s]; simpl; try done.
  rewrite IH. by destruct (ascii_dec c c).
Qed.

Lemma take_drop n s : ∃ rest, s = Str.take n s +:+ rest.
Proof.
  revert s. induction n as [|n IH]; intros [|c s]; simpl;
    [by exists ""|by eexists|by exists ""|].
  destruct (IH s) as [rest Hrest]. exists rest.
  by rewrite app_cons, <- Hrest.
Qed.

Lemma all_take P n s : Str.all P s = true → Str.all P (Str.take n s) = true.
Proof.
  revert s. induction n as [|n IH]; intros [|c s]; simpl; try done.
  intros [-> ?]%andb_true_iff. by apply IH.
Qed.

Lemma all_lstrip P s : Str.all P s = true → Str.all P (Str.lstrip s) = true.
Proof.
  induction s as [|c s IH]; [done|]. simpl.
  destruct (isspace c); [|done]. intros [_ ?]%andb_true_iff. by apply IH.
Qed.

Lemma all_rev_app P s acc :
  Str.all P (String.rev_app s acc) = Str.all P s && Str.all P acc.
Proof.
  revert acc. induction s as [|c s IH]; intros acc; [done|].
  simpl. rewrite IH. simpl. by destruct (P c), (Str.all P s).
Qed.

Lemma all_rev P s : Str.all P (String.rev s) = Str.all P s.
Proof. unfold String.rev. rewrite all_rev_app. simpl. apply andb_true_r. Qed.

Lemma all_strip P s : Str.all P s = true → Str.all P (Str.strip s) = true.
Proof.
  intros H. unfold Str.strip. rewrite all_rev. apply all_lstrip.
  rewrite all_rev. by apply all_lstrip.
Qed.

Lemma all_remove_from P old k s :
  Str.all P s = true → Str.all P (Str.remove_from old k s) = true.
Proof.
  revert k. induction s as [|c s IH]; intros k; [done|].
  cbn [Str.all Str.remove_from]. intros [Hc Hs]%andb_true_iff.
  destruct k; [|by apply IH].
  destruct (String.prefix old (String c s)); [by apply IH|].
  cbn [Str.all]. rewrite Hc. by apply IH.
Qed.

Lemma all_before_name_end s :
  Str.all not_decimal (Re.before_first Re.name_end_at s) = true.
Proof.
  induction s as [|c s IH]; [done|].
  cbn [Re.before_first]. destruct (Re.name_end_at (String c s)) eqn:Hend;
    [done|].
  cbn [Str.all]. rewrite IH, andb_true_r. unfold not_decimal.
  cbn [Re.name_end_at] in Hend. by destruct (isdecimal c).
Qed.

(** the company name the row gives *)
Lemma company_of_text_no_digit text :
  Str.all not_decimal
    (Str.take 50
       (Str.strip (Str.remove "Transcript"
          (Str.strip (Re.before_first Re.name_end_at text))))) = true.
Proof.
  apply all_take, all_strip, all_remove_from, all_strip,
    all_before_name_end.
Qed.

End Extraction.

(** ** Substrings and character classes *)

Section Substrings.

Implicit Types (s sub pre post w : string) (c : ascii).

Lemma prefix_iff sub s :
  String.prefix sub s = true ↔ ∃ post, s = sub +:+ post.
Proof.
  revert s. induction sub as [|a sub IH]; intros s.
  - destruct s; (split; [intros _; by eexists|done]).
  - destruct s as [|b s]; cbn [String.prefix].
    + split; [done|]. intros [post Hp]. by rewrite app_cons in Hp.
    + destruct (ascii_dec a b) as [->|Hne].
      * rewrite IH. split; intros [post Hp]; exists post.
        -- by rewrite app_cons, Hp.
        -- rewrite app_cons in Hp. by injection Hp.
      * split; [done|]. intros [post Hp]. rewrite app_cons in Hp.
        injection Hp as -> _. done.
Qed.

Lemma contains_iff sub s : Str.contains sub s = true ↔ occurs_in sub s.
Proof.
  unfold occurs_in. induction s as [|c s IH]; cbn [Str.contains].
  - rewrite orb_false_r, prefix_iff. split.
    + intros [post Hp]. by exists "", post.
    + intros (pre & post & Hp). destruct pre; [by exists post|].
      by rewrite app_cons in Hp.
  - rewrite orb_true_iff, prefix_iff, IH. split.
    + intros [[post Hp]|(pre & post & Hp)].
      * by exists "", post.
      * exists (String c pre), post. by rewrite app_cons, Hp.
    + intros (pre & post & Hp). destruct pre as [|c' pre].
      * left. by exists post.
      * right. rewrite app_cons in Hp. injection Hp as -> ->.
        by exists pre, post.
Qed.

Lemma lower_app s1 s2 :
  Str.lower (s1 +:+ s2) = Str.lower s1 +:+ Str.lower s2.
Proof.
  induction s1 as [|c s1 IH]; [done|].
  by rewrite app_cons; cbn [Str.lower]; rewrite IH, app_cons.
Qed.

Lemma lower_split s x y :
  Str.lower s = x +:+ y →
  ∃ a b, s = a +:+ b ∧ Str.lower a = x ∧ Str.lower b = y.
Proof.
  revert s. induction x as [|c x IH]; intros s.
  - intros Hs. by exists "", s.
  - destruct s as [|c' s]; [done|]. rewrite app_cons. cbn [Str.lower].
    intros [= <- Hs]. destruct (IH s Hs) as (a & b & -> & <- & <-).
    by exists (String c' a), b.
Qed.

(** [word in s.lower()] *)
Lemma contains_lower_iff w s :
  Str.contains w (Str.lower s) = true ↔ mentions w s.
Proof.
  rewrite contains_iff. unfold occurs_in, mentions. split.
  - intros (pre' & post' & (pre & rest & -> & _ & Hrest)%lower_split).
    apply lower_split in Hrest as (m & post & -> & Hm & _).
    by exists pre, m, post.
  - intros (pre & m & post & -> & <-).
    exists (Str.lower pre), (Str.lower post). by rewrite !lower_app.
Qed.

Lemma is_document_link_iff h :
  is_document_link h = true ↔ mentions ".pdf" h ∨ mentions "transcript" h.
Proof.
  unfold is_document_link. by rewrite orb_true_iff, !contains_lower_iff.
Qed.

Lemma find_first {A} (f : A → bool) (l : list A) x :
  List.find f l = Some x →
  ∃ l1 l2, l = l1 ++ x :: l2 ∧ f x = true
           ∧ ∀ y, y ∈ l1 → f y = false.
Proof.
  induction l as [|y l IH]; [done|]. cbn [List.find].
  destruct (f y) eqn:Hy.
  - intros [= ->]. exists [], l. split; [done|]. split; [done|].
    intros y' Hy'. by apply elem_of_nil in Hy'.
  - intros (l1 & l2 & -> & Hx & Hl1)%IH. exists (y :: l1), l2.
    split; [done|]. split; [done|].
    intros y' [->|?]%elem_of_cons; auto.
Qed.

Lemma is_unsafe_iff c : is_unsafe c = true ↔ c ∈ dropped_characters.
Proof.
  unfold is_unsafe, code. rewrite existsb_exists. split.
  - intros (n & Hn & Heq%N.eqb_eq). rewrite <- (ascii_N_embedding c), Heq.
    cbn [In] in Hn. unfold dropped_characters.
    rewrite !elem_of_cons.
    destruct Hn as [<-|[<-|[<-|[<-|[<-|[<-|[<-|[<-|[<-|[]]]]]]]]]];
      cbn; tauto.
  - unfold dropped_characters. rewrite !elem_of_cons, elem_of_nil.
    intros Hc. exists (N_of_ascii c). split; [|apply N.eqb_refl].
    destruct Hc as [->|[->|[->|[->|[->|[->|[->|[->|[->|[]]]]]]]]]];
      cbn; tauto.
Qed.

Lemma delete_chars_filter s :
  list_ascii_of_string (Str.delete_chars is_unsafe s)
  = filter (λ c, c ∉ dropped_characters) (list_ascii_of_string s).
Proof.
  induction s as [|c s IH]; [done|].
  cbn [Str.delete_chars list_ascii_of_string]. rewrite filter_cons.
  destruct (is_unsafe c) eqn:Hc.
  - apply is_unsafe_iff in Hc. by rewrite decide_False by tauto.
  - rewrite decide_True.
    + cbn [list_ascii_of_string]. by rewrite IH.
    + intros Hin%is_unsafe_iff. congruence.
Qed.

End Substrings.

(** A row gives no descriptor exactly when none of its links has ".pdf" or
    "transcript" in its target, in any case of the letters.  Otherwise the
    descriptor is made from the first link of the row that has one of them,
    whatever the links after it are, and its URL is that target made
    absolute on the site root. *)
Theorem parse_transcript_row_document_link (r : row) :
  (parse_transcript_row r = None
   ↔ ∀ h, h ∈ row_hrefs r →
       ¬ mentions ".pdf" h ∧ ¬ mentions "transcript" h)
  ∧ (∀ t, parse_transcript_row r = Some t →
       ∃ before h after,
         row_hrefs r = before ++ h :: after
         ∧ (∀ h', h' ∈ before →
              ¬ mentions ".pdf" h' ∧ ¬ mentions "transcript" h')
         ∧ (mentions ".pdf" h ∨ mentions "transcript" h)
         ∧ t !! "pdf_url"
           = Some (if Str.startswith "/" h
                   then "https://www.screener.in" +:+ h
                   else if Str.startswith "http" h then h
                   else "https://www.screener.in/" +:+ h))
  ∧ parse_transcript_row
      {| row_hrefs := ["/company/ACME/"; "files/ACME.PDF"; "/t/transcript"];
         row_text := "Acme Corp" |} ≫= (.!! "pdf_url")
    = Some "https://www.screener.in/files/ACME.PDF".
Proof.
  assert (∀ h, is_document_link h = false
               ↔ ¬ mentions ".pdf" h ∧ ¬ mentions "transcript" h) as Hno.
  { intros h. rewrite <- not_true_iff_false, is_document_link_iff. tauto. }
  split; [|split; [|reflexivity]].
  - unfold parse_transcript_row. split.
    + destruct (List.find is_document_link (row_hrefs r)) as [h|] eqn:Hf.
      * apply find_some in Hf as [_ Hh].
        by rewrite (is_document_link_truthy h Hh).
      * intros _ h Hin. apply Hno, (find_none _ _ Hf).
        by apply list_elem_of_In.
    + intros Hall.
      destruct (List.find is_document_link (row_hrefs r)) as [h|] eqn:Hf;
        [|done].
      apply find_some in Hf as [Hin%list_elem_of_In Hh].
      apply Hall, Hno in Hin. congruence.
  - intros t. unfold parse_transcript_row.
    destruct (List.find is_document_link (row_hrefs r)) as [h|] eqn:Hf;
      [|done].
    apply find_first in Hf as (before & after & Hrow & Hh & Hbefore).
    destruct (negb (Str.truthy h)); [done|].
    intros Heq. apply (inj Some) in Heq. subst t.
    exists before, h, after. split; [done|]. split.
    { intros h' Hin. by apply Hno, Hbefore. }
    split; [by apply is_document_link_iff|].
    rewrite lookup_insert_ne by done. rewrite lookup_insert_eq.
    destruct (Str.startswith "/" h); [done|].
    by destruct (Str.startswith "http" h).
Qed.

(** The descriptor of a row is bounded: its company has at most 50
    characters, and its text is the row's text cut at 100 characters. *)
Theorem parse_transcript_row_bounds (r : row) (t : descriptor) :
  parse_transcript_row r = Some t →
  ∃ company raw_text,
    t !! "company" = Some company
    ∧ t !! "raw_text" = Some raw_text
    ∧ (String.length company ≤ 50)%nat
    ∧ (String.length raw_text ≤ 100)%nat
    ∧ String.prefix raw_text (row_text r) = true
    ∧ ((String.length (row_text r) ≤ 100)%nat → raw_text = row_text r).
Proof.
  unfold parse_transcript_row.
  destruct (List.find is_document_link (row_hrefs r)) as [h|]; [|done].
  destruct (negb (Str.truthy h)); [done|].
  intros Heq. apply (inj Some) in Heq. subst t.
  set (company := Str.take 50 _). set (raw_text := Str.take 100 _).
  exists company, raw_text. split; [apply lookup_insert_eq|].
  split; [by rewrite !lookup_insert_ne, lookup_insert_eq by done|].
  split; [apply take_length|]. split; [apply take_length|].
  split; [apply take_prefix|]. subst raw_text.
  generalize (row_text r). generalize 100%nat. clear.
  intros n s. revert n. induction s as [|c s IH]; intros [|n]; simpl;
    try done; try lia.
  intros Hlen. rewrite IH; [done|lia].
Qed.

Lemma parse_transcript_row_bounds_witness :
  ∃ company raw_text,
    acme !! "company" = Some company
    ∧ acme !! "raw_text" = Some raw_text
    ∧ (String.length company ≤ 50)%nat
    ∧ (String.length raw_text ≤ 100)%nat
    ∧ String.prefix raw_text (row_text acme_row) = true
    ∧ ((String.length (row_text acme_row) ≤ 100)%nat →
       raw_text = row_text acme_row).
Proof.
  apply (parse_transcript_row_bounds acme_row acme). reflexivity.
Defined.

(** The company name of a descriptor holds no decimal digit: the name stops
    at the first digit of the row's text, and a text that is empty or
    begins with a digit gives the empty name. *)
Theorem parse_transcript_row_company_no_digit (r : row) (t : descriptor) :
  parse_transcript_row r = Some t →
  ∃ company,
    t !! "company" = Some company
    ∧ Str.all not_decimal company = true
    ∧ (Str.not_next not_decimal (row_text r) = true → company = "").
Proof.
  unfold parse_transcript_row.
  destruct (List.find is_document_link (row_hrefs r)) as [h|]; [|done].
  destruct (negb (Str.truthy h)); [done|].
  intros Heq. apply (inj Some) in Heq. subst t.
  set (company := Str.take 50 _).
  exists company. split; [apply lookup_insert_eq|].
  split; [apply company_of_text_no_digit|]. subst company.
  destruct (row_text r) as [|c text]; [done|].
  cbn [Str.not_next]. unfold not_decimal. rewrite negb_involutive.
  intros Hc. cbn [Re.before_first Re.name_end_at]. rewrite Hc. reflexivity.
Qed.

Lemma parse_transcript_row_company_no_digit_witness :
  ∃ company,
    default ∅ (parse_transcript_row
                 {| row_hrefs := ["/files/3m-india.pdf"];
                    row_text := "3M India Q2 FY2024 Transcript" |})
      !! "company" = Some company
    ∧ Str.all not_decimal company = true
    ∧ (Str.not_next not_decimal "3M India Q2 FY2024 Transcript" = true
       → company = "").
Proof.
  apply (parse_transcript_row_company_no_digit
           {| row_hrefs := ["/files/3m-india.pdf"];
              row_text := "3M India Q2 FY2024 Transcript" |}).
  reflexivity.
Defined.

(** ** The period a descriptor is filed under *)

Section FiledPeriod.

Implicit Types (s text : string) (w : world) (t : descriptor).

Lemma with_hint_quarter (o : option ascii) (fallback resolved : string) :
  fallback = "" ∨ fallback = "Unknown" →
  with_hint (Some (default fallback (quarter_label <$> o))) resolved
  = default resolved (quarter_label <$> o).
Proof. intros [-> | ->]; by destruct o. Qed.

Lemma with_hint_fy (o : option string) (fallback resolved : string) :
  fallback = "" ∨ fallback = "Unknown" →
  with_hint (Some (default fallback (fy_label <$> o))) resolved
  = default resolved (fy_label <$> o).
Proof. intros [-> | ->]; by destruct o. Qed.

Lemma default_of_Some {A} (x y : A) : default x (Some y) = y.
Proof. reflexivity. Qed.

Lemma default_of_None {A} (x : A) : default x None = x.
Proof. reflexivity. Qed.

Lemma or_else_empty s : Str.or_else s "" = s.
Proof. by destruct s. Qed.

Lemma take_digits_grows n ds rest :
  Str.all isdecimal ds = true → (String.length ds ≤ n)%nat →
  (String.length ds ≤ String.length (Re.take_digits n (ds +:+ rest)).1)%nat.
Proof.
  revert ds. induction n as [|n IH]; intros [|c ds] Hall Hlen;
    simpl in *; try lia.
  apply andb_true_iff in Hall as [Hc Hall]. rewrite app_cons.
  cbn [Re.take_digits]. rewrite Hc.
  specialize (IH ds Hall ltac:(lia)).
  destruct (Re.take_digits n (ds +:+ rest)). simpl in *. lia.
Qed.

(** a marker of a text cut short is at the head of a marker of the text *)
Lemma quarter_at_app suf rest d :
  Re.quarter_at suf = Some d → Re.quarter_at (suf +:+ rest) = Some d.
Proof.
  intros (q & post & -> & Hq & Hd)%quarter_at_iff.
  rewrite !app_cons. apply quarter_at_iff. eauto.
Qed.

Lemma fy_at_app suf rest ds :
  Re.fy_at suf = Some ds → is_Some (Re.fy_at (suf +:+ rest)).
Proof.
  intros (f & y & ws & post & -> & Hf & Hy & Hws & Hds & [Hlo Hhi] & _)
    %fy_at_iff.
  rewrite !app_cons, !app_assoc'. unfold Re.fy_at.
  rewrite (proj2 (is_nocase_iff "F" "f" f) Hf),
    (proj2 (is_nocase_iff "Y" "y" y) Hy). cbn [andb]. cbv zeta.
  rewrite skip_spaces_app; [|done|].
  - pose proof (take_digits_grows 4 ds (post +:+ rest) Hds Hhi).
    destruct (Nat.leb_spec 2
                (String.length (Re.take_digits 4 (ds +:+ post +:+ rest)).1));
      [by eexists|lia].
  - destruct ds as [|c ds]; [simpl in Hlo; lia|].
    rewrite app_cons. simpl in *. apply andb_true_iff in Hds as [Hc _].
    by rewrite (digit_not_space c Hc).
Qed.

Lemma search_quarter_take n text :
  Re.search_quarter text = None → Re.search_quarter (Str.take n text) = None.
Proof.
  intros Hnone. destruct (Re.search_quarter (Str.take n text)) as [d|] eqn:Hs;
    [|done].
  apply search_Some in Hs as (pre & suf & Heq & Hat & _).
  destruct (take_drop n text) as [rest Hrest].
  unfold Re.search_quarter in Hnone. rewrite search_None in Hnone.
  pose proof (quarter_at_app suf rest d Hat) as Hfull.
  rewrite (Hnone pre (suf +:+ rest)) in Hfull; [done|].
  rewrite Hrest at 1. by rewrite Heq, app_assoc'.
Qed.

Lemma search_fy_take n text :
  Re.search_fy text = None → Re.search_fy (Str.take n text) = None.
Proof.
  intros Hnone. destruct (Re.search_fy (Str.take n text)) as [ds|] eqn:Hs;
    [|done].
  apply search_Some in Hs as (pre & suf & Heq & Hat & _).
  destruct (take_drop n text) as [rest Hrest].
  unfold Re.search_fy in Hnone. rewrite search_None in Hnone.
  destruct (fy_at_app suf rest ds Hat) as [ds' Hds'].
  rewrite (Hnone pre (suf +:+ rest)) in Hds'; [done|].
  rewrite Hrest at 1. by rewrite Heq, app_assoc'.
Qed.

(** the resolver on a text without both markers *)
Lemma determine_quarter_fy_dated w date_str text :
  Re.search_quarter text = None ∨ Re.search_fy text = None →
  determine_quarter_fy (now w) date_str text = dated_period w date_str.
Proof.
  intros Hno. unfold dated_period.
  destruct (first_parse date_formats date_str) as [d|] eqn:Hp.
  - by apply determine_quarter_fy_parsed.
  - by apply determine_quarter_fy_fallback.
Qed.

Lemma parse_transcript_row_lookups r t :
  parse_transcript_row r = Some t →
  t !! "date" = Some (default "" (Re.search_date (row_text r)))
  ∧ t !! "quarter"
    = Some (default "" (quarter_label <$> Re.search_quarter (row_text r)))
  ∧ t !! "fiscal_year"
    = Some (default "" (fy_label <$> Re.search_fy (row_text r)))
  ∧ t !! "raw_text" = Some (Str.take 100 (row_text r))
  ∧ t !! "text" = None
  ∧ has_url t = true.
Proof.
  unfold parse_transcript_row, has_url.
  destruct (List.find is_document_link (row_hrefs r)) as [h|] eqn:Hf; [|done].
  apply find_some in Hf as [_ Hh%is_document_link_truthy].
  rewrite Hh. cbn [negb].
  intros Heq. apply (inj Some) in Heq. subst t.
  repeat split;
    try (by rewrite ?lookup_insert_ne, ?lookup_insert_eq by done).
  rewrite lookup_insert_ne, lookup_insert_eq by done.
  destruct (Str.startswith "/" h); [done|].
  destruct (Str.startswith "http" h) eqn:Hhttp; [|done]. by destruct h.
Qed.

Lemma company_link_descriptor_lookups a t (c : company) :
  company_link_descriptor a = Some t →
  with_company c t !! "company" = Some (name c)
  ∧ with_company c t !! "date" = None
  ∧ with_company c t !! "raw_text" = None
  ∧ with_company c t !! "text" = Some (anchor_text a)
  ∧ with_company c t !! "quarter"
    = Some (default "Unknown"
              (quarter_label <$> Re.search_quarter (anchor_text a)))
  ∧ with_company c t !! "fiscal_year"
    = Some (default "Unknown" (fy_label <$> Re.search_fy (anchor_text a))).
Proof.
  unfold company_link_descriptor, with_company. case_match; [|done].
  intros Heq. apply (inj Some) in Heq. subst t.
  repeat split;
    by rewrite ?lookup_insert_ne, ?lookup_insert_eq by done.
Qed.

End FiledPeriod.

(** The pipeline files the descriptor of a listing row by the markers of
    the row's text, each taken as it is written (a two-digit year keeps its
    two digits); a component without marker comes from the date found in
    the text when that date parses and from the clock otherwise. *)
Theorem extracted_row_period (w : world) (r : row) (t : descriptor) :
  parse_transcript_row r = Some t →
  let dated :=
    dated_period w (default "" (Re.search_date (row_text r))) in
  period_of w t
  = (default dated.1 (quarter_label <$> Re.search_quarter (row_text r)),
     default dated.2 (fy_label <$> Re.search_fy (row_text r))).
Proof.
  intros (Hdate & Hq & Hfy & Hraw & Htext & _)%parse_transcript_row_lookups.
  cbv zeta. unfold period_of.
  rewrite Hdate, Hq, Hfy, Hraw, Htext.
  rewrite !default_of_Some, default_of_None, or_else_empty.
  destruct (determine_quarter_fy _ _ _) as [q fy] eqn:Hres.
  rewrite with_hint_quarter, with_hint_fy by (by left).
  destruct (Re.search_quarter (row_text r)) as [d|] eqn:Hsq;
    [destruct (Re.search_fy (row_text r)) as [ds|] eqn:Hsfy; [done|]|].
  - rewrite determine_quarter_fy_dated in Hres
      by (right; by apply search_fy_take).
    by rewrite Hres.
  - rewrite determine_quarter_fy_dated in Hres
      by (left; by apply search_quarter_take).
    by rewrite Hres.
Qed.

Lemma extracted_row_period_witness :
  period_of (example_world 2026 11) acme = ("Q2", "FY24").
Proof.
  apply (extracted_row_period (example_world 2026 11) acme_row acme).
  reflexivity.
Defined.

(** The pipeline files a descriptor of a company page, once [main] has
    put the company name in it, by the markers of the link's text, each as
    it is written; a component without marker comes from the clock: such a
    descriptor has no date. *)
Theorem company_descriptor_period (w : world) (c : company) (a : anchor)
    (t : descriptor) :
  company_link_descriptor a = Some t →
  period_of w (with_company c t)
  = (default (current_period w).1
       (quarter_label <$> Re.search_quarter (anchor_text a)),
     default (current_period w).2
       (fy_label <$> Re.search_fy (anchor_text a))).
Proof.
  intros Hd.
  destruct (company_link_descriptor_lookups a t c Hd)
    as (_ & Hdate & Hraw & Htext & Hq & Hfy).
  unfold period_of. rewrite Hdate, Hraw, Htext, Hq, Hfy.
  rewrite !default_of_Some, !default_of_None.
  change (Str.or_else "" (anchor_text a)) with (anchor_text a).
  destruct (determine_quarter_fy _ _ _) as [q fy] eqn:Hres.
  rewrite with_hint_quarter, with_hint_fy by (by right).
  destruct (Re.search_quarter (anchor_text a)) as [d|] eqn:Hsq;
    [destruct (Re.search_fy (anchor_text a)) as [ds|] eqn:Hsfy; [done|]|].
  - rewrite determine_quarter_fy_dated in Hres by (by right).
    change (dated_period w "") with (current_period w) in Hres.
    by rewrite Hres.
  - rewrite determine_quarter_fy_dated in Hres by (by left).
    change (dated_period w "") with (current_period w) in Hres.
    by rewrite Hres.
Qed.

Lemma company_descriptor_period_witness :
  period_of (example_world 2026 11)
    (with_company {| name := "Acme"; url := "https://www.screener.in/company/ACME/" |}
       (default ∅ (company_link_descriptor
                     {| href := "/docs/transcript-fy20.pdf";
                        anchor_text := "Concall transcript FY20" |})))
  = ("Q3", "FY20").
Proof.
  apply (company_descriptor_period (example_world 2026 11)
           {| name := "Acme"; url := "https://www.screener.in/company/ACME/" |}
           {| href := "/docs/transcript-fy20.pdf";
              anchor_text := "Concall transcript FY20" |}).
  reflexivity.
Defined.

(** ** What the extraction of a company page gives *)

Section CompanyPage.

Lemma contains_app_l sub p s :
  Str.contains sub s = true → Str.contains sub (p +:+ s) = true.
Proof.
  intros Hs. induction p as [|c p IH]; [done|].
  rewrite app_cons. cbn [Str.contains]. rewrite IH. apply orb_true_r.
Qed.

Lemma contains_truthy sub s :
  Str.truthy sub = true → Str.contains sub s = true → Str.truthy s = true.
Proof. destruct sub; [done|]. by destruct s. Qed.

Lemma selects_document_truthy a :
  selects_document a = true → Str.truthy (href a) = true.
Proof.
  unfold selects_document.
  intros [H|H]%orb_true_iff; by eapply contains_truthy; [|exact H].
Qed.

Lemma omap_length_le {A B} (f : A → option B) (l : list A) :
  (length (omap f l) ≤ length l)%nat.
Proof.
  induction l as [|x l IH]; [done|]. cbn [omap list_omap].
  destruct (f x); simpl; lia.
Qed.

Lemma filter_length_le {A} (f : A → bool) (l : list A) :
  (length (List.filter f l) ≤ length l)%nat.
Proof.
  induction l as [|x l IH]; [done|]. cbn [List.filter].
  destruct (f x); simpl; lia.
Qed.

End CompanyPage.

Section Selection.

Implicit Types (a : anchor).

Lemma mentions_occurs w s : Str.lower w = w → occurs_in w s → mentions w s.
Proof. intros Hw (pre & post & ->). by exists pre, w, post. Qed.

(** the selector and the test of the loop, together *)
Lemma company_link_selected a :
  selects_document a
  && (Str.contains "transcript" (Str.lower (href a))
      || Str.contains "transcript" (Str.lower (anchor_text a))) = true
  ↔ occurs_in "transcript" (href a)
    ∨ (occurs_in ".pdf" (href a)
       ∧ (mentions "transcript" (href a)
          ∨ mentions "transcript" (anchor_text a))).
Proof.
  unfold selects_document.
  rewrite andb_true_iff, !orb_true_iff, !contains_lower_iff, !contains_iff.
  split.
  - intros [[?|?] ?]; [by left|by right].
  - intros [Ht|[? ?]]; [|by auto].
    split; [by left|]. left. by apply mentions_occurs.
Qed.

Lemma omap_filter_selected (f : anchor → descriptor) (anchors : list anchor) :
  (∀ a, company_link_descriptor a
        = if Str.contains "transcript" (Str.lower (href a))
             || Str.contains "transcript" (Str.lower (anchor_text a))
          then Some (f a) else None) →
  omap company_link_descriptor (List.filter selects_document anchors)
  = f <$> List.filter
            (λ a, selects_document a
                  && (Str.contains "transcript" (Str.lower (href a))
                      || Str.contains "transcript"
                           (Str.lower (anchor_text a)))) anchors.
Proof.
  intros Hf. induction anchors as [|a anchors IH]; [done|].
  cbn [List.filter]. destruct (selects_document a); cbn [andb]; [|done].
  cbn [omap list_omap]. rewrite Hf.
  destruct (Str.contains "transcript" (Str.lower (href a))
            || Str.contains "transcript" (Str.lower (anchor_text a)));
    [|done].
  cbn [fmap list_fmap]. by rewrite IH.
Qed.

Lemma filter_sublist {A} (f : A → bool) (l : list A) :
  List.filter f l `sublist_of` l.
Proof.
  induction l as [|x l IH]; [done|]. cbn [List.filter].
  destruct (f x); [by apply sublist_skip|by apply sublist_cons].
Qed.

End Selection.

(** A company page that does not load gives no descriptor.  Of a page that
    loads, the anchors that give a descriptor are, in the order of the
    page, those whose target has "transcript" as written, or has ".pdf" as
    written and "transcript" in any case of the letters in the target or in
    the text; each gives one descriptor, with its target as URL, put on the
    site root when it begins with a slash, the quarter and the fiscal year
    of its text as hints, "Unknown" without a marker, and its text.  A
    target in capitals is not selected, whatever its text is. *)
Theorem get_company_transcripts_selects (anchors : list anchor) :
  get_company_transcripts None = []
  ∧ (∃ selected,
       selected `sublist_of` anchors
       ∧ (∀ a, a ∈ selected
             ↔ a ∈ anchors
               ∧ (occurs_in "transcript" (href a)
                  ∨ (occurs_in ".pdf" (href a)
                     ∧ (mentions "transcript" (href a)
                        ∨ mentions "transcript" (anchor_text a)))))
       ∧ get_company_transcripts (Some anchors)
         = (λ a,
              <["pdf_url" :=
                  if Str.startswith "http" (href a) then href a
                  else if Str.startswith "/" (href a)
                       then "https://www.screener.in" +:+ href a
                       else href a]>
              (<["quarter" :=
                   match Re.search_quarter (anchor_text a) with
                   | Some d => "Q" +:+ String d ""
                   | None => "Unknown"
                   end]>
              (<["fiscal_year" :=
                   match Re.search_fy (anchor_text a) with
                   | Some ds => "FY" +:+ ds
                   | None => "Unknown"
                   end]>
              (<["text" := anchor_text a]> (∅ : descriptor)))))
           <$> selected)
  ∧ get_company_transcripts
      (Some [ {| href := "/docs/TRANSCRIPT-Q1.PDF";
                 anchor_text := "Concall transcript Q1 FY25" |};
              {| href := "/docs/q2.pdf";
                 anchor_text := "Concall Transcript q2 FY25" |} ])
    = [ <["pdf_url" := "https://www.screener.in/docs/q2.pdf"]>
        (<["quarter" := "Q2"]>
        (<["fiscal_year" := "FY25"]>
        (<["text" := "Concall Transcript q2 FY25"]> ∅))) ].
Proof.
  split; [done|]. split; [|reflexivity].
  eexists. split; [apply filter_sublist|]. split.
  - intros a. rewrite list_elem_of_In, filter_In, <- list_elem_of_In.
    by rewrite company_link_selected.
  - cbn [get_company_transcripts]. apply omap_filter_selected.
    intros a. unfold company_link_descriptor. cbv zeta.
    destruct (Str.contains "transcript" (Str.lower (href a))
              || Str.contains "transcript" (Str.lower (anchor_text a)));
      [|done].
    f_equal.
    destruct (Str.startswith "http" (href a)); cbn [negb];
      by destruct (Re.search_quarter (anchor_text a)),
           (Re.search_fy (anchor_text a)).
Qed.

(** ** What the crawls return *)

Section CrawlResults.

Local Open Scope nat_scope.

Lemma scrape_loop_Forall (P : descriptor → Prop) fuel site p ts req ts' req' :
  (∀ r t, parse_transcript_row r = Some t → P t) →
  Forall P ts →
  scrape_loop fuel site p ts req = Some (ts', req') → Forall P ts'.
Proof.
  intros HP. revert p ts req.
  induction fuel as [|fuel IH]; intros p ts req Hts; [done|].
  cbn [scrape_loop]. cbv zeta.
  assert (Forall P (ts ++ omap parse_transcript_row (listing_rows (site p))))
    as Hts'.
  { apply Forall_app. split; [done|]. apply Forall_forall.
    intros t (r & _ & Hr)%list_elem_of_omap. by eapply HP. }
  destruct (is_empty (listing_rows (site p))); [by intros [= <- <-]|].
  destruct (negb (has_next (site p))); [by intros [= <- <-]|].
  destruct (200 <? p + 1); [by intros [= <- <-]|].
  by apply IH.
Qed.

Lemma companies_loop_Forall (P : company → Prop) fuel site p cs req cs' req' :
  (∀ a c, company_of_link a = Some c → P c) →
  Forall P cs →
  companies_loop fuel site p cs req = Some (cs', req') → Forall P cs'.
Proof.
  intros HP. revert p cs req.
  induction fuel as [|fuel IH]; intros p cs req Hcs; [done|].
  cbn [companies_loop]. cbv zeta.
  assert (Forall P (cs ++ omap company_of_link (company_links (site p))))
    as Hcs'.
  { apply Forall_app. split; [done|]. apply Forall_forall.
    intros c (a & _ & Ha)%list_elem_of_omap. by eapply HP. }
  destruct (is_empty (company_links (site p))); [by intros [= <- <-]|].
  destruct (negb (next_button (site p)) && (50 <? p)); [by intros [= <- <-]|].
  destruct (100 <? p + 1); [by intros [= <- <-]|].
  by apply IH.
Qed.

Lemma company_of_link_spec a c :
  company_of_link a = Some c →
  name c ≠ "" ∧ Str.contains "/company/" (url c) = true.
Proof.
  unfold company_of_link.
  destruct (Str.contains "/company/" (href a)) eqn:Hc; [|done].
  destruct (Str.truthy (anchor_text a)) eqn:Ht; [|done].
  intros [= <-]. cbn [name url]. split; [by destruct (anchor_text a)|].
  destruct (Str.startswith "/" (href a)); [|done].
  by apply contains_app_l.
Qed.

Lemma unique_by_url_spec seen cs :
  NoDup (url <$> unique_by_url seen cs)
  ∧ ∀ c, c ∈ unique_by_url seen cs → c ∈ cs ∧ url c ∉ seen.
Proof.
  revert seen. induction cs as [|c cs IH]; intros seen.
  - cbn [unique_by_url]. split; [constructor|].
    intros c Hc. by apply elem_of_nil in Hc.
  - cbn [unique_by_url]. case_bool_decide as Hseen.
    + destruct (IH seen) as [Hnd Hin]. split; [done|].
      intros c' [? ?]%Hin. split; [by right|done].
    + destruct (IH ({[url c]} ∪ seen)) as [Hnd Hin]. split.
      * cbn [fmap list_fmap]. apply NoDup_cons. split; [|done].
        intros (c' & Heq & [_ Hc']%Hin)%list_elem_of_fmap.
        apply Hc'. rewrite Heq. apply elem_of_union. left.
        by apply elem_of_singleton.
      * intros c' [->|[? Hc']%Hin]%elem_of_cons; [split; [by left|done]|].
        split; [by right|]. intros Hs. apply Hc', elem_of_union. by right.
Qed.

(** the URLs of a list, without repetition, are the URLs of its
    [unique_by_url] *)
Lemma unique_by_url_complete seen cs c :
  c ∈ cs → url c ∈ seen ∨ url c ∈ url <$> unique_by_url seen cs.
Proof.
  revert seen. induction cs as [|c' cs IH]; intros seen;
    [intros Hc; by apply elem_of_nil in Hc|].
  cbn [unique_by_url]. intros [->|Hin]%elem_of_cons.
  - case_bool_decide; [by left|right]. cbn [fmap list_fmap]. by left.
  - case_bool_decide.
    + by apply IH.
    + destruct (IH ({[url c']} ∪ seen) Hin) as [Hs|Hs].
      * apply elem_of_union in Hs as [->%elem_of_singleton|?];
          [right; cbn [fmap list_fmap]; by left|by left].
      * right. cbn [fmap list_fmap]. by right.
Qed.

End CrawlResults.

(** Whatever the listing shows, each descriptor the transcript crawl
    returns has an absolute URL, which starts with "http", and a company
    of at most 50 characters: the pipeline processes every one of them. *)
Theorem scrape_transcripts_page_descriptors (fuel : nat)
    (site : nat → listing_page) (ts : list descriptor) (req : list nat) :
  scrape_transcripts_page fuel site = Some (ts, req) →
  Forall (λ t, has_url t = true
               ∧ (∃ u, t !! "pdf_url" = Some u
                       ∧ Str.startswith "http" u = true)
               ∧ ∃ c, t !! "company" = Some c
                      ∧ (String.length c ≤ 50)%nat) ts.
Proof.
  apply scrape_loop_Forall; [|constructor].
  intros r t Hr. split; [|split].
  - by apply parse_transcript_row_lookups in Hr as (_ & _ & _ & _ & _ & ?).
  - by apply parse_transcript_row_url_absolute in Hr.
  - revert Hr. unfold parse_transcript_row.
    destruct (List.find is_document_link (row_hrefs r)) as [h|]; [|done].
    destruct (negb (Str.truthy h)); [done|].
    intros Heq. apply (inj Some) in Heq. subst t.
    set (company := Str.take 50 _). exists company.
    split; [apply lookup_insert_eq|apply take_length].
Qed.

Lemma scrape_transcripts_page_descriptors_witness :
  Forall (λ t, has_url t = true
               ∧ (∃ u, t !! "pdf_url" = Some u
                       ∧ Str.startswith "http" u = true)
               ∧ ∃ c, t !! "company" = Some c
                      ∧ (String.length c ≤ 50)%nat)
    (default ([], []) (scrape_transcripts_page 200 one_page_listing)).1.
Proof.
  apply (scrape_transcripts_page_descriptors 200 one_page_listing _
           (default ([], []) (scrape_transcripts_page 200 one_page_listing)).2).
  vm_compute. reflexivity.
Defined.

(** The companies [get_all_companies] returns have pairwise different
    URLs, each with "/company/" in it, and non-empty names; the removal of
    duplicates loses no URL and keeps the companies in the order they were
    found. *)
Theorem get_all_companies_unique (fuel : nat) (site : nat → company_page)
    (cs : list company) (req : list nat) :
  get_all_companies fuel site = Some (cs, req) →
  NoDup (url <$> cs)
  ∧ Forall (λ c, name c ≠ "" ∧ Str.contains "/company/" (url c) = true) cs
  ∧ ∃ found, companies_loop fuel site 1 [] [] = Some (found, req)
      ∧ cs `sublist_of` found
      ∧ ∀ c, c ∈ found → url c ∈ url <$> cs.
Proof.
  unfold get_all_companies.
  destruct (companies_loop fuel site 1 [] []) as [[found req']|] eqn:Hloop;
    [|done].
  intros [= <- <-].
  destruct (unique_by_url_spec ∅ found) as [Hnd Hin].
  split; [done|]. split.
  - apply Forall_forall. intros c [Hc _]%Hin.
    pose proof (companies_loop_Forall
                  (λ c, name c ≠ "" ∧ Str.contains "/company/" (url c) = true)
                  _ _ _ _ _ _ _ company_of_link_spec (List.Forall_nil _) Hloop)
      as Hall.
    rewrite Forall_forall in Hall. by apply Hall.
  - exists found. split; [done|]. split.
    + clear. generalize (∅ : gset string).
      induction found as [|c found IH]; intros seen; [done|].
      cbn [unique_by_url]. case_bool_decide.
      * by apply sublist_cons.
      * by apply sublist_skip.
    + intros c Hc.
      destruct (unique_by_url_complete ∅ found c Hc) as [Hs|Hs]; [|done].
      by apply elem_of_empty in Hs.
Qed.

Lemma get_all_companies_unique_witness :
  NoDup (url <$> (default ([], []) (get_all_companies 100 endless_screen)).1).
Proof.
  apply (get_all_companies_unique 100 endless_screen _
           (default ([], []) (get_all_companies 100 endless_screen)).2).
  vm_compute. reflexivity.
Defined.

(** ** The Drive operations, called twice *)

Section DriveTwice.

Local Open Scope nat_scope.
Implicit Types (w : world) (d : drive) (st : stats).

Lemma get_or_create_folder_hit w folder_name parent_id d st id :
  api_fault w (calls d) = false →
  first_folder (files d) folder_name parent_id = Some id →
  get_or_create_folder w folder_name parent_id (d, st)
  = ((tick d, st), Val id).
Proof.
  intros Hnf. unfold first_folder, get_or_create_folder.
  rewrite bind_run, files_list_run, Hnf.
  destruct (List.filter _ (files d)) as [|f found]; [done|].
  by intros [= <-].
Qed.

(** what a call of [get_or_create_folder] that returns leaves *)
Lemma get_or_create_folder_returns w folder_name parent_id d st d' st' id :
  get_or_create_folder w folder_name parent_id (d, st) = ((d', st'), Val id) →
  st' = st
  ∧ first_folder (files d') folder_name parent_id = Some id
  ∧ (files d' = files d
     ∨ ∃ f, files d' = files d ++ [f] ∧ file_id f = id
            ∧ file_name f = folder_name ∧ file_mime f = folder_mime
            ∧ file_parents f = [parent_id]
            ∧ first_folder (files d) folder_name parent_id = None).
Proof.
  unfold get_or_create_folder. rewrite bind_run, files_list_run.
  destruct (api_fault w (calls d)); [done|].
  destruct (List.filter _ (files d)) as [|f found] eqn:Hfound.
  - rewrite files_create_run. cbn [tick calls files].
    destruct (api_fault w (S (calls d))); [done|].
    cbv zeta. intros [= <- <- <-]. cbn [files]. split; [done|]. split.
    + unfold first_folder. rewrite List.filter_app, Hfound.
      cbn [List.filter app]. by rewrite is_folder_named_new.
    + right. eexists. split; [done|]. repeat split.
      by apply first_folder_None.
  - intros [= <- <- <-]. cbn [tick files]. split; [done|]. split; [|by left].
    unfold first_folder. by rewrite Hfound.
Qed.

Lemma upload_to_drive_returns w content filename folder_id d st d' st' r :
  upload_to_drive w content filename folder_id (d, st) = ((d', st'), Val r) →
  st' = st
  ∧ has_file (files d') filename folder_id = true
  ∧ match r with
    | None =>
        files d' = files d ∧ has_file (files d) filename folder_id = true
    | Some id =>
        has_file (files d) filename folder_id = false
        ∧ files d'
          = files d
            ++ [ {| file_id := id; file_name := filename;
                    file_mime := pdf_mime; file_parents := [folder_id];
                    file_trashed := false; file_content := content |} ]
    end.
Proof.
  unfold upload_to_drive. rewrite bind_run, file_exists_in_drive_run.
  destruct (api_fault w (calls d)); [done|].
  destruct (has_file (files d) filename folder_id) eqn:Hex.
  - intros [= <- <- <-]. cbn [tick files]. by repeat split.
  - rewrite bind_run, files_create_run. cbn [tick calls files].
    destruct (api_fault w (S (calls d))); [done|].
    cbv zeta. intros [= <- <- <-]. cbn [files]. split; [done|]. split; [|done].
    unfold has_file. rewrite List.filter_app. cbn [List.filter].
    rewrite is_file_named_new. by destruct (List.filter _ (files d)).
Qed.

End DriveTwice.

(** A call of [get_or_create_folder] that returns has stored at most one
    file, a folder of that name under that parent and only when there was
    none; a second call with the same name and parent, when its query does
    not fail, returns the same identifier and stores nothing. *)
Theorem get_or_create_folder_twice (w : world) (folder_name parent_id : string)
    (d : drive) (st : stats) (d' : drive) (st' : stats) (id : string) :
  get_or_create_folder w folder_name parent_id (d, st) = ((d', st'), Val id) →
  (files d' = files d
   ∨ ∃ f, files d' = files d ++ [f] ∧ file_id f = id
          ∧ file_name f = folder_name ∧ file_mime f = folder_mime
          ∧ file_parents f = [parent_id]
          ∧ first_folder (files d) folder_name parent_id = None)
  ∧ (api_fault w (calls d') = false →
     get_or_create_folder w folder_name parent_id (d', st')
     = ((tick d', st'), Val id)).
Proof.
  intros (-> & Hfirst & Hfiles)%get_or_create_folder_returns.
  split; [done|]. intros Hnf. by apply get_or_create_folder_hit.
Qed.

Lemma get_or_create_folder_twice_witness :
  get_or_create_folder (example_world 2024 3) "FY2024" "root"
    (get_or_create_folder (example_world 2024 3) "FY2024" "root"
       (empty_drive, no_stats)).1
  = ((tick (get_or_create_folder (example_world 2024 3) "FY2024" "root"
              (empty_drive, no_stats)).1.1, no_stats), Val "id1").
Proof.
  apply (get_or_create_folder_twice (example_world 2024 3) "FY2024" "root"
           empty_drive no_stats).
  - vm_compute. reflexivity.
  - reflexivity.
Defined.

(** A call of [upload_to_drive] that returns leaves a file of that name in
    the folder.  It returns no identifier exactly when such a file was
    there, and then it stores nothing: the content of an existing file is
    never replaced.  Otherwise it stores one PDF with the content, under
    that name and folder.  After it, [file_exists_in_drive] answers true
    and a second upload under the same name stores nothing, whatever its
    content. *)
Theorem upload_to_drive_twice (w : world) (content filename folder_id : string)
    (d : drive) (st : stats) (d' : drive) (st' : stats) (r : option string) :
  upload_to_drive w content filename folder_id (d, st) = ((d', st'), Val r) →
  match r with
  | None => files d' = files d ∧ has_file (files d) filename folder_id = true
  | Some id =>
      has_file (files d) filename folder_id = false
      ∧ files d'
        = files d
          ++ [ {| file_id := id; file_name := filename;
                  file_mime := pdf_mime; file_parents := [folder_id];
                  file_trashed := false; file_content := content |} ]
  end
  ∧ (api_fault w (calls d') = false →
     file_exists_in_drive w filename folder_id (d', st')
     = ((tick d', st'), Val true)
     ∧ ∀ content',
         upload_to_drive w content' filename folder_id (d', st')
         = ((tick d', st'), Val None)).
Proof.
  intros (-> & Hhas & Hr)%upload_to_drive_returns.
  split; [done|]. intros Hnf. split.
  - by rewrite file_exists_in_drive_run, Hnf, Hhas.
  - intros content'. unfold upload_to_drive.
    by rewrite bind_run, file_exists_in_drive_run, Hnf, Hhas.
Qed.

Lemma upload_to_drive_twice_witness :
  file_exists_in_drive (example_world 2024 3) "a.pdf" "folder"
    (upload_to_drive (example_world 2024 3) "%PDF" "a.pdf" "folder"
       (empty_drive, no_stats)).1
  = ((tick (upload_to_drive (example_world 2024 3) "%PDF" "a.pdf" "folder"
              (empty_drive, no_stats)).1.1, no_stats), Val true).
Proof.
  apply (upload_to_drive_twice (example_world 2024 3) "%PDF" "a.pdf" "folder"
           empty_drive no_stats _ _ (Some "id1")).
  - vm_compute. reflexivity.
  - reflexivity.
Defined.

(** ** What a run costs *)

Section Resources.

Local Open Scope nat_scope.
Implicit Types (w : world) (d : drive) (st : stats) (t : descriptor)
  (ts : list descriptor) (fs : list drive_file).

Lemma pdf_count_app fs f :
  pdf_count (fs ++ [f])
  = pdf_count fs + (if String.eqb (file_mime f) pdf_mime then 1 else 0).
Proof.
  unfold pdf_count. rewrite List.filter_app, length_app. cbn [List.filter].
  by destruct (String.eqb (file_mime f) pdf_mime).
Qed.

Lemma get_or_create_folder_resources w folder_name parent_id d st :
  ∃ d' r,
    get_or_create_folder w folder_name parent_id (d, st) = ((d', st), r)
    ∧ calls d < calls d' ≤ calls d + 2
    ∧ length (files d') ≤ length (files d) + 1
    ∧ pdf_count (files d') = pdf_count (files d).
Proof.
  unfold get_or_create_folder. rewrite bind_run, files_list_run.
  destruct (api_fault w (calls d)).
  { eexists _, _. split; [done|]. cbn [tick calls files]. lia. }
  destruct (List.filter _ (files d)) as [|f found].
  - rewrite files_create_run. cbn [tick calls files].
    destruct (api_fault w (S (calls d))).
    { eexists _, _. split; [done|]. cbn [tick calls files]. lia. }
    eexists _, _. split; [done|]. cbn [calls files].
    rewrite length_app, pdf_count_app. cbn [file_mime length].
    replace (String.eqb folder_mime pdf_mime) with false by reflexivity. lia.
  - eexists _, _. split; [done|]. cbn [tick calls files]. lia.
Qed.

Lemma upload_to_drive_resources w content filename folder_id d st :
  has_file (files d) filename folder_id = false →
  ∃ d' r,
    upload_to_drive w content filename folder_id (d, st) = ((d', st), r)
    ∧ calls d < calls d' ≤ calls d + 2
    ∧ match r with
      | Val _ => length (files d') = length (files d) + 1
                 ∧ pdf_count (files d') = pdf_count (files d) + 1
      | Raise => files d' = files d
      | Continue => False
      end.
Proof.
  intros Hex. unfold upload_to_drive.
  rewrite bind_run, file_exists_in_drive_run.
  destruct (api_fault w (calls d)).
  { eexists _, _. split; [done|]. cbn [tick calls files]. split; [lia|done]. }
  rewrite Hex, bind_run, files_create_run. cbn [tick calls files].
  destruct (api_fault w (S (calls d))).
  { eexists _, _. split; [done|]. cbn [tick calls files]. split; [lia|done]. }
  eexists _, _. split; [done|]. cbn [calls files].
  rewrite length_app, pdf_count_app. cbn [file_mime length].
  replace (String.eqb pdf_mime pdf_mime) with true by reflexivity.
  split; [lia|done].
Qed.

(** the Drive calls, the files and the PDFs of one descriptor *)
Lemma process_resources w t d st :
  ∃ d' st' r,
    process w t (d, st) = ((d', st'), r)
    ∧ (if has_url t then calls d < calls d' ≤ calls d + 7
       else d' = d ∧ st' = st ∧ r = Continue)
    ∧ length (files d') ≤ length (files d) + (if has_url t then 3 else 0)
    ∧ pdf_count (files d') + downloaded st
      = pdf_count (files d) + downloaded st'
    ∧ match r with Raise => st' = st | _ => True end.
Proof.
  unfold process, has_url.
  destruct (t !! "pdf_url") as [u|] eqn:Hu.
  2:{ eexists _, _, _. split; [done|]. repeat split; lia. }
  destruct (Str.truthy u) eqn:Htru; cbn [negb].
  2:{ eexists _, _, _. split; [done|]. repeat split; lia. }
  destruct (period_of w t) as [q fy]. rewrite bind_run.
  destruct (get_or_create_folder_resources w fy (DRIVE_FOLDER_ID w) d st)
    as (d1 & r1 & -> & C1 & L1 & P1).
  destruct r1 as [fy_id| |];
    [|eexists _, _, _; split; [done|]; repeat split; lia
     |eexists _, _, _; split; [done|]; repeat split; lia].
  rewrite bind_run.
  destruct (get_or_create_folder_resources w q fy_id d1 st)
    as (d2 & r2 & -> & C2 & L2 & P2).
  destruct r2 as [q_id| |];
    [|eexists _, _, _; split; [done|]; repeat split; lia
     |eexists _, _, _; split; [done|]; repeat split; lia].
  rewrite bind_run, file_exists_in_drive_run.
  destruct (api_fault w (calls d2)).
  { eexists _, _, _. split; [done|]. cbn [tick calls files].
    repeat split; lia. }
  destruct (has_file (files d2) _ q_id) eqn:Hex.
  { eexists _, _, _. split; [done|]. cbn [tick calls files count_skipped
      downloaded]. repeat split; lia. }
  destruct (session_get w u) as [content|].
  2:{ eexists _, _, _. split; [done|]. cbn [tick calls files].
      repeat split; lia. }
  rewrite bind_run.
  destruct (upload_to_drive_resources w content
              (filename_of (default "Unknown" (t !! "company")) fy q) q_id
              (tick d2) st Hex) as (d3 & r3 & -> & C3 & R3).
  cbn [tick calls files] in *.
  destruct r3 as [id| |]; [| |by destruct R3].
  - destruct R3 as [L3 P3].
    eexists _, _, _. split; [done|]. cbn [count_downloaded downloaded].
    repeat split; lia.
  - eexists _, _, _. split; [done|]. rewrite R3. repeat split; lia.
Qed.

Lemma iteration_resources w t d st :
  let s' := iteration w (d, st) t in
  (if has_url t then calls d < calls s'.1 ≤ calls d + 7 else s' = (d, st))
  ∧ length (files s'.1) ≤ length (files d) + (if has_url t then 3 else 0)
  ∧ pdf_count (files s'.1) + downloaded st
    = pdf_count (files d) + downloaded s'.2.
Proof.
  cbv zeta. unfold iteration.
  destruct (process_resources w t d st) as (d' & st' & r & -> & C & L & P & R).
  destruct (has_url t).
  - destruct r as [[]| |]; cbn [fst snd add_failed count_failed downloaded];
      split; try done; split; done.
  - destruct C as (-> & -> & ->). cbn [fst snd]. split; [done|].
    split; [lia|done].
Qed.

End Resources.

Section RunResources.

Local Open Scope nat_scope.
Implicit Types (w : world) (d : drive) (st : stats) (t : descriptor)
  (ts : list descriptor) (s : drive * stats).

Lemma run_from_resources w ts s :
  let s' := run_from w s ts in
  calls s.1 + length (with_url ts) ≤ calls s'.1
  ∧ calls s'.1 ≤ calls s.1 + 7 * length (with_url ts)
  ∧ length (files s'.1) ≤ length (files s.1) + 3 * length (with_url ts)
  ∧ pdf_count (files s'.1) + downloaded s.2
    = pdf_count (files s.1) + downloaded s'.2.
Proof.
  cbv zeta. revert s. induction ts as [|t ts IH]; intros s.
  - cbn. lia.
  - cbn [run_from foldl with_url List.filter].
    destruct s as [d st].
    pose proof (iteration_resources w t d st) as (C & L & P). cbv zeta in *.
    specialize (IH (iteration w (d, st) t)). unfold run_from, with_url in *.
    destruct IH as (C1 & C2 & L' & P').
    destruct (has_url t); cbn [length fst snd] in *.
    + repeat split; lia.
    + rewrite C in *. cbn [fst snd] in *. repeat split; lia.
Qed.

Lemma iteration_without_url w t s : has_url t = false → iteration w s t = s.
Proof.
  intros Hurl. destruct s as [d st].
  pose proof (iteration_resources w t d st) as (C & _). cbv zeta in C.
  by rewrite Hurl in C.
Qed.

End RunResources.

(** A run makes at least one and at most seven Drive calls for each
    descriptor that has a URL and none for the others; it stores at most
    three files for each of them; and the PDFs it has added to the storage
    are as many as its downloaded counter says. *)
Theorem run_resources (w : world) (ts : list descriptor) (d : drive) :
  let run := download_and_upload_transcripts w ts d in
  (calls d + length (with_url ts) ≤ calls run.1)%nat
  ∧ (calls run.1 ≤ calls d + 7 * length (with_url ts))%nat
  ∧ (length (files run.1) ≤ length (files d) + 3 * length (with_url ts))%nat
  ∧ pdf_count (files run.1) = (pdf_count (files d) + downloaded run.2)%nat.
Proof.
  cbv zeta. unfold download_and_upload_transcripts.
  pose proof (run_from_resources w ts (d, no_stats)) as (C1 & C2 & L & P).
  cbv zeta in *. cbn [fst snd no_stats downloaded] in *.
  repeat split; try done. lia.
Qed.

(** Descriptors without a URL, the key missing or its value empty, are
    passed over: the run is the run on the descriptors that have one. *)
Theorem run_passes_over_descriptors_without_url (w : world)
    (ts : list descriptor) (d : drive) :
  download_and_upload_transcripts w ts d
  = download_and_upload_transcripts w (with_url ts) d.
Proof.
  unfold download_and_upload_transcripts. generalize (d, no_stats).
  induction ts as [|t ts IH]; intros s; [done|].
  cbn [with_url List.filter run_from foldl].
  destruct (has_url t) eqn:Hurl.
  - cbn [run_from foldl]. apply IH.
  - rewrite (iteration_without_url w t s Hurl). apply IH.
Qed.

(** When no Drive call fails, a descriptor whose file is in its quarter
    folder is skipped: three queries, nothing stored, nothing downloaded,
    and the skipped counter moves by one.  The file is found by its name,
    so this holds whatever the URL of the descriptor is. *)
Theorem stored_descriptor_is_skipped (w : world) (t : descriptor)
    (d : drive) (st : stats) :
  no_faults w → has_url t = true → stored w t (files d) = true →
  iteration w (d, st) t = (tick (tick (tick d)), count_skipped st).
Proof.
  intros Hnf Hurl Hst. unfold iteration.
  assert (settled w t (files d)) as Hset.
  { right. split; [by apply stored_quarter_folder|by left]. }
  destruct (process_settled w t d st Hnf Hurl Hset) as (r & -> & ->).
  by rewrite Hst.
Qed.

Lemma stored_descriptor_is_skipped_witness :
  iteration (example_world 2024 3)
    ((download_and_upload_transcripts (example_world 2024 3) [acme]
        empty_drive).1,
     no_stats)
    (<["pdf_url" := "https://www.screener.in/files/another-copy.pdf"]> acme)
  = (tick (tick (tick
       (download_and_upload_transcripts (example_world 2024 3) [acme]
          empty_drive).1)),
     count_skipped no_stats).
Proof.
  apply (stored_descriptor_is_skipped (example_world 2024 3)
           (<["pdf_url" := "https://www.screener.in/files/another-copy.pdf"]>
              acme)).
  - by intros n.
  - vm_compute. reflexivity.
  - vm_compute. reflexivity.
Defined.

(** ** The file name *)

Section FileName.

Implicit Types (s : string) (c : ascii).

Lemma delete_chars_id cls s :
  Str.all (λ c, negb (cls c)) s = true → Str.delete_chars cls s = s.
Proof.
  induction s as [|c s IH]; [done|]. cbn [Str.all Str.delete_chars].
  intros [Hc Hs]%andb_true_iff. apply negb_true_iff in Hc.
  by rewrite Hc, IH.
Qed.

Lemma delete_chars_length cls s :
  (String.length (Str.delete_chars cls s) ≤ String.length s)%nat.
Proof.
  induction s as [|c s IH]; [done|]. cbn [Str.delete_chars].
  destruct (cls c); simpl; lia.
Qed.

End FileName.

(** The file name of a descriptor is its company without the nine characters
    less-than, greater-than, colon, double quote, slash, backslash, bar,
    question mark and star, then the fiscal year and the quarter: the
    company part keeps every other character, in order, holds none of the
    nine, is no longer than the company and is the company itself when that
    holds none of them.  The company "A/B: Corp*" of Q2 of FY2024 is filed
    as "AB Corp - FY2024 Q2 Transcript.pdf". *)
Theorem filename_is_clean (company fiscal_year quarter : string) :
  (∃ safe_company,
     filename_of company fiscal_year quarter
     = safe_company +:+ " - " +:+ fiscal_year +:+ " " +:+ quarter
       +:+ " Transcript.pdf"
     ∧ list_ascii_of_string safe_company
       = filter (λ c, c ∉ ["<"; ">"; ":"; "034"; "/"; "092"; "|"; "?"; "*"]%char)
           (list_ascii_of_string company)
     ∧ (∀ c, c ∈ ["<"; ">"; ":"; "034"; "/"; "092"; "|"; "?"; "*"]%char →
          c ∉ list_ascii_of_string safe_company)
     ∧ (String.length safe_company ≤ String.length company)%nat
     ∧ ((∀ c, c ∈ ["<"; ">"; ":"; "034"; "/"; "092"; "|"; "?"; "*"]%char →
           c ∉ list_ascii_of_string company) →
        safe_company = company))
  ∧ filename_of "A/B: Corp*" "FY2024" "Q2"
    = "AB Corp - FY2024 Q2 Transcript.pdf"
  ∧ filename_of "<A>|B?" "FY24" "Q1" = "AB - FY24 Q1 Transcript.pdf".
Proof.
  split; [|split; reflexivity].
  exists (Str.delete_chars is_unsafe company). split; [done|].
  pose proof (delete_chars_filter company) as Hf.
  unfold dropped_characters in Hf. split; [done|]. split.
  { intros c Hc. rewrite Hf. intros [Hnot _]%list_elem_of_filter. done. }
  split; [apply delete_chars_length|].
  intros Hnone. apply delete_chars_id.
  clear Hf. induction company as [|c s IH]; [done|]. cbn [Str.all].
  rewrite IH, andb_true_r.
  - apply negb_true_iff, not_true_iff_false. intros Hc%is_unsafe_iff.
    apply (Hnone c Hc). cbn [list_ascii_of_string]. by left.
  - intros c' Hc' Hin. apply (Hnone c' Hc').
    cbn [list_ascii_of_string]. by right.
Qed.

(** ** [main] *)

Section Main.

Local Open Scope nat_scope.
Implicit Types (env : environment) (d : drive) (t : descriptor).

Lemma company_link_descriptor_has_url a t :
  selects_document a = true →
  company_link_descriptor a = Some t →
  has_url t = true ∧ t !! "company" = None.
Proof.
  intros Hsel%selects_document_truthy. unfold company_link_descriptor.
  case_match; [|done]. intros Heq. apply (inj Some) in Heq. subst t.
  unfold has_url. split.
  - rewrite lookup_insert_eq.
    destruct (Str.startswith "http" (href a)); cbn [negb]; [done|].
    by destruct (Str.startswith "/" (href a)).
  - by rewrite ?lookup_insert_ne by done.
Qed.

Lemma with_company_spec c t :
  has_url (with_company c t) = has_url t
  ∧ with_company c t !! "company" = Some (name c).
Proof.
  unfold with_company, has_url. split; [|apply lookup_insert_eq].
  by rewrite lookup_insert_ne.
Qed.

(** the descriptors of the company-wise collection *)
Lemma company_wise_spec env cs t :
  t ∈ company_wise env cs →
  ∃ c, c ∈ take 100 cs ∧ t !! "company" = Some (name c)
       ∧ has_url t = true.
Proof.
  unfold company_wise.
  intros (c & Hc%list_elem_of_In & Ht%list_elem_of_In)%list_elem_of_In%in_flat_map.
  exists c. split; [done|].
  apply list_elem_of_fmap in Ht as (t0 & -> & Ht0).
  destruct (with_company_spec c t0) as [Hurl Hcomp]. split; [done|].
  rewrite Hurl. unfold get_company_transcripts in Ht0.
  destruct (company_pages env (url c)) as [anchors|];
    [|by apply elem_of_nil in Ht0].
  apply list_elem_of_omap in Ht0 as (a & Ha & Hd).
  apply list_elem_of_In, filter_In in Ha as [_ Hsel].
  by apply (company_link_descriptor_has_url a t0 Hsel) in Hd as [? _].
Qed.

Lemma collect_descriptors fuel env ts :
  collect fuel env = Some ts →
  Forall (λ t, has_url t = true ∧ is_Some (t !! "company")) ts.
Proof.
  unfold collect, scrape_transcripts_page, get_all_companies.
  destruct (scrape_loop fuel (listing env) 1 [] []) as [[scr req]|] eqn:Hs;
    [|done].
  destruct (is_empty scr).
  - destruct (companies_loop fuel (screen env) 1 [] []) as [[cs req']|];
      [|done].
    intros [= <-]. apply Forall_forall.
    intros t (c & _ & Hc & Hurl)%company_wise_spec. split; [done|by eexists].
  - intros [= <-].
    eapply (scrape_loop_Forall _ _ _ _ _ _ _ _ _ (List.Forall_nil _) Hs).
    Unshelve.
    intros r t Hr. split.
    + by apply parse_transcript_row_lookups in Hr as (_ & _ & _ & _ & _ & ?).
    + revert Hr. unfold parse_transcript_row.
      destruct (List.find is_document_link (row_hrefs r)) as [h|]; [|done].
      destruct (negb (Str.truthy h)); [done|].
      intros Heq. apply (inj Some) in Heq. subst t.
      rewrite lookup_insert_eq. by eexists.
Qed.

Lemma collect_returns fuel env :
  200 ≤ fuel → is_Some (collect fuel env).
Proof.
  intros Hfuel. unfold collect, scrape_transcripts_page, get_all_companies.
  destruct (scrape_loop_spec (listing env) fuel 1 [] [])
    as (k & _ & -> & _); [lia|lia|].
  destruct (is_empty _); [|by eexists].
  destruct (companies_loop_spec (screen env) fuel 1 [] [])
    as (k' & _ & -> & _); [lia|lia|].
  by eexists.
Qed.

Lemma filter_all {A} (f : A → bool) (l : list A) :
  Forall (λ x, f x = true) l → List.filter f l = l.
Proof.
  induction 1 as [|x l Hx _ IH]; [done|]. cbn [List.filter].
  by rewrite Hx, IH.
Qed.

(** a crawl that requests the pages [a], [a+1], ... is cut at a page of
    that range *)
Lemma first_raise_seq raises a n made :
  first_raise raises (seq a n) = Some made →
  ∃ m, 1 ≤ m ≤ n ∧ made = seq a m ∧ raises (a + m - 1) = true
       ∧ ∀ j, a ≤ j < a + m - 1 → raises j = false.
Proof.
  revert a made. induction n as [|n IH]; intros a made; [done|].
  cbn [seq first_raise]. destruct (raises a) eqn:Ha.
  - intros [= <-]. exists 1. split; [lia|]. split; [done|].
    replace (a + 1 - 1) with a by lia. split; [done|]. intros j ?; lia.
  - destruct (first_raise raises (seq (S a) n)) as [made'|] eqn:Hrest;
      [|done].
    intros [= <-]. destruct (IH _ _ Hrest) as (m & Hm & -> & Hr & Hbefore).
    exists (S m). split; [lia|]. split; [done|].
    replace (a + S m - 1) with (S a + m - 1) by lia. split; [done|].
    intros j Hj. destruct (decide (j = a)) as [->|]; [done|].
    apply Hbefore. lia.
Qed.

Ltac side_conditions :=
  repeat split; try done; try (cbn [length]; lia); try (by constructor);
  try (intros [?|?]; [lia|done]).

(** the body of the [try], given fuel for the crawls: it ends, the browser
    was sent to the login page, then to the pages 1 to [j] of the
    transcript listing, then to the pages 1 to [k] of the company screen,
    then to company pages; the company screen and the company pages are
    requested only when the listing gave no descriptor *)
Lemma main_try_spec fuel env d :
  200 ≤ fuel →
  ∃ e j k cs d',
    main_try fuel env d
    = Some (e, login_url :: (transcripts_url <$> seq 1 j)
                 ++ (companies_url <$> seq 1 k) ++ cs, d')
    ∧ j ≤ 200 ∧ k ≤ 100 ∧ length cs ≤ 100
    ∧ NoDup cs ∧ Forall (λ u, Str.contains "/company/" u = true) cs
    ∧ (0 < k ∨ cs ≠ [] →
       ∃ req, scrape_transcripts_page fuel (listing env) = Some ([], req))
    ∧ (cs ≠ [] → ∃ st, e = Done st)
    ∧ (j = 0 → k = 0 ∧ (e = RuntimeError ∨ e = WebDriverException))
    ∧ match e with Done _ => True | _ => d' = d end.
Proof.
  intros Hfuel. unfold main_try.
  destruct (login_to_screener (login env)) as [[|]|].
  2:{ exists RuntimeError, 0, 0, [], d. cbn. side_conditions. }
  2:{ exists WebDriverException, 0, 0, [], d. cbn. side_conditions. }
  destruct (scrape_loop_spec (listing env) fuel 1 [] [])
    as (j & Hj & Hscrape & _); [lia|lia|].
  unfold scrape_transcripts_page at 1. rewrite Hscrape. cbn [app].
  replace (S j - 1) with j by lia.
  destruct (first_raise (listing_raises env) (seq 1 j)) as [made|] eqn:Hraise.
  { apply first_raise_seq in Hraise as (m & Hm & -> & _).
    exists WebDriverException, m, 0, [], d. cbn [seq fmap list_fmap app].
    rewrite app_nil_r. side_conditions. }
  cbv zeta. destruct (is_empty (scraped (listing env) 1 j)) eqn:Hempty.
  2:{ destruct (download_and_upload_transcripts _ _ d) as [d' st].
      exists (Done st), j, 0, [], d'. cbn [seq fmap list_fmap app].
      rewrite app_nil_r. side_conditions. }
  apply is_empty_true in Hempty.
  assert (∃ req, scrape_transcripts_page fuel (listing env) = Some ([], req))
    as Hnone.
  { unfold scrape_transcripts_page. rewrite Hscrape. cbn [app].
    rewrite Hempty. by eexists. }
  destruct (companies_loop_spec (screen env) fuel 1 [] [])
    as (k & Hk & Hloop & _); [lia|lia|].
  unfold get_all_companies. rewrite Hloop. cbn [app].
  replace (S k - 1) with k by lia.
  destruct (first_raise (screen_raises env) (seq 1 k)) as [made|] eqn:Hraise'.
  { apply first_raise_seq in Hraise' as (m & Hm & -> & _).
    exists WebDriverException, j, m, [], d. rewrite app_nil_r.
    split; [reflexivity|]. side_conditions. }
  destruct (download_and_upload_transcripts _ _ d) as [d' st].
  set (cs := unique_by_url ∅ (listed (screen env) 1 k)).
  exists (Done st), j, k, (url <$> take 100 cs), d'.
  split; [reflexivity|].
  destruct (unique_by_url_spec ∅ (listed (screen env) 1 k)) as [Hnd Hin].
  fold cs in Hnd, Hin.
  split; [lia|]. split; [lia|]. split.
  { rewrite length_fmap, length_take. lia. }
  split.
  { rewrite <- (list.take_drop 100 cs), fmap_app in Hnd.
    by apply NoDup_app in Hnd as [? _]. }
  split.
  { apply Forall_forall.
    intros u (c & -> & Hc)%list_elem_of_fmap.
    apply subseteq_take, Hin in Hc as [Hc _].
    pose proof (companies_loop_Forall
                  (λ c, name c ≠ "" ∧ Str.contains "/company/" (url c) = true)
                  _ _ _ _ _ _ _ company_of_link_spec (List.Forall_nil _) Hloop)
      as Hall.
    rewrite Forall_forall in Hall. by apply Hall. }
  split; [done|]. split; [by eexists|]. split; [lia|done].
Qed.

(** when the body of the [try] ends normally, the pipeline ran on the
    collected descriptors *)
Lemma main_try_Done fuel env d st urls d' :
  main_try fuel env d = Some (Done st, urls, d') →
  ∃ ts, collect fuel env = Some ts
    ∧ download_and_upload_transcripts (services env) ts d = (d', st).
Proof.
  unfold main_try, collect.
  destruct (login_to_screener (login env)) as [[|]|]; [|done|done].
  destruct (scrape_transcripts_page fuel (listing env)) as [[ts req]|];
    [|done].
  destruct (first_raise (listing_raises env) req); [done|]. cbv zeta.
  destruct (is_empty ts).
  - destruct (get_all_companies fuel (screen env)) as [[cs req']|]; [|done].
    destruct (first_raise (screen_raises env) req'); [done|].
    destruct (download_and_upload_transcripts _ _ d) as [d'' st''] eqn:Hrun.
    intros [= <- _ <-]. by eexists.
  - destruct (download_and_upload_transcripts _ _ d) as [d'' st''] eqn:Hrun.
    intros [= <- _ <-]. by eexists.
Qed.

End Main.

(** Given that the session and the browser start, the browser is closed
    however the body of the [try] of [main] ends, normally, with the
    [RuntimeError] of a failed login or with an exception of [driver.get]
    on the login page or on a page of a crawl: the log of the browser then
    is its start, page requests that begin with the login page, and
    [driver.quit()] as the last event.  The browser is started exactly when
    both login variables are set, and it is closed exactly when moreover
    [get_drive_service] returned: an exception of [get_drive_service] comes
    after the start and before the [try] and leaves the browser running,
    with no page requested.  When [main] ends with an error, nothing was
    stored. *)
Theorem main_cleanup (fuel : nat) (env : environment) (d : drive) :
  (200 ≤ fuel)%nat →
  ∃ r, main fuel env d = Some r
    ∧ (browser_start ∈ browser_log r
       ↔ is_set (SCREENER_USERNAME env) && is_set (SCREENER_PASSWORD env)
         = true)
    ∧ (browser_quit ∈ browser_log r
       ↔ browser_start ∈ browser_log r ∧ drive_service_ok env = true)
    ∧ (browser_start ∉ browser_log r →
       browser_log r = [] ∧ exit_of r = ValueError)
    ∧ (browser_start ∈ browser_log r → browser_quit ∉ browser_log r →
       browser_log r = [browser_start] ∧ exit_of r = ValueError)
    ∧ (browser_quit ∈ browser_log r →
       ∃ urls,
         browser_log r
         = browser_start
             :: (browser_get <$> "https://www.screener.in/login/" :: urls)
             ++ [browser_quit])
    ∧ (exit_of r = RuntimeError ∨ exit_of r = WebDriverException →
       browser_quit ∈ browser_log r)
    ∧ match exit_of r with
      | Done _ => browser_quit ∈ browser_log r
      | _ => drive_after r = d
      end.
Proof.
  intros Hfuel. unfold main.
  destruct (is_set (SCREENER_USERNAME env) && is_set (SCREENER_PASSWORD env))
    eqn:Hset.
  2:{ replace (negb (is_set (SCREENER_USERNAME env))
               || negb (is_set (SCREENER_PASSWORD env))) with true
        by (by destruct (is_set (SCREENER_USERNAME env)),
                 (is_set (SCREENER_PASSWORD env))).
      eexists. split; [done|]. cbn [browser_log exit_of drive_after].
      pose proof (not_elem_of_nil browser_start).
      pose proof (not_elem_of_nil browser_quit).
      repeat split; try done; try tauto.
      intros [?|?]; discriminate. }
  replace (negb (is_set (SCREENER_USERNAME env))
           || negb (is_set (SCREENER_PASSWORD env))) with false
    by (by destruct (is_set (SCREENER_USERNAME env)),
             (is_set (SCREENER_PASSWORD env))).
  cbv zeta. destruct (drive_service_ok env); cbn [negb].
  2:{ eexists. split; [done|]. cbn [browser_log exit_of drive_after].
      assert (browser_quit ∉ [browser_start]) as Hq.
      { intros [?|[]%elem_of_nil]%elem_of_cons. discriminate. }
      assert (browser_start ∈ [browser_start]) by by left.
      repeat split; try done; try tauto.
      - intros [? ?]; discriminate.
      - intros [?|?]; discriminate. }
  destruct (main_try_spec fuel env d Hfuel)
    as (e & j & k & cs & d' & -> & _ & _ & _ & _ & _ & _ & _ & _ & Hd).
  eexists. split; [done|]. cbn [browser_log exit_of drive_after].
  set (urls := (transcripts_url <$> seq 1 j) ++ _).
  assert (browser_start ∈ [browser_start] ++
            (browser_get <$> login_url :: urls) ++ [browser_quit]) as Hs
    by by left.
  assert (browser_quit ∈ [browser_start] ++
            (browser_get <$> login_url :: urls) ++ [browser_quit]) as Hq.
  { rewrite !elem_of_app. right. right. by left. }
  split; [done|]. split; [done|]. split; [done|]. split; [done|].
  split; [intros _; by exists urls|]. split; [done|].
  by destruct e.
Qed.

Lemma main_cleanup_witness :
  ∃ r, main 200 timeout_environment empty_drive = Some r
    ∧ (browser_start ∈ browser_log r
       ↔ is_set (SCREENER_USERNAME timeout_environment)
         && is_set (SCREENER_PASSWORD timeout_environment) = true)
    ∧ (browser_quit ∈ browser_log r
       ↔ browser_start ∈ browser_log r
         ∧ drive_service_ok timeout_environment = true)
    ∧ (browser_start ∉ browser_log r →
       browser_log r = [] ∧ exit_of r = ValueError)
    ∧ (browser_start ∈ browser_log r → browser_quit ∉ browser_log r →
       browser_log r = [browser_start] ∧ exit_of r = ValueError)
    ∧ (browser_quit ∈ browser_log r →
       ∃ urls,
         browser_log r
         = browser_start
             :: (browser_get <$> "https://www.screener.in/login/" :: urls)
             ++ [browser_quit])
    ∧ (exit_of r = RuntimeError ∨ exit_of r = WebDriverException →
       browser_quit ∈ browser_log r)
    ∧ match exit_of r with
      | Done _ => browser_quit ∈ browser_log r
      | _ => drive_after r = empty_drive
      end.
Proof.
  apply (main_cleanup 200 timeout_environment empty_drive). lia.
Defined.

(** The third page of the listing does not load: [main] ends with the
    exception, after the login page and the pages 1, 2 and 3 were requested
    and the browser was closed, and nothing was stored.  When
    [get_drive_service] raises the browser is started and left running. *)
Example main_page_load_raises :
  main 200 timeout_environment empty_drive
  = Some {| exit_of := WebDriverException;
            browser_log :=
              [ browser_start;
                browser_get "https://www.screener.in/login/";
                browser_get "https://www.screener.in/transcripts/?page=1";
                browser_get "https://www.screener.in/transcripts/?page=2";
                browser_get "https://www.screener.in/transcripts/?page=3";
                browser_quit ];
            drive_after := empty_drive |}
  ∧ main 200 (example_environment false) empty_drive
    = Some {| exit_of := ValueError;
              browser_log := [browser_start];
              drive_after := empty_drive |}.
Proof. split; vm_compute; reflexivity. Qed.

(** Given fuel for the crawls, [main] ends.  When it ends normally, every
    descriptor it collected, from the listing or else from the company
    pages, has a URL and a company, and is counted exactly once: the three
    counters add up to the number of collected descriptors. *)
Theorem main_counts_every_descriptor (fuel : nat) (env : environment)
    (d : drive) :
  (200 ≤ fuel)%nat →
  ∃ r, main fuel env d = Some r
    ∧ ∀ st, exit_of r = Done st →
        ∃ ts, collect fuel env = Some ts
          ∧ Forall (λ t, has_url t = true ∧ is_Some (t !! "company")) ts
          ∧ (drive_after r, st)
            = download_and_upload_transcripts (services env) ts d
          ∧ total st = length ts.
Proof.
  intros Hfuel. unfold main.
  destruct (negb (is_set (SCREENER_USERNAME env))
            || negb (is_set (SCREENER_PASSWORD env)));
    [eexists; split; [done|]; by intros st [=]|].
  cbv zeta. destruct (negb (drive_service_ok env));
    [eexists; split; [done|]; by intros st [=]|].
  destruct (main_try_spec fuel env d Hfuel)
    as (e & j & k & cs & d' & Htry & _).
  rewrite Htry. eexists. split; [done|]. cbn [exit_of drive_after].
  intros st ->.
  apply main_try_Done in Htry as (ts & Hts & Hrun). exists ts.
  pose proof (collect_descriptors fuel env ts Hts) as Hall.
  split; [done|]. split; [done|]. split; [done|].
  pose proof (proj2 (run_from_spec (services env) ts (d, no_stats))) as Htot.
  unfold download_and_upload_transcripts in Hrun. rewrite Hrun in Htot.
  cbn [snd] in Htot. rewrite Htot. cbn.
  rewrite filter_all; [done|].
  eapply Forall_impl; [exact Hall|]. by intros t [? _].
Qed.

Lemma main_counts_every_descriptor_witness :
  ∃ r, main 200 (example_environment true) empty_drive = Some r
    ∧ ∀ st, exit_of r = Done st →
        ∃ ts, collect 200 (example_environment true) = Some ts
          ∧ Forall (λ t, has_url t = true ∧ is_Some (t !! "company")) ts
          ∧ (drive_after r, st)
            = download_and_upload_transcripts
                (services (example_environment true)) ts empty_drive
          ∧ total st = length ts.
Proof.
  apply (main_counts_every_descriptor 200 (example_environment true)
           empty_drive).
  lia.
Defined.

(** What [main] asks of the browser, once both login variables are set and
    [get_drive_service] returned: the login page, then the pages 1 to [j]
    of the transcript listing with [j] at most 200, then the pages 1 to [k]
    of the company screen with [k] at most 100, then the pages of at most
    100 companies, no company twice, and nothing else, at most 401 page
    requests in all.  The company pages are a fallback: the company screen
    and the company pages are requested only when the listing gave no
    descriptor, and the company pages only in a run that ends normally. *)
Theorem main_browser_requests (fuel : nat) (env : environment) (d : drive) :
  (200 ≤ fuel)%nat →
  is_set (SCREENER_USERNAME env) = true →
  is_set (SCREENER_PASSWORD env) = true →
  drive_service_ok env = true →
  ∃ r j k cs,
    main fuel env d = Some r
    ∧ browser_log r
      = browser_start
          :: (browser_get <$>
                "https://www.screener.in/login/"
                :: ((λ page : nat,
                       "https://www.screener.in/transcripts/?page="
                       +:+ pretty page) <$> seq 1 j)
                ++ ((λ page : nat,
                       "https://www.screener.in/screens/71064/all-companies/?page="
                       +:+ pretty page) <$> seq 1 k)
                ++ cs)
          ++ [browser_quit]
    ∧ (j ≤ 200)%nat ∧ (k ≤ 100)%nat ∧ (length cs ≤ 100)%nat
    ∧ NoDup cs
    ∧ Forall (λ u, Str.contains "/company/" u = true) cs
    ∧ ((0 < k)%nat ∨ cs ≠ [] →
       ∃ req, scrape_transcripts_page fuel (listing env) = Some ([], req))
    ∧ (cs ≠ [] → ∃ st, exit_of r = Done st)
    ∧ (length (browser_log r) ≤ 403)%nat.
Proof.
  intros Hfuel Hu Hp Hok. unfold main. rewrite Hu, Hp, Hok. cbn [negb orb].
  cbv zeta.
  destruct (main_try_spec fuel env d Hfuel)
    as (e & j & k & cs & d' & -> & Hj & Hk & Hcs & Hnd & Hall & Hfb & Hdone & _).
  eexists _, j, k, cs. split; [done|]. cbn [browser_log exit_of].
  split; [done|].
  split; [done|]. split; [done|]. split; [done|]. split; [done|].
  split; [done|]. split; [done|]. split; [done|].
  cbn [app length]. rewrite length_app, length_fmap. cbn [length].
  rewrite !length_app, !length_fmap, !length_seq. cbn [length]. lia.
Qed.

Lemma main_browser_requests_witness :
  ∃ r j k cs,
    main 200 (example_environment true) empty_drive = Some r
    ∧ browser_log r
      = browser_start
          :: (browser_get <$>
                "https://www.screener.in/login/"
                :: ((λ page : nat,
                       "https://www.screener.in/transcripts/?page="
                       +:+ pretty page) <$> seq 1 j)
                ++ ((λ page : nat,
                       "https://www.screener.in/screens/71064/all-companies/?page="
                       +:+ pretty page) <$> seq 1 k)
                ++ cs)
          ++ [browser_quit]
    ∧ (j ≤ 200)%nat ∧ (k ≤ 100)%nat ∧ (length cs ≤ 100)%nat
    ∧ NoDup cs
    ∧ Forall (λ u, Str.contains "/company/" u = true) cs
    ∧ ((0 < k)%nat ∨ cs ≠ [] →
       ∃ req, scrape_transcripts_page 200 (listing (example_environment true))
              = Some ([], req))
    ∧ (cs ≠ [] → ∃ st, exit_of r = Done st)
    ∧ (length (browser_log r) ≤ 403)%nat.
Proof.
  apply (main_browser_requests 200 (example_environment true) empty_drive);
    [lia|reflexivity|reflexivity|reflexivity].
Defined.

(** The listing is empty and the company screen has one company on its
    first page and no link on its second: the browser is sent to the login
    page, to page 1 of the listing, to the pages 1 and 2 of the company
    screen and to the page of the company. *)
Example main_falls_back_to_companies :
  browser_log <$> main 200 (example_environment true) empty_drive
  = Some [ browser_start;
           browser_get "https://www.screener.in/login/";
           browser_get "https://www.screener.in/transcripts/?page=1";
           browser_get
             "https://www.screener.in/screens/71064/all-companies/?page=1";
           browser_get
             "https://www.screener.in/screens/71064/all-companies/?page=2";
           browser_get "https://www.screener.in/company/ACME/";
           browser_quit ].
Proof. vm_compute. reflexivity. Qed.

(** ** Where a run leaves the files *)

(** At the end of a run, whatever failed in it, every descriptor that was
    counted as downloaded or as skipped has its file where the pipeline
    looks for it: in the folder of its quarter, itself in the folder of its
    fiscal year under the root folder, under its file name. *)
Theorem counted_descriptor_is_stored (w : world) (ts : list descriptor)
    (d : drive) (i : nat) (t : descriptor) :
  ts !! i = Some t →
  downloaded (iteration w (before w ts d i) t).2
  = S (downloaded (before w ts d i).2)
  ∨ skipped (iteration w (before w ts d i) t).2
    = S (skipped (before w ts d i).2) →
  stored w t (files (download_and_upload_transcripts w ts d).1) = true
  ∧ ∃ fy_id q_id,
      first_folder (files (download_and_upload_transcripts w ts d).1)
        (period_of w t).2 (DRIVE_FOLDER_ID w) = Some fy_id
      ∧ first_folder (files (download_and_upload_transcripts w ts d).1)
          (period_of w t).1 fy_id = Some q_id
      ∧ has_file (files (download_and_upload_transcripts w ts d).1)
          (filename_for w t) q_id = true.
Proof.
  intros Hi [_ Hst]%iteration_counted.
  assert (stored w t (files (download_and_upload_transcripts w ts d).1) = true)
    as Hfinal.
  { eapply stored_prefix; [|exact Hst].
    unfold download_and_upload_transcripts, before.
    rewrite <- (take_drop_middle ts i t Hi) at 2.
    rewrite run_from_app. cbn [run_from foldl].
    apply grows_prefix, (run_from_spec w (drop (S i) ts)). }
  split; [done|]. revert Hfinal. unfold stored, quarter_folder.
  destruct (first_folder _ (period_of w t).2 (DRIVE_FOLDER_ID w))
    as [fy_id|]; [|done].
  cbn. destruct (first_folder _ (period_of w t).1 fy_id) as [q_id|] eqn:Hq;
    [|done].
  intros Hfile. by exists fy_id, q_id.
Qed.

Lemma counted_descriptor_is_stored_witness :
  stored (example_world 2024 3) acme
    (files (download_and_upload_transcripts (example_world 2024 3)
              [acme; broken; plain] empty_drive).1) = true.
Proof.
  apply (counted_descriptor_is_stored (example_world 2024 3)
           [acme; broken; plain] empty_drive 0 acme).
  - reflexivity.
  - left. vm_compute. reflexivity.
Defined.
